(** * A shallow embedding of the dropdown combination tester

    The development follows the class [CompactDropdownTester] (the
    retry executor, the stuck-state monitor, the depth-first enumerator of
    dropdown combinations and the page-state classifier), and the older
    retry executor of [dropdown-validator3.js] in module [V3].

    Asynchronous methods run one after the other on a single session; they
    are modelled as functions from the tester's state to an outcome and a
    new state.  A rejected promise or a thrown [Error] is the outcome
    [Throw msg], where [msg] is the message of the error. *)

From stdpp Require Import base gmap strings list pretty.
From Stdlib Require Import ZArith Lia.

Open Scope string_scope.
Open Scope list_scope.

(** ** Outcomes and the state-and-exception monad *)

Inductive outcome (A : Type) : Type :=
| Ok (a : A)
| Throw (msg : string).
Arguments Ok {A} a.
Arguments Throw {A} msg.

Definition M (S A : Type) : Type := S -> outcome A * S.

Definition ret {S A : Type} (a : A) : M S A := fun s => (Ok a, s).

Definition throw {S A : Type} (msg : string) : M S A := fun s => (Throw msg, s).

Definition bind {S A B : Type} (m : M S A) (k : A -> M S B) : M S B :=
  fun s =>
    match m s with
    | (Ok a, s') => k a s'
    | (Throw msg, s') => (Throw msg, s')
    end.

(** [try { m } catch (error) { h error.message }] *)
Definition try_catch {S A : Type} (m : M S A) (h : string -> M S A) : M S A :=
  fun s =>
    match m s with
    | (Ok a, s') => (Ok a, s')
    | (Throw msg, s') => h msg s'
    end.

(** [try { m } finally { f }], for a finaliser that cannot throw. *)
Definition try_finally {S A : Type} (m : M S A) (f : S -> S) : M S A :=
  fun s => let (r, s') := m s in (r, f s').

Definition modify {S : Type} (f : S -> S) : M S unit := fun s => (Ok tt, f s).

Definition gets {S A : Type} (f : S -> A) : M S A := fun s => (Ok (f s), s).

Definition when {S : Type} (b : bool) (m : M S unit) : M S unit :=
  if b then m else ret tt.

Declare Scope tester_scope.
Delimit Scope tester_scope with tester.
Notation "'let*' x := c 'in' k" :=
  (bind c (fun x => k))
  (at level 10, x pattern, c at level 100, k at level 200) : tester_scope.
Notation "c >> k" :=
  (bind c (fun _ => k)) (at level 90, right associativity) : tester_scope.
Open Scope tester_scope.

(** ** Data exchanged with the page *)

(** A located dropdown control ([WebElement]); [None] stands for the
    [undefined] read from an array past its end. *)
Definition Elem : Type := nat.

(** One selectable option, as the extraction script returns it. *)
Record DOption : Type := mkOption {
  opt_value : string;
  opt_text : string;
  opt_index : nat
}.

(** The driver calls the tester issues, in the order it issues them.  The
    list is a record of the interaction, not a field of the class. *)
Inductive Call : Type :=
| CRefresh
| CDeleteCookies
| CExec (script : string)
| CQuit
| COptions (el : option Elem)
| CSelect (el : option Elem) (val : string)
| CVerify (el : option Elem) (val : string)
| CDetectTiles
| CRecheck
| CNoResults
| CSortControls
| CSortScript.

(** An entry of the validation log: the message, the operation current
    when it was captured.  Time stamps and the data payload are left out. *)
Record Entry : Type := mkEntry {
  e_msg : string;
  e_op : option string
}.

(** ** The state of the tester *)

Record Tester (W : Type) : Type := mkTester {
  world : W;                        (* the browser session and its page *)
  driver : bool;                    (* [this.driver] is not null *)
  calls : list Call;
  retryCounts : gmap string nat;
  totalTests : nat;
  passedTests : nat;
  failedTests : nat;
  currentOperation : option string;
  isRecovering : bool;
  validationBuffer : list Entry;
  validationLog : list Entry;       (* contents of validation.log *)
  executionLog : list string;       (* contents of execution.log *)
  errorLog : list (string * string) (* contents of errors.log *)
}.
Arguments mkTester {W}.
Arguments world {W}.
Arguments driver {W}.
Arguments calls {W}.
Arguments retryCounts {W}.
Arguments totalTests {W}.
Arguments passedTests {W}.
Arguments failedTests {W}.
Arguments currentOperation {W}.
Arguments isRecovering {W}.
Arguments validationBuffer {W}.
Arguments validationLog {W}.
Arguments executionLog {W}.
Arguments errorLog {W}.

Section Setters.
Context {W : Type}.
Implicit Type t : Tester W.

Definition set_world (w : W) t : Tester W :=
  mkTester w (driver t) (calls t) (retryCounts t) (totalTests t)
    (passedTests t) (failedTests t) (currentOperation t) (isRecovering t)
    (validationBuffer t) (validationLog t) (executionLog t) (errorLog t).

Definition set_calls (c : list Call) t : Tester W :=
  mkTester (world t) (driver t) c (retryCounts t) (totalTests t)
    (passedTests t) (failedTests t) (currentOperation t) (isRecovering t)
    (validationBuffer t) (validationLog t) (executionLog t) (errorLog t).

Definition set_retryCounts (r : gmap string nat) t : Tester W :=
  mkTester (world t) (driver t) (calls t) r (totalTests t)
    (passedTests t) (failedTests t) (currentOperation t) (isRecovering t)
    (validationBuffer t) (validationLog t) (executionLog t) (errorLog t).

Definition set_counters (total passed failed : nat) t : Tester W :=
  mkTester (world t) (driver t) (calls t) (retryCounts t) total
    passed failed (currentOperation t) (isRecovering t)
    (validationBuffer t) (validationLog t) (executionLog t) (errorLog t).

Definition set_currentOperation (o : option string) t : Tester W :=
  mkTester (world t) (driver t) (calls t) (retryCounts t) (totalTests t)
    (passedTests t) (failedTests t) o (isRecovering t)
    (validationBuffer t) (validationLog t) (executionLog t) (errorLog t).

Definition set_isRecovering (b : bool) t : Tester W :=
  mkTester (world t) (driver t) (calls t) (retryCounts t) (totalTests t)
    (passedTests t) (failedTests t) (currentOperation t) b
    (validationBuffer t) (validationLog t) (executionLog t) (errorLog t).

Definition set_validation (buf log : list Entry) t : Tester W :=
  mkTester (world t) (driver t) (calls t) (retryCounts t) (totalTests t)
    (passedTests t) (failedTests t) (currentOperation t) (isRecovering t)
    buf log (executionLog t) (errorLog t).

Definition set_executionLog (l : list string) t : Tester W :=
  mkTester (world t) (driver t) (calls t) (retryCounts t) (totalTests t)
    (passedTests t) (failedTests t) (currentOperation t) (isRecovering t)
    (validationBuffer t) (validationLog t) l (errorLog t).

Definition set_errorLog (l : list (string * string)) t : Tester W :=
  mkTester (world t) (driver t) (calls t) (retryCounts t) (totalTests t)
    (passedTests t) (failedTests t) (currentOperation t) (isRecovering t)
    (validationBuffer t) (validationLog t) (executionLog t) l.
End Setters.

(** [this.retryCounts[name] || 0] *)
Definition retryCount {W : Type} (name : string) (t : Tester W) : nat :=
  default 0 (retryCounts t !! name).

(** ** Logging *)

Section Logging.
Context {W : Type}.

(** [flushValidationBuffer]: nothing to do on an empty buffer, otherwise
    the buffered entries are appended to the file and the buffer is
    emptied. *)
Definition flushValidationBuffer (t : Tester W) : Tester W :=
  match validationBuffer t with
  | [] => t
  | buf => set_validation [] (validationLog t ++ buf) t
  end.

(** [captureValidation(msg, data, immediate)] *)
Definition captureValidation (msg : string) (immediate : bool)
    : M (Tester W) unit :=
  modify (fun t =>
    let buf := validationBuffer t ++ [mkEntry msg (currentOperation t)] in
    let t' := set_validation buf (validationLog t) t in
    if immediate || (50 <=? length buf)%nat then flushValidationBuffer t' else t').

Definition logExecution (msg : string) : M (Tester W) unit :=
  modify (fun t => set_executionLog (executionLog t ++ [msg]) t).

Definition logError (msg error : string) : M (Tester W) unit :=
  modify (fun t => set_errorLog (errorLog t ++ [(msg, error)]) t).
End Logging.
Arguments captureValidation : simpl never.

(** ** The driver layer *)

Record TileInfo : Type := mkTileInfo {
  ti_title : string;
  ti_href : string;
  ti_image : string
}.

Record NoResultsElement : Type := mkNoResultsElement {
  nre_text : string
}.

(** What the tile detection script returns. *)
Record TileData : Type := mkTileData {
  td_total : nat;
  td_visible : nat;
  td_hasNoResultsMessage : bool;
  td_noResultsElement : option NoResultsElement;
  td_noResultsType : option string;
  td_tileDetails : list TileInfo;
  td_strategiesUsed : string
}.

Record RecheckData : Type := mkRecheckData {
  allTilesCount : nat;
  hiddenTilesCount : nat;
  rc_hasNoResultsMessage : bool;
  rc_noResultsText : string
}.

Record NoResultsValidation : Type := mkNoResultsValidation {
  nr_found : bool;
  nr_isVisible : bool;
  nr_message : option string
}.

Record SortControls : Type := mkSortControls {
  sc_exists : bool;
  sc_count : nat
}.

(** The result of a sort-by validation, whether built by the tester or
    returned by the page script. *)
Record SortValidation : Type := mkSortValidation {
  sv_status : string;
  sv_reason : option string;
  sv_tilesToSort : nat;
  sv_sortControlsFound : nat;
  sv_currentSortStatus : option string;
  sv_canBeSorted : bool;
  sv_applicable : bool;
  sv_condition : option string
}.

(** The session: each field is one kind of call the tester makes on
    [this.driver], acting on the session's state [W]. *)
Record Driver (W : Type) : Type := mkDriver {
  drv_refresh : W -> outcome unit * W;
  drv_deleteAllCookies : W -> outcome unit * W;
  drv_exec : string -> W -> outcome unit * W;   (* a script with no result *)
  drv_quit : W -> outcome unit * W;
  drv_options : option Elem -> W -> outcome (list DOption) * W;
  drv_select : option Elem -> string -> W -> outcome bool * W;
  drv_verify : option Elem -> string -> W -> outcome bool * W;
  drv_detectTiles : W -> outcome TileData * W;
  drv_recheck : W -> outcome RecheckData * W;
  drv_noResults : W -> outcome NoResultsValidation * W;
  drv_sortControls : W -> outcome SortControls * W;
  drv_sortScript : W -> outcome SortValidation * W;
  (* what the page does while the tester waits [ms] milliseconds *)
  drv_elapse : Z -> W -> W
}.
Arguments drv_refresh {W}.
Arguments drv_deleteAllCookies {W}.
Arguments drv_exec {W}.
Arguments drv_quit {W}.
Arguments drv_options {W}.
Arguments drv_select {W}.
Arguments drv_verify {W}.
Arguments drv_detectTiles {W}.
Arguments drv_recheck {W}.
Arguments drv_noResults {W}.
Arguments drv_sortControls {W}.
Arguments drv_sortScript {W}.
Arguments drv_elapse {W}.

(** ** Strings, as the scripts use them *)

(** [s.includes(sub)] *)
Fixpoint includes (s sub : string) : bool :=
  if String.prefix sub s then true
  else match s with
       | EmptyString => false
       | String _ s' => includes s' sub
       end.

(** [s.toLowerCase()], on the letters A to Z. *)
Definition lower_ascii (c : Ascii.ascii) : Ascii.ascii :=
  let n := Ascii.nat_of_ascii c in
  if ((65 <=? n) && (n <=? 90))%nat then Ascii.ascii_of_nat (n + 32) else c.

Fixpoint toLowerCase (s : string) : string :=
  match s with
  | EmptyString => EmptyString
  | String c s' => String (lower_ascii c) (toLowerCase s')
  end.

(** [l.join(sep)] *)
Fixpoint join (sep : string) (l : list string) : string :=
  match l with
  | [] => EmptyString
  | [x] => x
  | x :: l' => x +:+ sep +:+ join sep l'
  end.

(** [a || b] on strings: the empty string is falsy. *)
Definition str_or (a b : string) : string :=
  match a with EmptyString => b | _ => a end.

Definition quote : string := String (Ascii.ascii_of_nat 34) EmptyString.

Definition canonicalNoResults : string :=
  "There are no items that match your choices.".

(** ** Results of one combination *)

(** An element of [result.options]: the classifier pushes
    [{dropdown, value, text}] for each dropdown it has re-verified; the
    enumerator's own failure record stores the option objects. *)
Inductive SelEntry : Type :=
| Verified (dropdown : string) (val : string) (txt : string)
| Raw (o : DOption).

Record TileCount : Type := mkTileCount {
  tc_total : nat;
  tc_visible : nat;
  tc_status : string;
  tc_strategies : string;
  tc_hasNoResultsMessage : bool;
  tc_noResultsText : string;
  tc_noResultsType : option string
}.

Record SortSummary : Type := mkSortSummary {
  ss_status : string;
  ss_tilesToSort : nat;
  ss_sortControlsFound : nat;
  ss_currentSortStatus : option string;
  ss_canBeSorted : bool;
  ss_details : option SortValidation;
  ss_applicable : bool;
  ss_condition : string
}.

(** Fields the enumerator's own failure record does not have are [None]. *)
Record CombinationResult : Type := mkResult {
  r_name : string;
  r_number : nat;
  r_options : list SelEntry;
  r_status : string;
  r_error : option string;
  r_tileCount : option TileCount;
  r_tileDetails : list TileInfo;
  r_sortByValidation : option SortSummary
}.

Definition set_options (o : list SelEntry) (r : CombinationResult) :=
  mkResult (r_name r) (r_number r) o (r_status r) (r_error r)
    (r_tileCount r) (r_tileDetails r) (r_sortByValidation r).

Definition set_status (st : string) (r : CombinationResult) :=
  mkResult (r_name r) (r_number r) (r_options r) st (r_error r)
    (r_tileCount r) (r_tileDetails r) (r_sortByValidation r).

Definition set_error (e : option string) (r : CombinationResult) :=
  mkResult (r_name r) (r_number r) (r_options r) (r_status r) e
    (r_tileCount r) (r_tileDetails r) (r_sortByValidation r).

Definition set_tileCount (tc : option TileCount) (r : CombinationResult) :=
  mkResult (r_name r) (r_number r) (r_options r) (r_status r) (r_error r)
    tc (r_tileDetails r) (r_sortByValidation r).

Definition set_tileDetails (d : list TileInfo) (r : CombinationResult) :=
  mkResult (r_name r) (r_number r) (r_options r) (r_status r) (r_error r)
    (r_tileCount r) d (r_sortByValidation r).

Definition set_sortByValidation (ss : option SortSummary) (r : CombinationResult) :=
  mkResult (r_name r) (r_number r) (r_options r) (r_status r) (r_error r)
    (r_tileCount r) (r_tileDetails r) ss.

(** [result.tileCount.status = st] *)
Definition set_tileStatus (st : string) (r : CombinationResult) :=
  set_tileCount
    (option_map (fun tc =>
       mkTileCount (tc_total tc) (tc_visible tc) st (tc_strategies tc)
         (tc_hasNoResultsMessage tc) (tc_noResultsText tc) (tc_noResultsType tc))
       (r_tileCount r)) r.

(** What [validateTileCount] returns. *)
Record TileValidation : Type := mkTileValidation {
  tv_total : nat;
  tv_visible : nat;
  tv_hasNoResultsMessage : bool;
  tv_noResultsElement : option NoResultsElement;
  tv_noResultsType : option string;
  tv_tileDetails : list TileInfo;
  tv_status : string;
  tv_strategies : string
}.

(** [this.maxRetries] *)
Module maxRetries.
Definition navigation : nat := 3.
Definition dropdownFinding : nat := 2.
Definition dropdownOptions : nat := 2.
Definition selection : nat := 2.
Definition verification : nat := 2.
Definition overall : nat := 3.
Definition stuckRecovery : nat := 2.
Definition tileValidation : nat := 2.
Definition sortByValidation : nat := 2.
End maxRetries.

(** ** Local variables next to the tester's state *)

Definition lift {L S A : Type} (m : M S A) : M (L * S) A :=
  fun ls => let (r, s') := m (snd ls) in (r, (fst ls, s')).

Definition local {L S : Type} (f : L -> L) : M (L * S) unit :=
  fun ls => (Ok tt, (f (fst ls), snd ls)).

Definition get_local {L S : Type} : M (L * S) L :=
  fun ls => (Ok (fst ls), ls).

(** Run [m] with a fresh local variable, initially [l0], and hand back
    its final contents when [m] returns. *)
Definition with_local {L S A : Type} (l0 : L) (m : M (L * S) A) : M S (A * L) :=
  fun s =>
    match m (l0, s) with
    | (Ok a, (l, s')) => (Ok (a, l), s')
    | (Throw msg, (_, s')) => (Throw msg, s')
    end.

(** [for (let i = start; ...; i++)] over the elements of [l], which are
    at the indices [start], [start + 1], ... *)
Fixpoint for_each {St A : Type} (body : nat -> A -> M St unit)
    (i : nat) (l : list A) : M St unit :=
  match l with
  | [] => ret tt
  | x :: l' => body i x >> for_each body (S i) l'
  end.

Section Engine.
Context {W : Type} (drv : Driver W).

#[local] Abbreviation T := (Tester W).

(** A call on [this.driver]: a [TypeError] when the driver is null,
    otherwise the call is recorded and acts on the session. *)
Definition drive {A : Type} (c : Call) (f : W -> outcome A * W) : M T A :=
  fun t =>
    if driver t then
      let (r, w) := f (world t) in
      (r, set_world w (set_calls (calls t ++ [c]) t))
    else (Throw "Cannot read properties of null", t).

(** [delay(ms)] *)
Definition delay (ms : Z) : M T unit :=
  modify (fun t => set_world (drv_elapse drv ms (world t)) t).

(** *** The retry executor *)

(** [performRecovery]: the recovery action keyed by the operation name,
    for the names the class gives to its operations. *)
Definition performRecovery (opName : string) : M T unit :=
  if decide (opName = "navigation") then
    drive CDeleteCookies (drv_deleteAllCookies drv)
  else if decide (opName = "dropdownFinding") then
    drive CRefresh (drv_refresh drv) >> delay 2000
  else delay 2000.

(** [Math.min(1000 * Math.pow(2, attempt - 1), 10000)]; the random
    jitter added to it is not modelled. *)
Definition backoff (attempt : nat) : Z :=
  Z.min (1000 * 2 ^ (Z.of_nat attempt - 1)) 10000.

Definition setRetryCount (opName : string) (n : nat) : M T unit :=
  modify (fun t => set_retryCounts (<[opName := n]> (retryCounts t)) t).

(** The line written to the execution log before each attempt. *)
Definition attemptLine (opName : string) (maxRetries attempt : nat) : string :=
  "Attempt " +:+ pretty attempt +:+ "/" +:+ pretty maxRetries +:+ ": " +:+ opName.

(** The rest of the [try] block once [opFn] has returned [result]; the
    loop is left with [result]. *)
Definition onSuccess {A : Type} (opName : string) (attempt : nat)
    (result : A) : M T (option A) :=
  when (1 <? attempt)%nat
    (captureValidation
       (opName +:+ " succeeded on attempt " +:+ pretty attempt) true) >>
  setRetryCount opName 0 >>
  ret (Some result).

(** The [catch] block; the loop goes on to the next attempt. *)
Definition onFailure {A : Type} (opName : string)
    (maxRetries attempt : nat) (error : string) : M T (option A) :=
  (let* n := gets (retryCount opName) in setRetryCount opName (n + 1)) >>
  logError (opName +:+ " failed attempt " +:+ pretty attempt) error >>
  when (attempt <? maxRetries)%nat
    (delay (backoff attempt) >> performRecovery opName) >>
  ret None.

(** The [for] loop of [executeWithRetry], from attempt [attempt] on,
    with [remaining = maxRetries + 1 - attempt] iterations left. *)
Fixpoint retryLoop {A : Type} (opName : string) (opFn : M T A)
    (maxRetries remaining attempt : nat) : M T A :=
  match remaining with
  | 0 =>
      throw (opName +:+ " failed after " +:+ pretty maxRetries +:+ " attempts")
  | S remaining' =>
      logExecution (attemptLine opName maxRetries attempt) >>
      let* r :=
        try_catch (let* result := opFn in onSuccess opName attempt result)
          (onFailure opName maxRetries attempt) in
      match r with
      | Some result => ret result
      | None => retryLoop opName opFn maxRetries remaining' (S attempt)
      end
  end.

Definition executeWithRetry {A : Type} (opName : string) (opFn : M T A)
    (maxRetries : nat) : M T A :=
  modify (set_currentOperation (Some opName)) >>
  retryLoop opName opFn maxRetries maxRetries 1.

(** *** Dropdown operations *)

Definition getDropdownOptions (el : option Elem) (index : nat)
    : M T (list DOption) :=
  executeWithRetry "dropdownOptions"
    (let* options := drive (COptions el) (drv_options drv el) in
     match options with
     | [] => throw ("No options for dropdown " +:+ pretty (index + 1))
     | _ =>
         captureValidation
           ("Dropdown " +:+ pretty (index + 1) +:+ " options") true >>
         ret options
     end)
    maxRetries.dropdownOptions.

Definition selectDropdownOption (el : option Elem) (option : DOption)
    (dropdownIndex : nat) : M T bool :=
  executeWithRetry "selection"
    (let* success :=
       drive (CSelect el (opt_value option))
             (drv_select drv el (opt_value option)) in
     if negb success then throw "Selection failed"
     else
       delay 800 >>
       let* verified :=
         drive (CVerify el (opt_value option))
               (drv_verify drv el (opt_value option)) in
       if negb verified then throw "Verification failed"
       else captureValidation "Selected option" true >> ret true)
    maxRetries.selection.

(** [opts.find(opt => opt.value === '') || opts[0]] *)
Definition defaultOption (opts : list DOption) : option DOption :=
  match List.find (fun o => String.eqb (opt_value o) EmptyString) opts with
  | Some o => Some o
  | None => head opts
  end.

(** The body of the loop of [resetNextDropdowns]. *)
Definition resetDropdown (i : nat) (el : Elem) : M T unit :=
  try_catch
    (let* opts := getDropdownOptions (Some el) i in
     match defaultOption opts with
     | Some defaultOpt =>
         selectDropdownOption (Some el) defaultOpt i >> ret tt
     | None => ret tt                 (* [opts.length > 0] fails *)
     end)
    (fun _ => ret tt).

Definition resetNextDropdowns (dropdownElements : list Elem)
    (startIdx : nat) : M T unit :=
  for_each resetDropdown startIdx (drop startIdx dropdownElements).

(** *** Observation of the page *)

Definition scrollToTop : string := "window.scrollTo(0, 0);".

Definition detectTilesOnNationwidePage : M T TileData :=
  try_catch (drive CDetectTiles (drv_detectTiles drv))
    (fun error =>
       logError "Nationwide tile detection failed" error >>
       ret (mkTileData 0 0 false None None [] ("Error: " +:+ error))).

Definition validateNoResultsMessage : M T NoResultsValidation :=
  try_catch (drive CNoResults (drv_noResults drv))
    (fun error =>
       logError "Error validating no results message" error >>
       ret (mkNoResultsValidation false false None)).

Definition elementText (e : option NoResultsElement) : string :=
  match e with Some e => nre_text e | None => EmptyString end.

Definition validateTileCount (comboNumber : nat) : M T TileValidation :=
  executeWithRetry "tileValidation"
    (modify (set_currentOperation (Some "tileValidation")) >>
     delay 2500 >>
     drive (CExec scrollToTop) (drv_exec drv scrollToTop) >>
     delay 500 >>
     let* tileData := detectTilesOnNationwidePage in
     let* tileData :=
       if td_hasNoResultsMessage tileData && (0 <? td_total tileData)%nat
          && (td_visible tileData =? 0)%nat
       then
         let* recheckData := drive CRecheck (drv_recheck drv) in
         captureValidation
           ("Re-check for combo " +:+ pretty comboNumber +:+
            " (no results scenario)") false >>
         if (0 <? hiddenTilesCount recheckData)%nat then
           ret (mkTileData (allTilesCount recheckData) 0
                  (rc_hasNoResultsMessage recheckData)
                  (Some (mkNoResultsElement
                           (str_or (rc_noResultsText recheckData)
                              (elementText (td_noResultsElement tileData)))))
                  (td_noResultsType tileData) (td_tileDetails tileData)
                  (td_strategiesUsed tileData))
         else ret tileData
       else ret tileData in
     captureValidation
       ("Tile detection for combo " +:+ pretty comboNumber) false >>
     let tileStatus :=
       if (0 <? td_visible tileData)%nat then "VALIDATED"
       else if td_hasNoResultsMessage tileData then "NO_TILES_WITH_MESSAGE"
       else "NO_VISIBLE_TILES" in
     ret (mkTileValidation (td_total tileData) (td_visible tileData)
            (td_hasNoResultsMessage tileData) (td_noResultsElement tileData)
            (td_noResultsType tileData) (td_tileDetails tileData)
            tileStatus (td_strategiesUsed tileData)))
    maxRetries.tileValidation.

(** *** Sort-by validation *)

Definition isProblematicCombo (selection : list DOption) : bool :=
  let selectionTexts := toLowerCase (join "|" (map opt_text selection)) in
  includes selectionTexts "quick tips" ||
  includes selectionTexts "videos" ||
  (includes selectionTexts "clients" && includes selectionTexts "quick tips") ||
  (includes selectionTexts "financial professionals" &&
     includes selectionTexts "quick tips") ||
  (includes selectionTexts "financial professionals" &&
     includes selectionTexts "videos").

Definition insufficientTilesReason : string :=
  "Insufficient tiles for sort validation (need at least 2 tiles)".

Definition validateSortByForVisibleTiles (comboNumber : nat)
    (selection : list DOption) (tileData : TileValidation)
    : M T SortValidation :=
  executeWithRetry "sortByValidation"
    (modify (set_currentOperation (Some "sortByValidation")) >>
     let* early :=
       if tv_hasNoResultsMessage tileData && (tv_visible tileData =? 0)%nat
       then
         let* noResultsValidation := validateNoResultsMessage in
         if nr_found noResultsValidation && nr_isVisible noResultsValidation
         then
           ret (Some (mkSortValidation "VALIDATED_WITH_NO_RESULTS"
                  (Some ("No tiles found with " +:+ quote +:+ "no results" +:+
                         quote +:+ " message properly displayed"))
                  0 0 None false false
                  (Some ("No tiles to sort (valid " +:+ quote +:+ "no results" +:+
                         quote +:+ " message displayed)"))))
         else ret None
       else ret None in
     match early with
     | Some r => ret r
     | None =>
         if isProblematicCombo selection && (tv_visible tileData =? 0)%nat
         then
           validateNoResultsMessage >>
           ret (mkSortValidation "VALIDATED_NO_TILES"
                  (Some "Expected no tiles for this combination")
                  0 0 None false false
                  (Some "No tiles to sort (known problematic combination)"))
         else if (tv_visible tileData <? 2)%nat then
           ret (mkSortValidation "NOT_APPLICABLE"
                  (Some insufficientTilesReason)
                  (tv_visible tileData) 0 None false false
                  (Some "Insufficient tiles (< 2) for sort validation"))
         else
           delay 1000 >>
           let* sortControlsExist :=
             drive CSortControls (drv_sortControls drv) in
           if negb (sc_exists sortControlsExist) then
             ret (mkSortValidation "NOT_APPLICABLE"
                    (Some "No sort controls found on page")
                    (tv_visible tileData) 0 None false false
                    (Some "No sort controls available on page"))
           else
             (* the page script that compares the order of the titles *)
             let* sortValidationResult :=
               drive CSortScript (drv_sortScript drv) in
             captureValidation
               ("Sort-by validation for combo " +:+ pretty comboNumber)
               false >>
             ret sortValidationResult
     end)
    maxRetries.sortByValidation.

(** *** The classifier *)

Definition initialResult (comboNumber : nat) : CombinationResult :=
  mkResult ("Combo " +:+ pretty comboNumber) comboNumber [] "PASSED" None
    (Some (mkTileCount 0 0 "NOT_VALIDATED" EmptyString false EmptyString None))
    []
    (Some (mkSortSummary "NOT_APPLICABLE" 0 0 None false None false
             "Not evaluated yet")).

(** [this.totalTests++], [this.passedTests++], [this.failedTests++] *)
Definition incTotal : M T unit :=
  modify (fun t =>
    set_counters (totalTests t + 1) (passedTests t) (failedTests t) t).
Definition incPassed : M T unit :=
  modify (fun t =>
    set_counters (totalTests t) (passedTests t + 1) (failedTests t) t).
Definition incFailed : M T unit :=
  modify (fun t =>
    set_counters (totalTests t) (passedTests t) (failedTests t + 1) t).

(** Step 1 of [testSingleCombination]: every dropdown of the selection is
    read back and compared with its assigned value.  [verifySelection] is
    the body of the loop. *)
Definition verifySelection (dropdownElements : list Elem) (i : nat)
    (sel_i : DOption) : M (CombinationResult * T) unit :=
  let* verified :=
    lift (drive (CVerify (dropdownElements !! i) (opt_value sel_i))
            (drv_verify drv (dropdownElements !! i) (opt_value sel_i))) in
  if negb verified then
    throw ("Verification failed for dropdown " +:+ pretty (i + 1) +:+
           ". Expected: " +:+ opt_value sel_i)
  else
    local (fun r =>
      set_options
        (r_options r ++
         [Verified ("Dropdown " +:+ pretty (i + 1))
            (opt_value sel_i) (opt_text sel_i)]) r).

Definition verifySelections (selection : list DOption)
    (dropdownElements : list Elem) : M (CombinationResult * T) unit :=
  for_each (verifySelection dropdownElements) 0 selection.

(** Step 4 of [testSingleCombination]: the verdict from the observation. *)
Definition classify (comboNumber : nat) (tileValidation : TileValidation)
    : M (CombinationResult * T) unit :=
  let hasVisibleTiles := (0 <? tv_visible tileValidation)%nat in
  let hasNoResultsMessage := tv_hasNoResultsMessage tileValidation in
  let hasCorrectNoResultsMessage :=
    hasNoResultsMessage &&
    match tv_noResultsElement tileValidation with
    | Some e => includes (nre_text e) canonicalNoResults
    | None => false
    end in
  let noResultsText := elementText (tv_noResultsElement tileValidation) in
  if hasVisibleTiles then
    local (fun r => set_error None (set_tileStatus "VALIDATED"
                                      (set_status "PASSED" r))) >>
    lift (incTotal >> incPassed) >>
    lift (captureValidation
            ("Combo " +:+ pretty comboNumber +:+ ": " +:+
             pretty (tv_visible tileValidation) +:+ " visible tiles found")
            true)
  else if hasCorrectNoResultsMessage then
    local (fun r =>
      set_error
        (Some ("Expected behavior: " +:+ quote +:+
               String.substring 0 100 noResultsText +:+ "..." +:+ quote))
        (set_tileStatus "VALIDATED_WITH_NO_RESULTS" (set_status "PASSED" r))) >>
    lift (incTotal >> incPassed) >>
    lift (captureValidation
            ("Combo " +:+ pretty comboNumber +:+ ": Valid " +:+ quote +:+
             "no results" +:+ quote +:+ " message found") true)
  else if hasNoResultsMessage then
    local (fun r =>
      set_error
        (Some ("No visible tiles but message is not the expected one: " +:+
               quote +:+ String.substring 0 100 noResultsText +:+ "..." +:+
               quote))
        (set_tileStatus "HAS_MESSAGE_BUT_NOT_EXPECTED"
           (set_status "PASSED" r))) >>
    lift (incTotal >> incPassed) >>
    lift (captureValidation
            ("Combo " +:+ pretty comboNumber +:+ ": Different " +:+ quote +:+
             "no results" +:+ quote +:+ " message found") true)
  else
    local (fun r =>
      set_error
        (Some "Expected: No visible tiles found for this combination")
        (set_tileStatus "NO_VISIBLE_TILES" (set_status "PASSED" r))) >>
    lift (incTotal >> incPassed) >>
    lift (captureValidation
            ("Combo " +:+ pretty comboNumber +:+
             ": No visible tiles (expected behavior)") true).

(** Steps 1 to 3 of [testSingleCombination]: re-verification, tile
    observation and sort-by validation, each recorded in [result]. *)
Definition observe (selection : list DOption)
    (dropdownElements : list Elem) (comboNumber : nat)
    : M (CombinationResult * T) TileValidation :=
  verifySelections selection dropdownElements >>
  let* tileValidation := lift (validateTileCount comboNumber) in
  local (set_tileCount
           (Some (mkTileCount (tv_total tileValidation)
                    (tv_visible tileValidation)
                    (tv_status tileValidation)
                    (tv_strategies tileValidation)
                    (tv_hasNoResultsMessage tileValidation)
                    (elementText (tv_noResultsElement tileValidation))
                    (tv_noResultsType tileValidation)))) >>
  local (set_tileDetails (tv_tileDetails tileValidation)) >>
  let* sortValidation :=
    lift (validateSortByForVisibleTiles comboNumber selection
            tileValidation) in
  local (set_sortByValidation
           (Some (mkSortSummary (sv_status sortValidation)
                    (tv_visible tileValidation)
                    (sv_sortControlsFound sortValidation)
                    (sv_currentSortStatus sortValidation)
                    (sv_canBeSorted sortValidation)
                    (Some sortValidation)
                    (sv_applicable sortValidation)
                    (default "Not evaluated" (sv_condition sortValidation))))) >>
  ret tileValidation.

(** The [catch] block of [testSingleCombination]. *)
Definition recordFailure (comboNumber : nat) (error : string)
    : M (CombinationResult * T) unit :=
  local (fun r =>
    set_tileStatus "ERROR" (set_error (Some error) (set_status "FAILED" r))) >>
  lift (incTotal >> incFailed) >>
  lift (captureValidation
          ("Combo " +:+ pretty comboNumber +:+ " failed") true).

Definition testSingleCombination (selection : list DOption)
    (dropdownElements : list Elem) (comboNumber : nat)
    : M T CombinationResult :=
  let* r :=
    with_local (initialResult comboNumber)
      (try_catch
         (let* tileValidation :=
            observe selection dropdownElements comboNumber in
          classify comboNumber tileValidation >>
          lift (captureValidation
                  ("Combo " +:+ pretty comboNumber +:+ " validation result")
                  false))
         (recordFailure comboNumber)) in
  ret (snd r).

(** *** The enumerator *)

(** The record pushed when [selectDropdownOption] yields a falsy value. *)
Definition selectionFailure (number : nat) (newSelection : list DOption)
    (opt : DOption) (idx : nat) : CombinationResult :=
  mkResult ("Combo " +:+ pretty number) number (map Raw newSelection)
    "FAILED"
    (Some ("Failed to select " +:+ quote +:+ opt_text opt +:+ quote +:+
           " in dropdown " +:+ pretty (idx + 1)))
    None [] None.

(** The body of the [for] loop of [testCombosRecursive], for the option
    [opt] at position [i] of dropdown [idx]; [subtree] is the recursive
    call on the next dropdown. *)
Definition tryOption (subtree : list DOption -> M (list CombinationResult * T) unit)
    (dropdownElements : list Elem) (optionsArray : list (list DOption))
    (idx : nat) (currentSelection : list DOption) (i : nat) (opt : DOption)
    : M (list CombinationResult * T) unit :=
  let opts := default [] (optionsArray !! idx) in
  let newSelection := currentSelection ++ [opt] in
  let* selected :=
    lift (selectDropdownOption (dropdownElements !! idx) opt idx) in
  if selected then
    subtree newSelection >>
    when ((i <? length opts - 1)%nat && (idx <? length optionsArray - 1)%nat)
      (lift (resetNextDropdowns dropdownElements (idx + 1)))
  else
    local (fun results =>
      results ++
      [selectionFailure (length results + 1) newSelection opt idx]).

(** [testCombosRecursive], with the array [results] as a local variable
    shared by all the calls.  [fuel] bounds the depth of the recursion; a
    call at [idx] needs [length optionsArray - idx]. *)
Fixpoint testCombos (fuel : nat) (dropdownElements : list Elem)
    (optionsArray : list (list DOption)) (idx : nat)
    (currentSelection : list DOption)
    : M (list CombinationResult * T) unit :=
  if (length optionsArray <=? idx)%nat then
    let* results := get_local in
    let* result :=
      lift (testSingleCombination currentSelection dropdownElements
              (length results + 1)) in
    local (fun results => results ++ [result])
  else
    match fuel with
    | 0 => ret tt
    | S fuel' =>
        for_each
          (tryOption (testCombos fuel' dropdownElements optionsArray (idx + 1))
             dropdownElements optionsArray idx currentSelection)
          0 (default [] (optionsArray !! idx))
    end.

Definition testCombosRecursive (dropdownElements : list Elem)
    (optionsArray : list (list DOption)) (idx : nat)
    (currentSelection : list DOption)
    : M (list CombinationResult * T) unit :=
  testCombos (length optionsArray - idx) dropdownElements optionsArray idx
    currentSelection.

(** [dropdownOptions.reduce((t, opts) => t * opts.length, 1)] *)
Definition totalCombos (dropdownOptions : list (list DOption)) : nat :=
  fold_left (fun t opts => t * length opts) dropdownOptions 1.

(** The loop of [testAllCombinations] that collects the option sets;
    [collectDropdown] is its body. *)
Definition collectDropdown (i : nat) (el : Elem)
    : M (list (list DOption) * T) unit :=
  let* opts := lift (getDropdownOptions (Some el) i) in
  match opts with
  | [] => throw ("Dropdown " +:+ pretty (i + 1) +:+ " has no options")
  | _ => local (fun dropdownOptions => dropdownOptions ++ [opts])
  end.

Definition collectOptions (dropdownElements : list Elem)
    : M (list (list DOption) * T) unit :=
  for_each collectDropdown 0 dropdownElements.

Definition testAllCombinations (dropdownElements : list Elem)
    : M T (list CombinationResult) :=
  executeWithRetry "testAllCombinations"
    (match dropdownElements with
     | [] => throw "No dropdowns"
     | _ =>
         let* collected := with_local [] (collectOptions dropdownElements) in
         let dropdownOptions := snd collected in
         captureValidation
           ("Testing " +:+ pretty (totalCombos dropdownOptions) +:+
            " combinations") true >>
         let* tested :=
           with_local []
             (testCombosRecursive dropdownElements dropdownOptions 0 []) in
         captureValidation "Combinations tested" true >>
         ret (snd tested)
     end)
    maxRetries.overall.

(** *** Stuck detection and recovery *)

Definition hardRestart : M T unit :=
  captureValidation "INITIATING HARD RESTART" true >>
  modify flushValidationBuffer >>
  (let* present := gets driver in
   when present
     (try_catch (drive CQuit (drv_quit drv)) (fun _ => ret tt))) >>
  captureValidation "Restart complete" true.

(** [this.currentOperation?.includes(sub)] *)
Definition operationIncludes (sub : string) (t : T) : bool :=
  match currentOperation t with
  | Some op => includes op sub
  | None => false
  end.

(** The [try] block of [recoverFromStuckState]: the soft recovery. *)
Definition softRecovery : M T unit :=
  (let* nav := gets (operationIncludes "navigation") in
   if (nav : bool) then drive CRefresh (drv_refresh drv)
   else
     let* dd := gets (operationIncludes "dropdown") in
     if (dd : bool) then
       drive (CExec scrollToTop) (drv_exec drv scrollToTop)
     else ret tt) >>
  delay 2000 >>
  captureValidation "Recovery successful" true.

(** What [recoverFromStuckState] does before it enters the [try] block. *)
Definition beginRecovery : M T unit :=
  modify (set_isRecovering true) >>
  (let* n := gets (retryCount "stuckRecovery") in
   setRetryCount "stuckRecovery" (n + 1)) >>
  captureValidation "Attempting stuck recovery" true.

Definition recoverFromStuckState : M T unit :=
  let* recovering := gets isRecovering in
  if (recovering : bool) then ret tt
  else
    beginRecovery >>
    try_finally
      (try_catch softRecovery
         (fun _ =>
            captureValidation "Recovery failed" true >>
            let* n := gets (retryCount "stuckRecovery") in
            when (maxRetries.stuckRecovery <=? n)%nat hardRestart))
      (set_isRecovering false).

End Engine.

(** ** The retry executor of [dropdown-validator3.js] *)

Module V3.
Section Engine.
Context {W : Type} (drv : Driver W).

#[local] Abbreviation T := (Tester W).

(** [logValidation] appends to the validation log at once. *)
Definition logValidation (msg : string) : M T unit :=
  modify (fun t =>
    set_validation (validationBuffer t)
      (validationLog t ++ [mkEntry msg None]) t).

Definition performRecovery (operationName : string) (attempt : nat)
    : M T unit :=
  if decide (operationName = "navigation") then
    try_catch
      (drive CDeleteCookies (drv_deleteAllCookies drv) >>
       drive (CExec "window.localStorage.clear();")
             (drv_exec drv "window.localStorage.clear();") >>
       drive (CExec "window.sessionStorage.clear();")
             (drv_exec drv "window.sessionStorage.clear();") >>
       logExecution ("Cleared browser storage for navigation recovery attempt "
                     +:+ pretty attempt))
      (fun _ => ret tt)                       (* ignore cleanup errors *)
  else if decide (operationName = "dropdownFinding") then
    try_catch
      (drive CRefresh (drv_refresh drv) >>
       delay drv 2000 >>
       logExecution ("Refreshed page for dropdown finding recovery attempt "
                     +:+ pretty attempt))
      (fun _ => ret tt)                       (* ignore refresh errors *)
  else if decide (operationName = "dropdownOptions" \/
                  operationName = "selection" \/
                  operationName = "verification") then
    delay drv 2000 >>
    logExecution ("Extended wait for " +:+ operationName +:+
                  " recovery attempt " +:+ pretty attempt)
  else delay drv 1000.

(** [if (this.retryCounts[name]) ...]: the stored count is truthy. *)
Definition tracked (operationName : string) (t : T) : bool :=
  (0 <? retryCount operationName t)%nat.

Fixpoint retryLoop {A : Type} (operationName : string) (operationFn : M T A)
    (maxRetries remaining attempt : nat) (lastError : option string)
    : M T A :=
  match remaining with
  | 0 =>
      throw ("Operation " +:+ operationName +:+ " failed after " +:+
             pretty maxRetries +:+ " attempts: " +:+
             default "Unknown error" lastError)
  | S remaining' =>
      logExecution ("Attempt " +:+ pretty attempt +:+ "/" +:+
                    pretty maxRetries +:+ " for operation: " +:+
                    operationName) >>
      let* r :=
        try_catch
          (let* result := operationFn in
           when (1 <? attempt)%nat
             (logValidation ("Operation " +:+ operationName +:+
                             " succeeded on attempt " +:+ pretty attempt)) >>
           (* reset retry count for this operation on success *)
           (let* tr := gets (tracked operationName) in
            when tr (setRetryCount operationName 0)) >>
           ret (inl result))
          (fun error =>
             logError ("Operation " +:+ operationName +:+
                       " failed on attempt " +:+ pretty attempt) error >>
             (* increment retry count *)
             (let* tr := gets (tracked operationName) in
              when tr
                (let* n := gets (retryCount operationName) in
                 setRetryCount operationName (n + 1))) >>
             when (attempt <? maxRetries)%nat
               (delay drv (backoff attempt) >>
                logExecution ("Waiting before retry " +:+ pretty (attempt + 1)
                              +:+ " for " +:+ operationName) >>
                performRecovery operationName attempt) >>
             ret (inr error)) in
      match r with
      | inl result => ret result
      | inr error =>
          retryLoop operationName operationFn maxRetries remaining'
            (S attempt) (Some error)
      end
  end.

Definition executeWithRetry {A : Type} (operationName : string)
    (operationFn : M T A) (maxRetries : nat) : M T A :=
  retryLoop operationName operationFn maxRetries maxRetries 1 None.
End Engine.
End V3.

(** ** Pages to run the tester on *)

Module Pages.

(** The tester as its constructor leaves it, on a session in state [w]. *)
Definition fresh {W : Type} (w : W) : Tester W :=
  mkTester w true []
    (list_to_map
       [("navigation", 0); ("dropdownFinding", 0); ("dropdownOptions", 0);
        ("selection", 0); ("verification", 0); ("stuckRecovery", 0);
        ("tileValidation", 0); ("sortByValidation", 0)])
    0 0 0 None false [] [] [] [].

Definition noTiles : TileData :=
  mkTileData 0 0 false None None [] "no strategies worked".

(** A page of dropdowns: the session state holds the current value of
    each dropdown.  [optsOf] gives the options of a dropdown, [onSelect]
    what setting a value does to the page ([None]: the control is not
    found), [tiles] what the page shows for the current values and
    [cookies] whether the cookies can be deleted. *)
Definition page (optsOf : Elem -> list DOption)
    (onSelect : Elem -> string -> gmap nat string -> option (gmap nat string))
    (tiles : gmap nat string -> TileData) (cookies : bool)
    : Driver (gmap nat string) :=
  {| drv_refresh := fun w => (Ok tt, w);
     drv_deleteAllCookies := fun w =>
       if cookies then (Ok tt, w) else (Throw "invalid session id", w);
     drv_exec := fun _ w => (Ok tt, w);
     drv_quit := fun w => (Ok tt, w);
     drv_options := fun el w =>
       match el with
       | Some el => (Ok (optsOf el), w)
       | None => (Throw "Cannot read properties of undefined", w)
       end;
     drv_select := fun el v w =>
       match el with
       | Some el =>
           match onSelect el v w with
           | Some w' => (Ok true, w')
           | None => (Ok false, w)
           end
       | None => (Throw "Cannot read properties of undefined", w)
       end;
     drv_verify := fun el v w =>
       match el with
       | Some el => (Ok (bool_decide (w !! el = Some v)), w)
       | None => (Throw "Cannot read properties of undefined", w)
       end;
     drv_detectTiles := fun w => (Ok (tiles w), w);
     drv_recheck := fun w => (Ok (mkRecheckData 0 0 false EmptyString), w);
     drv_noResults := fun w => (Ok (mkNoResultsValidation false false None), w);
     drv_sortControls := fun w => (Ok (mkSortControls false 0), w);
     drv_sortScript := fun w =>
       (Ok (mkSortValidation "NOT_APPLICABLE" None 0 0 None false false None), w);
     drv_elapse := fun _ w => w |}.

(** The values of the dropdowns 0, 1, ... *)
Definition values (l : list string) : gmap nat string := map_seq 0 l.

(** Setting a value changes that dropdown and nothing else. *)
Definition plainSelect (el : Elem) (v : string) (w : gmap nat string)
    : option (gmap nat string) :=
  Some (<[el := v]> w).

(** A page whose second dropdown clears the first whenever it changes. *)
Definition revertingSelect (el : Elem) (v : string) (w : gmap nat string)
    : option (gmap nat string) :=
  if decide (el = 1) then Some (<[0 := EmptyString]> (<[el := v]> w))
  else Some (<[el := v]> w).

(** A page whose dropdowns do not go back to the empty value: setting it
    leaves the dropdown as it was. *)
Definition stickySelect (el : Elem) (v : string) (w : gmap nat string)
    : option (gmap nat string) :=
  if decide (v = EmptyString) then Some w else Some (<[el := v]> w).

(** A page whose dropdowns do not take the value [a]. *)
Definition refusingSelect (el : Elem) (v : string) (w : gmap nat string)
    : option (gmap nat string) :=
  if decide (v = "a") then Some w else Some (<[el := v]> w).

Definition optA : DOption := mkOption "a" "A" 0.
Definition optB : DOption := mkOption "b" "B" 1.
Definition optX : DOption := mkOption "x" "X" 0.
Definition optY : DOption := mkOption "y" "Y" 1.
Definition optZ : DOption := mkOption "z" "Z" 2.
Definition optAll : DOption := mkOption EmptyString "All" 0.

Definition twoDropdowns (el : Elem) : list DOption :=
  match el with
  | 0 => [optA; optB]
  | _ => [optAll; optX; optY]
  end.

(** No tile, and the canonical sentence in a notification. *)
Definition noTilesWithMessage : TileData :=
  mkTileData 0 0 true (Some (mkNoResultsElement canonicalNoResults))
    (Some "bolt-notification") [] "no strategies worked".

(** An observation of exactly one visible tile. *)
Definition oneTile : TileValidation :=
  mkTileValidation 1 1 false None None [mkTileInfo "Retirement" "/r" "r.png"]
    "VALIDATED" "bolt-tile direct".

(** The two-dropdown page, showing nothing whatever is selected, with
    and without the canonical message. *)
Definition emptyPage : Driver (gmap nat string) :=
  page twoDropdowns plainSelect (fun _ => noTiles) true.
Definition messagePage : Driver (gmap nat string) :=
  page twoDropdowns plainSelect (fun _ => noTilesWithMessage) true.
Definition revertingPage : Driver (gmap nat string) :=
  page twoDropdowns revertingSelect (fun _ => noTiles) true.
Definition stickyPage : Driver (gmap nat string) :=
  page twoDropdowns stickySelect (fun _ => noTiles) true.
Definition refusingPage : Driver (gmap nat string) :=
  page twoDropdowns refusingSelect (fun _ => noTiles) true.

(** A session whose state counts the invocations of an operation. *)
Definition counting (cookies : bool) : Driver nat :=
  {| drv_refresh := fun w => (Ok tt, w);
     drv_deleteAllCookies := fun w =>
       if cookies then (Ok tt, w) else (Throw "invalid session id", w);
     drv_exec := fun _ w => (Ok tt, w);
     drv_quit := fun w => (Ok tt, w);
     drv_options := fun _ w => (Ok [], w);
     drv_select := fun _ _ w => (Ok true, w);
     drv_verify := fun _ _ w => (Ok true, w);
     drv_detectTiles := fun w => (Ok noTiles, w);
     drv_recheck := fun w => (Ok (mkRecheckData 0 0 false EmptyString), w);
     drv_noResults := fun w => (Ok (mkNoResultsValidation false false None), w);
     drv_sortControls := fun w => (Ok (mkSortControls false 0), w);
     drv_sortScript := fun w =>
       (Ok (mkSortValidation "NOT_APPLICABLE" None 0 0 None false false None), w);
     drv_elapse := fun _ w => w |}.

(** A session that no longer answers: every call on the page times out;
    quitting it still works. *)
Definition hung : Driver nat :=
  {| drv_refresh := fun w => (Throw "timeout", w);
     drv_deleteAllCookies := fun w => (Throw "timeout", w);
     drv_exec := fun _ w => (Throw "timeout", w);
     drv_quit := fun w => (Ok tt, w);
     drv_options := fun _ w => (Throw "timeout", w);
     drv_select := fun _ _ w => (Throw "timeout", w);
     drv_verify := fun _ _ w => (Throw "timeout", w);
     drv_detectTiles := fun w => (Throw "timeout", w);
     drv_recheck := fun w => (Throw "timeout", w);
     drv_noResults := fun w => (Throw "timeout", w);
     drv_sortControls := fun w => (Throw "timeout", w);
     drv_sortScript := fun w => (Throw "timeout", w);
     drv_elapse := fun _ w => w |}.

(** A tester in the middle of a navigation, after [n] stuck recoveries. *)
Definition navigating (n : nat) : Tester nat :=
  set_currentOperation (Some "navigation")
    (set_retryCounts (<["stuckRecovery" := n]> (retryCounts (fresh 0)))
       (fresh 0)).

(** An operation that fails on every invocation. *)
Definition alwaysFails : M (Tester nat) nat :=
  fun t => (Throw "timeout", set_world (S (world t)) t).

(** An operation that fails on its first [k] invocations and then
    returns [v]. *)
Definition flaky (k v : nat) : M (Tester nat) nat :=
  fun t =>
    (if (world t <? k)%nat then Throw "timeout" else Ok v,
     set_world (S (world t)) t).

End Pages.

(** * Notions used in the statements *)

(** A computation leaves an observation [f] of the state as it found it. *)
Definition Preserves {St A X : Type} (f : St -> X) (m : M St A) : Prop :=
  forall s, f (snd (m s)) = f s.

(** An observation of the tester that the bookkeeping of the engine (the
    session, the record of calls, the retry counts, the current operation
    and the logs) does not change. *)
Class Frame {W X : Type} (f : Tester W -> X) : Prop := {
  frame_world : forall w t, f (set_world w t) = f t;
  frame_calls : forall c t, f (set_calls c t) = f t;
  frame_retryCounts : forall r t, f (set_retryCounts r t) = f t;
  frame_currentOperation : forall o t, f (set_currentOperation o t) = f t;
  frame_validation : forall b l t, f (set_validation b l t) = f t;
  frame_executionLog : forall l t, f (set_executionLog l t) = f t;
  frame_errorLog : forall l t, f (set_errorLog l t) = f t
}.

(** The three run-wide counters. *)
Definition counters {W : Type} (t : Tester W) : nat * nat * nat :=
  (totalTests t, passedTests t, failedTests t).

(** [result.tileCount?.status] *)
Definition tileStatus (r : CombinationResult) : option string :=
  option_map tc_status (r_tileCount r).

(** The tile status the classifier stores for an observation. *)
Definition tileVerdict (tv : TileValidation) : string :=
  if (0 <? tv_visible tv)%nat then "VALIDATED"
  else if tv_hasNoResultsMessage tv &&
          includes (elementText (tv_noResultsElement tv)) canonicalNoResults
  then "VALIDATED_WITH_NO_RESULTS"
  else if tv_hasNoResultsMessage tv then "HAS_MESSAGE_BUT_NOT_EXPECTED"
  else "NO_VISIBLE_TILES".

(** The verdicts of the specification.  The class has no such
    enumeration: a result carries [status], which is PASSED or FAILED, and
    [tileCount.status], which tells the passing outcomes apart. *)
Inductive Verdict : Type :=
| PASSED
| PASSED_NO_RESULTS_EXPECTED
| PASSED_AMBIGUOUS_MESSAGE
| PASSED_NO_VISIBLE_TILES
| FAILED.

Definition verdict_of (r : CombinationResult) : option Verdict :=
  if String.eqb (r_status r) "FAILED" then Some FAILED
  else if negb (String.eqb (r_status r) "PASSED") then None
  else
    match tileStatus r with
    | Some st =>
        if String.eqb st "VALIDATED" then Some PASSED
        else if String.eqb st "VALIDATED_WITH_NO_RESULTS"
        then Some PASSED_NO_RESULTS_EXPECTED
        else if String.eqb st "HAS_MESSAGE_BUT_NOT_EXPECTED"
        then Some PASSED_AMBIGUOUS_MESSAGE
        else if String.eqb st "NO_VISIBLE_TILES"
        then Some PASSED_NO_VISIBLE_TILES
        else None
    | None => None
    end.

(** The combinations of one option per dropdown, in the order in which a
    depth-first traversal, left to right, meets them. *)
Fixpoint cartesian {A : Type} (ls : list (list A)) : list (list A) :=
  match ls with
  | [] => [[]]
  | opts :: rest => flat_map (fun o => map (cons o) (cartesian rest)) opts
  end.

(** What the classifier records in [result.options] for a selection whose
    first option belongs to the dropdown of index [k]. *)
Fixpoint recordedFrom (k : nat) (selection : list DOption) : list SelEntry :=
  match selection with
  | [] => []
  | o :: selection' =>
      Verified ("Dropdown " +:+ pretty (k + 1)) (opt_value o) (opt_text o)
      :: recordedFrom (S k) selection'
  end.

Definition recorded (selection : list DOption) : list SelEntry :=
  recordedFrom 0 selection.

(** [r] is what the classifier returns for [selection]: a passing result
    records the whole selection, a failed one the dropdowns that were
    re-verified before the failure. *)
Definition Classified (selection : list DOption) (r : CombinationResult) : Prop :=
  (r_status r = "PASSED" /\ r_options r = recorded selection) \/
  (r_status r = "FAILED" /\ r_options r `prefix_of` recorded selection).

(** Every call of [selectDropdownOption] on one of the first [n] dropdowns
    of a live session succeeds. *)
Definition SelectionsSucceed {W : Type} (drv : Driver W) (els : list Elem)
    (n : nat) : Prop :=
  forall idx o (t : Tester W),
    idx < n -> driver t = true ->
    exists t', selectDropdownOption drv (els !! idx) o idx t = (Ok true, t').

(** A page that answers: the options of a dropdown can be extracted and
    are [optsOf], a value can be set, and reads back once it has been set. *)
Definition Responsive {W : Type} (drv : Driver W) (optsOf : Elem -> list DOption)
    : Prop :=
  (forall el w, exists w', drv_options drv (Some el) w = (Ok (optsOf el), w')) /\
  (forall el v w,
     exists w1 w2,
       drv_select drv (Some el) v w = (Ok true, w1) /\
       drv_verify drv (Some el) v (drv_elapse drv 800 w1) = (Ok true, w2)).

(** The dropdown a call acts on, if it acts on one. *)
Definition callOn (c : Call) : option Elem :=
  match c with
  | COptions el | CSelect el _ | CVerify el _ => el
  | _ => None
  end.

(** A computation only issues driver calls that satisfy [P]. *)
Definition Adds {W A : Type} (P : Call -> Prop) (m : M (Tester W) A) : Prop :=
  forall t, exists cs, calls (snd (m t)) = calls t ++ cs /\ Forall P cs.

(** The calls by which one dropdown is set back to its default option. *)
Definition resetCalls (optsOf : Elem -> list DOption) (el : Elem) : list Call :=
  match defaultOption (optsOf el) with
  | Some d =>
      [COptions (Some el); CSelect (Some el) (opt_value d);
       CVerify (Some el) (opt_value d)]
  | None => []
  end.

(** The operation names whose recovery action only waits. *)
Definition quietRecovery (opName : string) : Prop :=
  opName <> "navigation" /\ opName <> "dropdownFinding".

Definition isThrow {A : Type} (o : outcome A) : bool :=
  match o with Ok _ => false | Throw _ => true end.

(** The statuses the report counts as failed sort validations. *)
Definition sortFailure (st : string) : bool :=
  String.eqb st "ERROR" || String.eqb st "FAILED".

(** * The rest of the tester *)

(** Every entry captured so far, in the order of capture: the contents of
    the file and, after them, the buffer. *)
Definition captured {W : Type} (t : Tester W) : list Entry :=
  validationLog t ++ validationBuffer t.

(** A computation takes every state to one that [R] relates to it,
    whether it returns or throws. *)
Definition Along {St A : Type} (R : relation St) (m : M St A) : Prop :=
  forall s, R s (snd (m s)).

(** [R] on the tester, next to a local variable. *)
Definition onTester {L St : Type} (R : relation St) : relation (L * St) :=
  fun ls ls' => R (snd ls) (snd ls').

(** A relation that every elementary step of the engine respects. *)
Class EngineStep {W : Type} (R : relation (Tester W)) : Prop := {
  step_preorder :: PreOrder R;
  step_world : forall w t, R t (set_world w t);
  step_call : forall c t, R t (set_calls (calls t ++ [c]) t);
  step_retryCounts : forall r t, R t (set_retryCounts r t);
  step_currentOperation : forall o t, R t (set_currentOperation o t);
  step_isRecovering : forall b t, R t (set_isRecovering b t);
  step_capture : forall e t,
    R t (set_validation (validationBuffer t ++ [e]) (validationLog t) t);
  step_flush : forall t, R t (flushValidationBuffer t);
  step_executionLog : forall x t, R t (set_executionLog (executionLog t ++ [x]) t);
  step_errorLog : forall x t, R t (set_errorLog (errorLog t ++ [x]) t);
  step_passed : forall t,
    R t (set_counters (totalTests t + 1) (passedTests t + 1) (failedTests t) t);
  step_failed : forall t,
    R t (set_counters (totalTests t + 1) (passedTests t) (failedTests t + 1) t)
}.

(** The logs and the record of calls only grow at their end. *)
Definition LogsGrow {W : Type} (t t' : Tester W) : Prop :=
  captured t `prefix_of` captured t' /\
  executionLog t `prefix_of` executionLog t' /\
  errorLog t `prefix_of` errorLog t' /\
  calls t `prefix_of` calls t'.

(** The counters have grown by [p] passed and [f] failed combinations. *)
Definition CountersAdvance {W : Type} (t t' : Tester W) : Prop :=
  exists p f,
    passedTests t' = passedTests t + p /\
    failedTests t' = failedTests t + f /\
    totalTests t' = totalTests t + p + f.

(** [results.filter(r => r.status === st).length] *)
Definition countStatus (st : string) (results : list CombinationResult) : nat :=
  length (filter (fun r => r_status r = st) results).

(** The enumeration has pushed the results [new]: they are numbered on
    from the results already there, each is PASSED or FAILED, and the
    counters have grown by as many as there are of each. *)
Definition Recorded {W : Type} (s s' : list CombinationResult * Tester W) : Prop :=
  exists new,
    fst s' = fst s ++ new /\
    map r_number new = seq (length (fst s) + 1) (length new) /\
    Forall (fun r => r_name r = "Combo " +:+ pretty (r_number r)) new /\
    Forall (fun r => r_status r = "PASSED" \/ r_status r = "FAILED") new /\
    passedTests (snd s') = passedTests (snd s) + countStatus "PASSED" new /\
    failedTests (snd s') = failedTests (snd s) + countStatus "FAILED" new /\
    totalTests (snd s') = totalTests (snd s) + length new.

(** The message of the error thrown when every attempt has failed. *)
Definition exhausted (opName : string) (maxRetries : nat) : string :=
  opName +:+ " failed after " +:+ pretty maxRetries +:+ " attempts".

(** The status [validateTileCount] gives to an observation. *)
Definition observedStatus (visible : nat) (hasNoResultsMessage : bool) : string :=
  if (0 <? visible)%nat then "VALIDATED"
  else if hasNoResultsMessage then "NO_TILES_WITH_MESSAGE"
  else "NO_VISIBLE_TILES".

(** What [validateTileCount] returns when the detection script has
    failed with [error]. *)
Definition undetected (error : string) : TileValidation :=
  mkTileValidation 0 0 false None None [] "NO_VISIBLE_TILES" ("Error: " +:+ error).

(** ** The classifier of [dropdown-validator5.js]

    The file shares the retry executor, the dropdown operations and the
    enumerator with the class above; its classifier counts the tiles and
    does not look for a message or for sort controls. *)

Module V5.

(** [result.tileCount]; the validation time is left out. *)
Record Tiles : Type := mkTiles {
  t_total : nat;
  t_visible : nat;
  t_status : string
}.

(** What [validateTileCount] returns. *)
Record Validation : Type := mkValidation {
  v_total : nat;
  v_visible : nat;
  v_tileDetails : list TileInfo;
  v_status : string
}.

Record Combo : Type := mkCombo {
  c_name : string;
  c_number : nat;
  c_options : list SelEntry;
  c_status : string;
  c_error : option string;
  c_tileCount : Tiles;
  c_tileDetails : list TileInfo
}.

Definition set_options (o : list SelEntry) (r : Combo) : Combo :=
  mkCombo (c_name r) (c_number r) o (c_status r) (c_error r) (c_tileCount r)
    (c_tileDetails r).

Definition set_status (st : string) (r : Combo) : Combo :=
  mkCombo (c_name r) (c_number r) (c_options r) st (c_error r) (c_tileCount r)
    (c_tileDetails r).

Definition set_error (e : option string) (r : Combo) : Combo :=
  mkCombo (c_name r) (c_number r) (c_options r) (c_status r) e (c_tileCount r)
    (c_tileDetails r).

Definition set_tiles (tc : Tiles) (d : list TileInfo) (r : Combo) : Combo :=
  mkCombo (c_name r) (c_number r) (c_options r) (c_status r) (c_error r) tc d.

Section Engine.
Context {W : Type} (drv : Driver W).

#[local] Abbreviation T := (Tester W).

(** [validateTileCount]: the page script counts the tiles; its count is
    reported as VALIDATED whatever it is. *)
Definition validateTileCount (comboNumber : nat) : M T Validation :=
  executeWithRetry drv "tileValidation"
    (modify (set_currentOperation (Some "tileValidation")) >>
     delay drv 1500 >>
     let* tileCount := drive CDetectTiles (drv_detectTiles drv) in
     captureValidation
       ("Tile count validated for combo " +:+ pretty comboNumber) false >>
     ret (mkValidation (td_total tileCount) (td_visible tileCount)
            (td_tileDetails tileCount) "VALIDATED"))
    maxRetries.tileValidation.

Definition initialResult (comboNumber : nat) : Combo :=
  mkCombo ("Combo " +:+ pretty comboNumber) comboNumber [] "FAILED" None
    (mkTiles 0 0 "NOT_VALIDATED") [].

(** The body of the loop that reads the dropdowns back. *)
Definition verifySelection (dropdownElements : list Elem) (i : nat)
    (sel_i : DOption) : M (Combo * T) unit :=
  let* verified :=
    lift (drive (CVerify (dropdownElements !! i) (opt_value sel_i))
            (drv_verify drv (dropdownElements !! i) (opt_value sel_i))) in
  if negb verified then
    throw ("Verification failed for dropdown " +:+ pretty (i + 1) +:+
           ". Expected: " +:+ opt_value sel_i)
  else
    local (fun r =>
      set_options
        (c_options r ++
         [Verified ("Dropdown " +:+ pretty (i + 1))
            (opt_value sel_i) (opt_text sel_i)]) r).

(** The [try] block of [testSingleCombination]. *)
Definition attempt (selection : list DOption) (dropdownElements : list Elem)
    (comboNumber : nat) : M (Combo * T) unit :=
  for_each (verifySelection dropdownElements) 0 selection >>
  let* tileValidation := lift (validateTileCount comboNumber) in
  local (set_tiles
           (mkTiles (v_total tileValidation) (v_visible tileValidation)
              (v_status tileValidation))
           (v_tileDetails tileValidation)) >>
  local (set_status "PASSED") >>
  lift (incTotal >> incPassed) >>
  lift (captureValidation
          ("Combo " +:+ pretty comboNumber +:+ " passed with tile validation")
          false).

(** The [catch] block of [testSingleCombination]. *)
Definition recordFailure (comboNumber : nat) (error : string)
    : M (Combo * T) unit :=
  local (fun r => set_error (Some error) (set_status "FAILED" r)) >>
  lift (incTotal >> incFailed) >>
  lift (captureValidation ("Combo " +:+ pretty comboNumber +:+ " failed") true).

Definition testSingleCombination (selection : list DOption)
    (dropdownElements : list Elem) (comboNumber : nat) : M T Combo :=
  let* r :=
    with_local (initialResult comboNumber)
      (try_catch (attempt selection dropdownElements comboNumber)
         (recordFailure comboNumber)) in
  ret (snd r).
End Engine.
End V5.

(** ** The dropdown operations of [dropdown-validator3.js]

    They run under the executor of module [V3]; the read-back of a
    selection is an operation of its own, with its own attempts. *)

Module Validator3.
Section Engine.
Context {W : Type} (drv : Driver W).

#[local] Abbreviation T := (Tester W).

Definition getDropdownOptions (el : option Elem) (index : nat)
    : M T (list DOption) :=
  V3.executeWithRetry drv "dropdownOptions"
    (let* options := drive (COptions el) (drv_options drv el) in
     match options with
     | [] => throw ("No valid options found for dropdown " +:+ pretty (index + 1))
     | _ =>
         V3.logValidation
           ("Dropdown " +:+ pretty (index + 1) +:+ " options retrieved") >>
         ret options
     end)
    maxRetries.dropdownOptions.

Definition verifySelection (el : option Elem) (expectedOption : DOption)
    : M T bool :=
  V3.executeWithRetry drv "verification"
    (let* isSelected :=
       drive (CVerify el (opt_value expectedOption))
             (drv_verify drv el (opt_value expectedOption)) in
     V3.logValidation "Selection verification result" >>
     if negb isSelected then throw "Selection verification failed"
     else ret isSelected)
    maxRetries.verification.

Definition selectDropdownOption (el : option Elem) (option : DOption)
    (dropdownIndex : nat) : M T bool :=
  V3.executeWithRetry drv "selection"
    (let* success :=
       drive (CSelect el (opt_value option))
             (drv_select drv el (opt_value option)) in
     if negb success then throw "JavaScript selection failed"
     else
       delay drv 800 >>
       let* isSelected := verifySelection el option in
       if negb isSelected then throw "Selection verification failed"
       else V3.logValidation "Option selected successfully" >> ret true)
    maxRetries.selection.

(** The body of the loop of [resetNextDropdowns]: a failure is written
    to the error log and the loop goes on. *)
Definition resetDropdown (i : nat) (el : Elem) : M T unit :=
  try_catch
    (let* options := getDropdownOptions (Some el) i in
     match defaultOption options with
     | Some defaultOption =>
         selectDropdownOption (Some el) defaultOption i >> ret tt
     | None => ret tt
     end)
    (fun error =>
       logError ("Could not reset dropdown " +:+ pretty (i + 1)) error).

Definition resetNextDropdowns (dropdownElements : list Elem)
    (startIndex : nat) : M T unit :=
  for_each resetDropdown startIndex (drop startIndex dropdownElements).

(** The record of a combination: it has no tile count and no sort
    validation. *)
Definition initialResult (comboNumber : nat) : CombinationResult :=
  mkResult ("Combo " +:+ pretty comboNumber) comboNumber [] "FAILED" None
    None [] None.

(** The body of the loop of [testSingleCombination]. *)
Definition verifyDropdown (dropdownElements : list Elem) (i : nat)
    (sel_i : DOption) : M (CombinationResult * T) unit :=
  let* verified := lift (verifySelection (dropdownElements !! i) sel_i) in
  if negb verified then
    throw ("Verification failed for dropdown " +:+ pretty (i + 1))
  else
    local (fun r =>
      set_options
        (r_options r ++
         [Verified ("Dropdown " +:+ pretty (i + 1)) (opt_value sel_i)
            (str_or (opt_text sel_i) ("Option " +:+ opt_value sel_i))]) r).

Definition testSingleCombination (selection : list DOption)
    (dropdownElements : list Elem) (comboNumber : nat)
    : M T CombinationResult :=
  let* r :=
    with_local (initialResult comboNumber)
      (try_catch
         (for_each (verifyDropdown dropdownElements) 0 selection >>
          local (set_status "PASSED") >>
          lift (incTotal >> incPassed) >>
          lift (V3.logValidation "Combination test passed"))
         (fun error =>
            local (fun r => set_error (Some error) (set_status "FAILED" r)) >>
            lift (incTotal >> incFailed) >>
            lift (logError "Combination test failed" error))) in
  ret (snd r).
End Engine.
End Validator3.

(** Sessions that answer in one way only. *)
Module Sessions.

(** A session whose dropdowns take the selection script and never hold
    the value. *)
Definition slipping : Driver nat :=
  {| drv_refresh := fun w => (Ok tt, w);
     drv_deleteAllCookies := fun w => (Ok tt, w);
     drv_exec := fun _ w => (Ok tt, w);
     drv_quit := fun w => (Ok tt, w);
     drv_options := fun _ w => (Ok [], w);
     drv_select := fun _ _ w => (Ok true, S w);
     drv_verify := fun _ _ w => (Ok false, w);
     drv_detectTiles := fun w => (Ok Pages.noTiles, w);
     drv_recheck := fun w => (Ok (mkRecheckData 0 0 false EmptyString), w);
     drv_noResults := fun w => (Ok (mkNoResultsValidation false false None), w);
     drv_sortControls := fun w => (Ok (mkSortControls false 0), w);
     drv_sortScript := fun w =>
       (Ok (mkSortValidation "NOT_APPLICABLE" None 0 0 None false false None), w);
     drv_elapse := fun _ w => w |}.

(** The two-dropdown page with a tile script that fails. *)
Definition blind : Driver (gmap nat string) :=
  let p := Pages.emptyPage in
  {| drv_refresh := drv_refresh p;
     drv_deleteAllCookies := drv_deleteAllCookies p;
     drv_exec := drv_exec p;
     drv_quit := drv_quit p;
     drv_options := drv_options p;
     drv_select := drv_select p;
     drv_verify := drv_verify p;
     drv_detectTiles := fun w => (Throw "javascript error", w);
     drv_recheck := drv_recheck p;
     drv_noResults := drv_noResults p;
     drv_sortControls := drv_sortControls p;
     drv_sortScript := drv_sortScript p;
     drv_elapse := drv_elapse p |}.
End Sessions.

(** ** The page around the dropdowns *)

(** The calls on the session and on located elements that the navigation
    makes.  They are not among the recorded calls. *)
Record Navigator (W : Type) : Type := mkNavigator {
  nav_get : string -> W -> outcome unit * W;
  (* [driver.wait] for [document.readyState] to be complete, 60 s *)
  nav_waitComplete : W -> outcome unit * W;
  (* [driver.wait(until.elementLocated(By.css(css)), 30000)] *)
  nav_waitLocated : string -> W -> outcome unit * W;
  nav_findElements : string -> W -> outcome (list Elem) * W;
  nav_findElement : string -> W -> outcome Elem * W;
  nav_isDisplayed : Elem -> W -> outcome bool * W;
  nav_click : Elem -> W -> outcome unit * W
}.
Arguments nav_get {W}.
Arguments nav_waitComplete {W}.
Arguments nav_waitLocated {W}.
Arguments nav_findElements {W}.
Arguments nav_findElement {W}.
Arguments nav_isDisplayed {W}.
Arguments nav_click {W}.

(** [this.driver = null] and [this.driver = <a session>] *)
Definition set_driver {W : Type} (d : bool) (t : Tester W) : Tester W :=
  mkTester (world t) d (calls t) (retryCounts t) (totalTests t)
    (passedTests t) (failedTests t) (currentOperation t) (isRecovering t)
    (validationBuffer t) (validationLog t) (executionLog t) (errorLog t).

(** What the navigation never writes by itself: all of the tester but the
    session and the validation log. *)
Definition ledger {W : Type} (t : Tester W) :=
  (driver t, calls t, retryCounts t, counters t, currentOperation t,
   isRecovering t, executionLog t, errorLog t).

(** [try { ... } finally { ... }] with a block for the [finally]: the block
    runs whatever the outcome of [m], and its own error replaces it. *)
Definition finally {S A : Type} (m : M S A) (f : M S unit) : M S A :=
  fun s =>
    let (r, s1) := m s in
    match f s1 with
    | (Ok _, s2) => (r, s2)
    | (Throw e, s2) => (Throw e, s2)
    end.

Section Navigation.
Context {W : Type} (drv : Driver W) (nav : Navigator W).

#[local] Abbreviation T := (Tester W).

(** A call on [this.driver] that is not recorded: a [TypeError] when the
    driver is null. *)
Definition visit {A : Type} (f : W -> outcome A * W) : M T A :=
  fun t =>
    if driver t then
      let (r, w) := f (world t) in (r, set_world w t)
    else (Throw "Cannot read properties of null", t).

(** A call on a located element. *)
Definition onElement {A : Type} (f : W -> outcome A * W) : M T A :=
  fun t => let (r, w) := f (world t) in (r, set_world w t).

Definition popupSelectors : list string :=
  ["#truste-consent-button";
   "button.call[role=" +:+ quote +:+ "button" +:+ quote +:+ "]";
   "button:contains(" +:+ quote +:+ "Accept" +:+ quote +:+ ")";
   "button:contains(" +:+ quote +:+ "Agree" +:+ quote +:+ ")";
   ".truste-icon-box";
   "button.required[role=" +:+ quote +:+ "button" +:+ quote +:+ "]"].

(** The inner loop of [handleCookiesAndPopups]: the first displayed
    element is clicked and the function returns [true]. *)
Fixpoint clickDisplayed (selector : string) (elements : list Elem) : M T bool :=
  match elements with
  | [] => ret false
  | el :: elements' =>
      let* displayed := onElement (nav_isDisplayed nav el) in
      if (displayed : bool) then
        onElement (nav_click nav el) >>
        captureValidation ("Clicked: " +:+ selector) true >>
        delay drv 1500 >>
        ret true
      else clickDisplayed selector elements'
  end.

(** The outer loop of [handleCookiesAndPopups] and what follows it; an
    error under one selector is swallowed and the next one is tried. *)
Fixpoint dismissPopups (selectors : list string) : M T bool :=
  match selectors with
  | [] => captureValidation "No popups found" true >> ret false
  | selector :: selectors' =>
      let* clicked :=
        try_catch
          (let* elements := visit (nav_findElements nav selector) in
           clickDisplayed selector elements)
          (fun _ => ret false) in
      if (clicked : bool) then ret true else dismissPopups selectors'
  end.

Definition handleCookiesAndPopups : M T bool :=
  captureValidation "Handling cookies/popups..." true >>
  delay drv 2000 >>
  dismissPopups popupSelectors.

Definition robustNavigateTo (url : string) (maxAttempts : nat) : M T bool :=
  executeWithRetry drv "navigation"
    (captureValidation ("Navigating to " +:+ url) true >>
     visit (nav_get nav url) >>
     visit (nav_waitComplete nav) >>
     handleCookiesAndPopups >>
     captureValidation "Navigation successful" true >>
     ret true)
    maxAttempts.

Definition dropdownSelectors : list string :=
  ["bolt-select"; ".main-filter bolt-select";
   "select[data-test=" +:+ quote +:+ "select" +:+ quote +:+ "]"; "select"].

(** The loop of [getDropdownElements] over the selectors, and the error
    that follows it. *)
Fixpoint findDropdowns (selectors : list string) : M T (list Elem) :=
  match selectors with
  | [] => throw "No dropdowns found"
  | sel :: selectors' =>
      let* found :=
        try_catch
          (let* els := visit (nav_findElements nav sel) in
           if (1 <=? length els)%nat then
             captureValidation
               ("Found " +:+ pretty (length els) +:+ " dropdowns") true >>
             ret (Some (take 3 els))
           else ret None)
          (fun _ => ret None) in
      match found with
      | Some els => ret els
      | None => findDropdowns selectors'
      end
  end.

Definition getDropdownElements : M T (list Elem) :=
  executeWithRetry drv "dropdownFinding"
    (visit (nav_waitLocated nav ".nw-container") >>
     findDropdowns dropdownSelectors)
    maxRetries.dropdownFinding.

(** [resetToDefault]: the page's reset button, and when that fails each
    dropdown in turn, by the loop body that [resetNextDropdowns] has. *)
Definition resetToDefault (dropdownElements : list Elem) : M T unit :=
  try_catch
    (let* button := visit (nav_findElement nav "#tileFilterResetButton") in
     onElement (nav_click nav button) >>
     captureValidation "Reset button clicked" true)
    (fun _ =>
       for_each (resetDropdown drv) 0 dropdownElements >>
       captureValidation "Manual reset completed" true) >>
  delay drv 1000.

Definition cleanup : M T unit :=
  let* present := gets driver in
  when present
    (try_catch
       (drive (CQuit) (drv_quit drv) >> modify (set_driver false))
       (fun _ => ret tt) >>
     captureValidation "Driver cleaned up" true).

End Navigation.

(** A page whose dropdowns are found under the third selector only, four
    of them, and that has no reset button. *)
Module Sites.
Definition plain : Navigator (gmap nat string) :=
  {| nav_get := fun _ w => (Ok tt, w);
     nav_waitComplete := fun w => (Ok tt, w);
     nav_waitLocated := fun _ w => (Ok tt, w);
     nav_findElements := fun css w =>
       if String.eqb css "bolt-select" then (Ok [], w)
       else if String.eqb css ".main-filter bolt-select"
       then (Throw "invalid selector", w)
       else if String.eqb css "select" then (Ok [7], w)
       else if String.prefix "select" css then (Ok [0; 1; 2; 3], w)
       else (Ok [], w);
     nav_findElement := fun _ w => (Throw "no such element", w);
     nav_isDisplayed := fun _ w => (Ok true, w);
     nav_click := fun _ w => (Ok tt, w) |}.
End Sites.

(** ** One page of the CSV file *)

(** A row of the CSV file as [readCSV] keeps it; the default row has
    neither [mobileDevice] nor [headless]. *)
Record TestCase : Type := mkTestCase {
  case_url : string;
  case_description : string;
  case_expectedDropdowns : Z;
  case_browser : string;
  case_device : string;
  case_mobileDevice : option string;
  case_headless : option bool
}.

(** [this.config] *)
Record Config : Type := mkConfig {
  cfg_browser : string;
  cfg_device : string;
  cfg_headless : bool;
  cfg_mobileDevice : string;
  cfg_viewport : option (nat * nat);
  cfg_userAgent : option string
}.

(** [{ ...this.config, ...testCase }], for the keys [this.config] has. *)
Definition mergeConfig (config : Config) (testCase : TestCase) : Config :=
  mkConfig (case_browser testCase) (case_device testCase)
    (default (cfg_headless config) (case_headless testCase))
    (default (cfg_mobileDevice config) (case_mobileDevice testCase))
    (cfg_viewport config) (cfg_userAgent config).

Record DropdownDetail : Type := mkDropdownDetail {
  dd_index : nat;
  dd_optionCount : nat;
  dd_sampleOptions : list string;
  dd_allOptions : list string
}.

(** [urlResult.tileSummary], without the average and the strategies.  A
    field the initial summary does not have is 0 here; it is read with
    [|| 0]. *)
Record TileSummary : Type := mkTileSummary {
  ts_totalTiles : nat;
  ts_visibleTiles : nat;
  ts_minTiles : nat;
  ts_combosWithTiles : nat;
  ts_combosWithValidatedTiles : nat;
  ts_combosWithNoResultsMessage : nat;
  ts_combosWithCorrectNoResultsMessage : nat;
  ts_combosWithValidatedNoResults : nat;
  ts_combosWithValidatedNoTiles : nat;
  ts_combosWithNoVisibleTiles : nat
}.

(** [urlResult.sortBySummary], without the average. *)
Record SortBySummary : Type := mkSortBySummary {
  sbs_validatedCombos : nat;
  sbs_validatedNoResultsCombos : nat;
  sbs_validatedNoTilesCombos : nat;
  sbs_skippedCombos : nat;
  sbs_notApplicableCombos : nat;
  sbs_failedCombos : nat;
  sbs_combosWithSortControls : nat
}.

(** [urlResult.summary], without the pass rate. *)
Record Summary : Type := mkSummary {
  sum_passed : nat;
  sum_failed : nat;
  sum_total : nat
}.

(** [urlResult], without its time stamps. *)
Record UrlResult : Type := mkUrlResult {
  u_url : string;
  u_description : string;
  u_browser : string;
  u_device : string;
  u_mobileDevice : string;
  u_headless : bool;
  u_combinations : list CombinationResult;
  u_dropdowns : nat;
  u_dropdownDetails : list DropdownDetail;
  u_status : string;
  u_error : option string;
  u_tileSummary : TileSummary;
  u_sortBySummary : SortBySummary;
  u_summary : option Summary
}.

Definition initialUrlResult (config : Config) (testCase : TestCase) : UrlResult :=
  mkUrlResult (case_url testCase) (case_description testCase)
    (cfg_browser config) (cfg_device config) (cfg_mobileDevice config)
    (cfg_headless config) [] 0 [] "PENDING" None
    (mkTileSummary 0 0 0 0 0 0 0 0 0 0)
    (mkSortBySummary 0 0 0 0 0 0 0)
    None.

Definition set_dropdowns (n : nat) (u : UrlResult) : UrlResult :=
  mkUrlResult (u_url u) (u_description u) (u_browser u) (u_device u)
    (u_mobileDevice u) (u_headless u) (u_combinations u) n
    (u_dropdownDetails u) (u_status u) (u_error u) (u_tileSummary u)
    (u_sortBySummary u) (u_summary u).

Definition set_dropdownDetails (d : list DropdownDetail) (u : UrlResult) : UrlResult :=
  mkUrlResult (u_url u) (u_description u) (u_browser u) (u_device u)
    (u_mobileDevice u) (u_headless u) (u_combinations u) (u_dropdowns u)
    d (u_status u) (u_error u) (u_tileSummary u)
    (u_sortBySummary u) (u_summary u).

Definition set_combinations (c : list CombinationResult) (u : UrlResult) : UrlResult :=
  mkUrlResult (u_url u) (u_description u) (u_browser u) (u_device u)
    (u_mobileDevice u) (u_headless u) c (u_dropdowns u)
    (u_dropdownDetails u) (u_status u) (u_error u) (u_tileSummary u)
    (u_sortBySummary u) (u_summary u).

Definition set_urlStatus (st : string) (u : UrlResult) : UrlResult :=
  mkUrlResult (u_url u) (u_description u) (u_browser u) (u_device u)
    (u_mobileDevice u) (u_headless u) (u_combinations u) (u_dropdowns u)
    (u_dropdownDetails u) st (u_error u) (u_tileSummary u)
    (u_sortBySummary u) (u_summary u).

Definition set_urlError (e : option string) (u : UrlResult) : UrlResult :=
  mkUrlResult (u_url u) (u_description u) (u_browser u) (u_device u)
    (u_mobileDevice u) (u_headless u) (u_combinations u) (u_dropdowns u)
    (u_dropdownDetails u) (u_status u) e (u_tileSummary u)
    (u_sortBySummary u) (u_summary u).

Definition set_tileSummary (s : TileSummary) (u : UrlResult) : UrlResult :=
  mkUrlResult (u_url u) (u_description u) (u_browser u) (u_device u)
    (u_mobileDevice u) (u_headless u) (u_combinations u) (u_dropdowns u)
    (u_dropdownDetails u) (u_status u) (u_error u) s
    (u_sortBySummary u) (u_summary u).

Definition set_sortBySummary (s : SortBySummary) (u : UrlResult) : UrlResult :=
  mkUrlResult (u_url u) (u_description u) (u_browser u) (u_device u)
    (u_mobileDevice u) (u_headless u) (u_combinations u) (u_dropdowns u)
    (u_dropdownDetails u) (u_status u) (u_error u) (u_tileSummary u)
    s (u_summary u).

Definition set_summary (s : option Summary) (u : UrlResult) : UrlResult :=
  mkUrlResult (u_url u) (u_description u) (u_browser u) (u_device u)
    (u_mobileDevice u) (u_headless u) (u_combinations u) (u_dropdowns u)
    (u_dropdownDetails u) (u_status u) (u_error u) (u_tileSummary u)
    (u_sortBySummary u) s.

(** *** The statistics of a page *)

(** [combos.filter(c => p(c)).length] *)
Definition countWhere {A : Type} (p : A -> bool) (l : list A) : nat :=
  length (List.filter p l).

(** [combos.filter(c => c.tileCount?.visible !== undefined)
           .map(c => c.tileCount.visible)] *)
Definition tileCounts (combos : list CombinationResult) : list nat :=
  omap (fun c => option_map tc_visible (r_tileCount c)) combos.

(** [c.tileCount?.status === st] *)
Definition hasTileStatus (st : string) (c : CombinationResult) : bool :=
  match r_tileCount c with
  | Some tc => String.eqb (tc_status tc) st
  | None => false
  end.

(** [Math.min(...counts)] on a list that is not empty, and 0 on the
    empty one. *)
Definition minOf (counts : list nat) : nat :=
  match counts with
  | [] => 0
  | c :: counts' => fold_left Nat.min counts' c
  end.

Definition tileSummary (combos : list CombinationResult) : TileSummary :=
  let tileCounts := tileCounts combos in
  mkTileSummary
    (sum_list tileCounts)
    (max_list tileCounts)
    (minOf tileCounts)
    (countWhere (fun n => (0 <? n)%nat) tileCounts)
    (countWhere (hasTileStatus "VALIDATED") combos)
    (countWhere (fun c => match r_tileCount c with
                     | Some tc => tc_hasNoResultsMessage tc
                     | None => false
                     end) combos)
    (countWhere (fun c => match r_tileCount c with
                     | Some tc => includes (tc_noResultsText tc) canonicalNoResults
                     | None => false
                     end) combos)
    (countWhere (hasTileStatus "VALIDATED_WITH_NO_RESULTS") combos)
    (countWhere (hasTileStatus "VALIDATED_NO_TILES") combos)
    (countWhere (hasTileStatus "NO_VISIBLE_TILES") combos).

(** [(c.sortByValidation || { status: 'NOT_VALIDATED' }).status] *)
Definition sortStatusOf (c : CombinationResult) : string :=
  match r_sortByValidation c with
  | Some s => ss_status s
  | None => "NOT_VALIDATED"
  end.

(** [s.sortControlsFound || 0] *)
Definition sortControlsOf (c : CombinationResult) : nat :=
  match r_sortByValidation c with
  | Some s => ss_sortControlsFound s
  | None => 0
  end.

Definition sortBySummary (combos : list CombinationResult) : SortBySummary :=
  mkSortBySummary
    (countWhere (fun c => String.eqb (sortStatusOf c) "VALIDATED") combos)
    (countWhere (fun c => String.eqb (sortStatusOf c) "VALIDATED_WITH_NO_RESULTS") combos)
    (countWhere (fun c => String.eqb (sortStatusOf c) "VALIDATED_NO_TILES") combos)
    (countWhere (fun c => String.eqb (sortStatusOf c) "SKIPPED") combos)
    (countWhere (fun c => String.eqb (sortStatusOf c) "NOT_APPLICABLE") combos)
    (countWhere (fun c => sortFailure (sortStatusOf c)) combos)
    (countWhere (fun c => (0 <? sortControlsOf c)%nat) combos).

Definition summary (combos : list CombinationResult) : Summary :=
  mkSummary
    (countWhere (fun c => String.eqb (r_status c) "PASSED" ||
                     String.eqb (r_status c) "PARTIAL") combos)
    (countWhere (fun c => String.eqb (r_status c) "FAILED") combos)
    (length combos).

(** [failed > 0 ? 'FAILED' : passed > 0 ? 'PASSED' : 'SKIPPED'] *)
Definition urlStatus (combos : list CombinationResult) : string :=
  if (0 <? sum_failed (summary combos))%nat then "FAILED"
  else if (0 <? sum_passed (summary combos))%nat then "PASSED"
  else "SKIPPED".

(** *** The loop of [runTests] *)

(** [this.config] and [this.results], next to the state of the engine. *)
Record Suite : Type := mkSuite {
  suite_config : Config;
  suite_results : list UrlResult
}.

Section Run.
Context {W : Type} (drv : Driver W) (nav : Navigator W).

#[local] Abbreviation T := (Tester W).

(** [initializeDriver] builds the session with Selenium's [Builder] from
    the configuration; it is left open here, and what follows holds
    whatever it does to the tester. *)
Variable initializeDriver : Config -> M T bool.

(** Inside the loop: the local [urlResult], then [this]. *)
#[local] Abbreviation This := (Suite * T)%type.

Definition this {A : Type} (m : M T A) : M (UrlResult * This) A :=
  lift (lift m).

(** The body of the loop that fills [urlResult.dropdownDetails]. *)
Definition describeDropdown (i : nat) (el : Elem) : M (UrlResult * This) unit :=
  let* opts := this (getDropdownOptions drv (Some el) i) in
  local (fun u =>
    set_dropdownDetails
      (u_dropdownDetails u ++
       [mkDropdownDetail (i + 1) (length opts)
          (map opt_text (take 3 opts)) (map opt_text opts)]) u).

(** The [try] block of the body of the loop. *)
Definition testCaseAttempt (testCase : TestCase) : M (UrlResult * This) unit :=
  let* suite := lift get_local in
  this (initializeDriver (suite_config suite)) >>
  this (robustNavigateTo drv nav (case_url testCase) 3) >>
  let* dropdownElements := this (getDropdownElements drv nav) in
  local (set_dropdowns (length dropdownElements)) >>
  for_each describeDropdown 0 dropdownElements >>
  this (resetToDefault drv nav dropdownElements) >>
  let* combos := this (testAllCombinations drv dropdownElements) in
  local (set_combinations combos) >>
  local (set_tileSummary (tileSummary combos)) >>
  local (set_sortBySummary (sortBySummary combos)) >>
  local (set_summary (Some (summary combos))) >>
  local (set_urlStatus (urlStatus combos)) >>
  this (captureValidation ("URL test " +:+ urlStatus combos) true).

(** The [catch] block. *)
Definition testCaseError (error : string) : M (UrlResult * This) unit :=
  local (fun u => set_urlError (Some error) (set_urlStatus "ERROR" u)) >>
  this (captureValidation "URL test error" true).

(** The [finally] block. *)
Definition testCaseEnd (total idx : nat) : M (UrlResult * This) unit :=
  this (cleanup drv) >>
  (let* urlResult := get_local in
   lift (local (fun suite =>
     mkSuite (suite_config suite) (suite_results suite ++ [urlResult])))) >>
  when (idx <? total - 1)%nat (this (delay drv 3000)).

(** The body of the loop over [this.csvData.entries()]. *)
Definition runTestCase (total idx : nat) (testCase : TestCase) : M This unit :=
  local (fun suite =>
    mkSuite (mergeConfig (suite_config suite) testCase) (suite_results suite)) >>
  let* suite := get_local in
  with_local (initialUrlResult (suite_config suite) testCase)
    (finally (try_catch (testCaseAttempt testCase) testCaseError)
       (testCaseEnd total idx)) >>
  ret tt.

Definition runTestCases (csvData : list TestCase) : M This unit :=
  for_each (runTestCase (length csvData)) 0 csvData.

End Run.

(** *** The statistics of the run *)

(** The reduction by which [finalizeExecution] takes the least of the
    pages' [minTiles]:
    [(min, r) => min === 0 ? m : Math.min(min, m)], from 0. *)
Definition leastTiles (results : list UrlResult) : nat :=
  fold_left
    (fun least r =>
       if (least =? 0)%nat then ts_minTiles (u_tileSummary r)
       else Nat.min least (ts_minTiles (u_tileSummary r)))
    results 0.

(** [results.reduce((max, r) => Math.max(max, visibleTiles), 0)] *)
Definition mostTiles (results : list UrlResult) : nat :=
  fold_left (fun most r => Nat.max most (ts_visibleTiles (u_tileSummary r)))
    results 0.

(** [results.reduce((sum, r) => sum + (f(r) || 0), 0)] *)
Definition sumOver (f : UrlResult -> nat) (results : list UrlResult) : nat :=
  fold_left (fun sum r => sum + f r) results 0.

(** The statistics [finalizeExecution] hands to [generateReports],
    without the averages. *)
Record TileSortStats : Type := mkTileSortStats {
  st_totalTiles : nat;
  st_maxTiles : nat;
  st_minTiles : nat;
  st_pagesWithTiles : nat;
  st_combosWithNoResults : nat;
  st_combosWithCorrectNoResults : nat;
  st_combosWithValidatedNoResults : nat;
  st_combosWithValidatedNoTiles : nat;
  st_combosWithNoVisibleTiles : nat;
  st_totalSortValidations : nat;
  st_totalNoResultsValidated : nat;
  st_totalNoTilesValidated : nat;
  st_totalSortSkipped : nat;
  st_totalNotApplicableSorts : nat;
  st_pagesWithSortControls : nat
}.

Definition tileSortStats (results : list UrlResult) : TileSortStats :=
  mkTileSortStats
    (sumOver (fun r => ts_totalTiles (u_tileSummary r)) results)
    (mostTiles results)
    (leastTiles results)
    (countWhere (fun r => (0 <? ts_visibleTiles (u_tileSummary r))%nat) results)
    (sumOver (fun r => ts_combosWithNoResultsMessage (u_tileSummary r)) results)
    (sumOver (fun r => ts_combosWithCorrectNoResultsMessage (u_tileSummary r)) results)
    (sumOver (fun r => ts_combosWithValidatedNoResults (u_tileSummary r)) results)
    (sumOver (fun r => ts_combosWithValidatedNoTiles (u_tileSummary r)) results)
    (sumOver (fun r => ts_combosWithNoVisibleTiles (u_tileSummary r)) results)
    (sumOver (fun r => sbs_validatedCombos (u_sortBySummary r)) results)
    (sumOver (fun r => sbs_validatedNoResultsCombos (u_sortBySummary r)) results)
    (sumOver (fun r => sbs_validatedNoTilesCombos (u_sortBySummary r)) results)
    (sumOver (fun r => sbs_skippedCombos (u_sortBySummary r)) results)
    (sumOver (fun r => sbs_notApplicableCombos (u_sortBySummary r)) results)
    (countWhere (fun r => (0 <? sbs_combosWithSortControls (u_sortBySummary r))%nat)
       results).

(** A recorded page whose least visible count is [least]. *)
Definition pageWithLeast (least : nat) : UrlResult :=
  set_tileSummary (mkTileSummary least least least 1 1 0 0 0 0 0)
    (initialUrlResult
       (mkConfig "chrome" "desktop" false "iPhone 12" None None)
       (mkTestCase "https://example.com" "Default" 3 "chrome" "desktop" None None)).

(** [overallStatus], as [generateReports] computes it. *)
Definition overallStatus (results : list UrlResult) : string :=
  if existsb (fun r => String.eqb (u_status r) "ERROR") results then "ERROR"
  else if existsb (fun r => String.eqb (u_status r) "FAILED") results then "FAILED"
  else if forallb (fun r => String.eqb (u_status r) "SKIPPED") results then "SKIPPED"
  else "PASSED".

(** What the statistics of a page can meet in a result of the classifier:
    a passed combination carries one of the four tile statuses of a
    verdict, a failed one the status ERROR. *)
Definition Counted (r : CombinationResult) : Prop :=
  (r_status r = "PASSED" /\
   exists st,
     tileStatus r = Some st /\
     st ∈ ["VALIDATED"; "VALIDATED_WITH_NO_RESULTS";
           "HAS_MESSAGE_BUT_NOT_EXPECTED"; "NO_VISIBLE_TILES"]) \/
  (r_status r = "FAILED" /\ tileStatus r = Some "ERROR").

(** The enumeration has pushed results that all satisfy [P]. *)
Definition Pushed {W : Type} (P : CombinationResult -> Prop)
    : relation (list CombinationResult * Tester W) :=
  fun s s' => exists new, fst s' = fst s ++ new /\ Forall P new.

(** A result that has a tile count keeps one. *)
Definition KeepsTileCount {W : Type}
    : relation (CombinationResult * Tester W) :=
  fun s s' => is_Some (r_tileCount (fst s)) -> is_Some (r_tileCount (fst s')).

(** The fields of [urlResult] that are written only once the combinations
    have been tested, or in the [catch] block. *)
Definition kept (u : UrlResult) :=
  (u_url u, u_description u, u_browser u, u_device u, u_mobileDevice u,
   u_headless u, u_combinations u, u_status u, u_error u, u_tileSummary u,
   u_sortBySummary u, u_summary u).

(** The assignments to [urlResult] that follow [testAllCombinations]. *)
Definition tested (combos : list CombinationResult) (u : UrlResult) : UrlResult :=
  set_urlStatus (urlStatus combos)
    (set_summary (Some (summary combos))
       (set_sortBySummary (sortBySummary combos)
          (set_tileSummary (tileSummary combos)
             (set_combinations combos u)))).

(** What the [try] block leaves alone until the combinations are tested:
    [this.config], [this.results] and the kept fields of [urlResult]. *)
Definition pageView {W : Type} (s : UrlResult * (Suite * Tester W)) :=
  (fst (snd s), kept (fst s)).

(** [u] is what the loop of [runTests] records for the row [testCase]:
    either the combinations were tested, and [u] carries them with their
    statistics and the status they give, or an error ended the [try]
    block, and [u] carries the error and nothing of the combinations. *)
Definition PageRecord (testCase : TestCase) (u : UrlResult) : Prop :=
  u_url u = case_url testCase /\
  u_description u = case_description testCase /\
  u_browser u = case_browser testCase /\
  u_device u = case_device testCase /\
  match u_summary u with
  | Some s =>
      u_error u = None /\
      u_combinations u <> [] /\
      Forall Counted (u_combinations u) /\
      s = summary (u_combinations u) /\
      u_tileSummary u = tileSummary (u_combinations u) /\
      u_sortBySummary u = sortBySummary (u_combinations u) /\
      u_status u = (if (0 <? sum_failed s)%nat then "FAILED" else "PASSED")
  | None =>
      u_status u = "ERROR" /\
      (exists e, u_error u = Some e) /\
      u_combinations u = [] /\
      u_tileSummary u = mkTileSummary 0 0 0 0 0 0 0 0 0 0 /\
      u_sortBySummary u = mkSortBySummary 0 0 0 0 0 0 0
  end.

(** What [testSingleCombination] of [dropdown-validator3.js] pushes to
    [result.options] for the dropdown of index [i]. *)
Definition v3Entry (i : nat) (o : DOption) : SelEntry :=
  Verified ("Dropdown " +:+ pretty (i + 1)) (opt_value o)
    (str_or (opt_text o) ("Option " +:+ opt_value o)).

(** ** The rows of the CSV file *)

(** The row at the head of the list [readCSV] resolves with when the file
    gives no row to keep. *)
Definition defaultRow : TestCase :=
  mkTestCase "https://example.com" "Default" 3 "chrome" "desktop" None None.

(** [if (results.length === 0) results.push(<the default row>)] *)
Definition orDefault (results : list TestCase) : list TestCase :=
  match results with
  | [] => [defaultRow]
  | _ => results
  end.

Section Rows.
Context {W : Type}.

(** [String.prototype.trim], and [parseInt], which gives no number for a
    text that does not start with one. *)
Variable trim : string -> string.
Variable parseInt : string -> option Z.

(** [data[key] || fallback], on a row as the CSV parser hands it over:
    the cells by the name of their column. *)
Definition cell (data : gmap string string) (key fallback : string) : string :=
  match data !! key with
  | Some v => str_or v fallback
  | None => fallback
  end.

(** The handler of the [data] event: the row it pushes, when the row has
    a URL. *)
Definition onData (data : gmap string string) : option TestCase :=
  match data !! "url" with
  | Some url =>
      if String.eqb (trim url) EmptyString then None
      else
        Some (mkTestCase (trim url)
                (cell data "description" EmptyString)
                (match data !! "expectedDropdowns" with
                 | Some s =>
                     match parseInt s with
                     | Some n => if (n =? 0)%Z then 3%Z else n
                     | None => 3%Z
                     end
                 | None => 3%Z
                 end)
                (cell data "browser" "chrome")
                (cell data "device" "desktop")
                (Some (cell data "mobileDevice" "iPhone 12"))
                (Some (match data !! "headless" with
                       | Some v => String.eqb v "true"
                       | None => false
                       end)))
  | None => None
  end.

(** The handler of the [end] event. *)
Definition onEnd (results : list TestCase) : M (Tester W) (list TestCase) :=
  let results := orDefault results in
  captureValidation ("Loaded " +:+ pretty (length results) +:+ " URLs") true >>
  ret results.

(** [readCSV], given what the file system does: whether the file exists,
    what writing the default file gives when it does not, and what the
    stream of the file delivers, rows and then its end, or an error. *)
Definition readCSV (fileExists : bool) (written : outcome unit)
    (stream : outcome (list (gmap string string)))
    : M (Tester W) (list TestCase) :=
  (if fileExists then ret tt
   else
     match written with
     | Ok _ => captureValidation "Created default CSV" true
     | Throw e => throw e
     end) >>
  match stream with
  | Ok rows => onEnd (omap onData rows)
  | Throw e => throw e
  end.

Context (drv : Driver W) (nav : Navigator W).
Variable initializeDriver : Config -> M (Tester W) bool.

(** The [try] block of [runTests]. *)
Definition runTestsAttempt (fileExists : bool) (written : outcome unit)
    (stream : outcome (list (gmap string string)))
    : M (Suite * Tester W) unit :=
  let* csvData := lift (readCSV fileExists written stream) in
  match csvData with
  | [] => throw "No URLs"
  | _ => runTestCases drv nav initializeDriver csvData
  end.

(** [runTests] up to its [finally] block, which computes the statistics
    of the run and writes the reports. *)
Definition runTestsGuarded (fileExists : bool) (written : outcome unit)
    (stream : outcome (list (gmap string string)))
    : M (Suite * Tester W) unit :=
  try_catch (runTestsAttempt fileExists written stream)
    (fun _ => lift (captureValidation "Critical error" true)).
End Rows.


(** * Properties *)

(** ** Reasoning about the monad *)

Lemma bind_ok {St A B : Type} (m : M St A) (k : A -> M St B) s a s' :
  m s = (Ok a, s') -> bind m k s = k a s'.
Proof. intros H. unfold bind. now rewrite H. Qed.

Lemma bind_throw {St A B : Type} (m : M St A) (k : A -> M St B) s e s' :
  m s = (Throw e, s') -> bind m k s = (Throw e, s').
Proof. intros H. unfold bind. now rewrite H. Qed.

Lemma try_catch_ok {St A : Type} (m : M St A) h s a s' :
  m s = (Ok a, s') -> try_catch m h s = (Ok a, s').
Proof. intros H. unfold try_catch. now rewrite H. Qed.

Lemma try_catch_throw {St A : Type} (m : M St A) h s e s' :
  m s = (Throw e, s') -> try_catch m h s = h e s'.
Proof. intros H. unfold try_catch. now rewrite H. Qed.

Section PreservesMonad.
Context {St X : Type} (f : St -> X).

Lemma preserves_ret {A} (a : A) : Preserves f (ret a).
Proof. now intros s. Qed.

Lemma preserves_throw {A} e : Preserves f (@throw St A e).
Proof. now intros s. Qed.

Lemma preserves_gets {A} (g : St -> A) : Preserves f (gets g).
Proof. now intros s. Qed.

Lemma preserves_modify (g : St -> St) :
  (forall s, f (g s) = f s) -> Preserves f (modify g).
Proof. intros H s. apply H. Qed.

Lemma preserves_bind {A B} (m : M St A) (k : A -> M St B) :
  Preserves f m -> (forall a, Preserves f (k a)) -> Preserves f (bind m k).
Proof.
  intros Hm Hk s. unfold bind. specialize (Hm s).
  destruct (m s) as [[a | e] s']; simpl in *.
  - now rewrite Hk.
  - exact Hm.
Qed.

Lemma preserves_try_catch {A} (m : M St A) h :
  Preserves f m -> (forall e, Preserves f (h e)) -> Preserves f (try_catch m h).
Proof.
  intros Hm Hh s. unfold try_catch. specialize (Hm s).
  destruct (m s) as [[a | e] s']; simpl in *.
  - exact Hm.
  - now rewrite Hh.
Qed.

Lemma preserves_try_finally {A} (m : M St A) g :
  Preserves f m -> (forall s, f (g s) = f s) -> Preserves f (try_finally m g).
Proof.
  intros Hm Hg s. unfold try_finally. specialize (Hm s).
  destruct (m s) as [r s']; simpl in *. now rewrite Hg.
Qed.

Lemma preserves_when b (m : M St unit) :
  Preserves f m -> Preserves f (when b m).
Proof. intros H. destruct b; [exact H | apply preserves_ret]. Qed.

Lemma preserves_for_each {A} (body : nat -> A -> M St unit) l :
  (forall i x, Preserves f (body i x)) ->
  forall i, Preserves f (for_each body i l).
Proof.
  intros Hb. induction l as [| x l IH]; intros i; simpl.
  - apply preserves_ret.
  - apply preserves_bind; [apply Hb | intros _; apply IH].
Qed.
End PreservesMonad.

Section PreservesLocal.
Context {L St X : Type} (f : St -> X).

Lemma preserves_lift {A} (m : M St A) :
  Preserves f m -> Preserves (fun ls : L * St => f (snd ls)) (lift m).
Proof.
  intros H [l s]. unfold lift. simpl. specialize (H s).
  now destruct (m s).
Qed.

Lemma preserves_local (g : L -> L) :
  Preserves (fun ls : L * St => f (snd ls)) (local g).
Proof. now intros [l s]. Qed.

Lemma preserves_get_local :
  Preserves (fun ls : L * St => f (snd ls)) (@get_local L St).
Proof. now intros [l s]. Qed.

Lemma preserves_with_local {A} l0 (m : M (L * St) A) :
  Preserves (fun ls : L * St => f (snd ls)) m -> Preserves f (with_local l0 m).
Proof.
  intros H s. unfold with_local. specialize (H (l0, s)).
  now destruct (m (l0, s)) as [[a | e] [l s']].
Qed.
End PreservesLocal.

#[global] Instance counters_frame {W : Type} : Frame (@counters W).
Proof. now split. Qed.

#[global] Instance driver_frame {W : Type} : Frame (@driver W).
Proof. now split. Qed.

#[global] Instance isRecovering_frame {W : Type} : Frame (@isRecovering W).
Proof. now split. Qed.

Create HintDb preserves.

#[global] Hint Resolve preserves_ret preserves_throw preserves_gets
  preserves_bind preserves_try_catch preserves_when preserves_for_each
  preserves_lift preserves_local preserves_get_local preserves_with_local
  : preserves.

(** One step through a sequence whose first computation is known to
    preserve the observation. *)
Ltac preserves_step :=
  apply preserves_bind; [solve [auto with preserves] | intros ?].

Section PreservesEngine.
Context {W X : Type} (drv : Driver W) (f : Tester W -> X) `{!Frame f}.

Lemma flush_frame t : f (flushValidationBuffer t) = f t.
Proof.
  unfold flushValidationBuffer. destruct (validationBuffer t); [easy |].
  apply frame_validation.
Qed.

Lemma preserves_captureValidation msg b : Preserves f (captureValidation msg b).
Proof.
  apply preserves_modify. intros t. cbv beta zeta.
  destruct (b || _); [rewrite flush_frame |]; apply frame_validation.
Qed.

Lemma preserves_logExecution msg : Preserves f (logExecution msg).
Proof. apply preserves_modify. intros t. apply frame_executionLog. Qed.

Lemma preserves_logError msg e : Preserves f (logError msg e).
Proof. apply preserves_modify. intros t. apply frame_errorLog. Qed.

Lemma preserves_drive {A} c (g : W -> outcome A * W) : Preserves f (drive c g).
Proof.
  intros t. unfold drive. destruct (driver t); [| easy].
  destruct (g (world t)) as [r w]. simpl.
  now rewrite frame_world, frame_calls.
Qed.

Lemma preserves_delay ms : Preserves f (delay drv ms).
Proof. apply preserves_modify. intros t. apply frame_world. Qed.

Lemma preserves_setRetryCount name n : Preserves f (setRetryCount name n).
Proof. apply preserves_modify. intros t. apply frame_retryCounts. Qed.

Lemma preserves_setOperation o : Preserves f (modify (set_currentOperation o)).
Proof. apply preserves_modify. intros t. apply frame_currentOperation. Qed.

Hint Resolve preserves_captureValidation preserves_logExecution
  preserves_logError preserves_drive preserves_delay
  preserves_setRetryCount preserves_setOperation : preserves.

Lemma preserves_performRecovery name : Preserves f (performRecovery drv name).
Proof.
  unfold performRecovery. repeat case_decide; auto with preserves.
Qed.

Lemma preserves_retryLoop {A} name (op : M (Tester W) A) m :
  Preserves f op -> forall remaining attempt,
  Preserves f (retryLoop drv name op m remaining attempt).
Proof.
  intros Hop. induction remaining as [| r IH]; intros attempt; simpl.
  - apply preserves_throw.
  - pose proof (preserves_performRecovery name).
    apply preserves_bind; [auto with preserves |]. intros _.
    apply preserves_bind.
    + unfold onSuccess, onFailure.
      apply preserves_try_catch; auto 10 with preserves.
    + intros [a |]; auto with preserves.
Qed.

Lemma preserves_executeWithRetry {A} name (op : M (Tester W) A) m :
  Preserves f op -> Preserves f (executeWithRetry drv name op m).
Proof.
  intros Hop. unfold executeWithRetry.
  apply preserves_bind; [auto with preserves |].
  intros _. now apply preserves_retryLoop.
Qed.

Hint Resolve preserves_executeWithRetry : preserves.

Lemma preserves_getDropdownOptions el i :
  Preserves f (getDropdownOptions drv el i).
Proof.
  unfold getDropdownOptions. apply preserves_executeWithRetry.
  apply preserves_bind; [auto with preserves |].
  intros [| o l]; auto with preserves.
Qed.

Lemma preserves_selectDropdownOption el o i :
  Preserves f (selectDropdownOption drv el o i).
Proof.
  unfold selectDropdownOption. apply preserves_executeWithRetry.
  apply preserves_bind; [auto with preserves |].
  intros [|]; simpl; [| auto with preserves].
  apply preserves_bind; [auto with preserves |]. intros _.
  apply preserves_bind; [auto with preserves |].
  intros [|]; simpl; auto with preserves.
Qed.

Hint Resolve preserves_getDropdownOptions preserves_selectDropdownOption
  : preserves.

Lemma preserves_resetNextDropdowns els k :
  Preserves f (resetNextDropdowns drv els k).
Proof.
  unfold resetNextDropdowns. apply preserves_for_each. intros i el.
  unfold resetDropdown.
  apply preserves_try_catch; [| auto with preserves].
  apply preserves_bind; [auto with preserves |]. intros opts.
  destruct (defaultOption opts); auto with preserves.
Qed.

Lemma preserves_detectTiles : Preserves f (detectTilesOnNationwidePage drv).
Proof. unfold detectTilesOnNationwidePage. auto with preserves. Qed.

Lemma preserves_validateNoResultsMessage :
  Preserves f (validateNoResultsMessage drv).
Proof. unfold validateNoResultsMessage. auto with preserves. Qed.

Hint Resolve preserves_detectTiles preserves_validateNoResultsMessage
  preserves_resetNextDropdowns : preserves.

Lemma preserves_validateTileCount n : Preserves f (validateTileCount drv n).
Proof.
  unfold validateTileCount. apply preserves_executeWithRetry.
  repeat preserves_step.
  apply preserves_bind.
  - destruct (_ && _); [| auto with preserves].
    repeat preserves_step.
    destruct (_ <? _)%nat; auto with preserves.
  - intros ?. auto with preserves.
Qed.

Lemma preserves_validateSortBy n sel tv :
  Preserves f (validateSortByForVisibleTiles drv n sel tv).
Proof.
  unfold validateSortByForVisibleTiles. apply preserves_executeWithRetry.
  preserves_step.
  apply preserves_bind.
  - destruct (_ && _); [| auto with preserves].
    preserves_step.
    destruct (_ && _); auto with preserves.
  - intros [r |]; [auto with preserves |].
    destruct (_ && _); [auto with preserves |].
    destruct (_ <? _)%nat; [auto with preserves |].
    repeat preserves_step.
    destruct (negb _); auto with preserves.
Qed.

Hint Resolve preserves_validateTileCount preserves_validateSortBy
  : preserves.

Lemma preserves_verifySelections sel els :
  Preserves (fun ls : CombinationResult * Tester W => f (snd ls))
    (verifySelections drv sel els).
Proof.
  unfold verifySelections. apply preserves_for_each. intros i o.
  unfold verifySelection.
  apply preserves_bind; [auto with preserves |].
  intros [|]; simpl; auto with preserves.
Qed.

Lemma preserves_observe sel els n :
  Preserves (fun ls : CombinationResult * Tester W => f (snd ls))
    (observe drv sel els n).
Proof.
  unfold observe. pose proof (preserves_verifySelections sel els).
  repeat preserves_step. auto with preserves.
Qed.
End PreservesEngine.

(** ** The classifier *)

Section Classifier.
Context {W : Type} (drv : Driver W).

#[local] Abbreviation T := (Tester W).

(** A log entry written while a local variable is live. *)
Lemma lift_capture {L : Type} msg b (l : L) (t : T) :
  lift (captureValidation msg b) (l, t) =
  (Ok tt, (l, snd (captureValidation msg b t))).
Proof. reflexivity. Qed.

(** Every branch of the verdict has the same shape: the result is
    updated, the run is counted as passed, the outcome is logged. *)
Lemma verdict_branch (g : CombinationResult -> CombinationResult) msg r (t : T) :
  (local g >> lift (incTotal >> incPassed) >>
   lift (captureValidation msg true)) (r, t) =
  (Ok tt,
   (g r,
    snd (captureValidation msg true
           (set_counters (totalTests t + 1) (passedTests t + 1)
              (failedTests t) t)))).
Proof. reflexivity. Qed.

Lemma classify_spec n tv r (t : T) :
  exists r' t',
    classify n tv (r, t) = (Ok tt, (r', t')) /\
    counters t' = (totalTests t + 1, passedTests t + 1, failedTests t) /\
    r_status r' = "PASSED" /\
    r_options r' = r_options r /\
    r_sortByValidation r' = r_sortByValidation r /\
    tileStatus r' = option_map (fun _ => tileVerdict tv) (r_tileCount r).
Proof.
  unfold classify, tileVerdict. cbv zeta.
  destruct (0 <? tv_visible tv)%nat;
    [| destruct (tv_hasNoResultsMessage tv) eqn:Hmsg; simpl;
       [destruct (tv_noResultsElement tv) as [e |]; simpl;
          [destruct (includes (nre_text e) canonicalNoResults) |] |]];
    rewrite verdict_branch; eexists _, _; (split; [reflexivity |]);
    (split; [apply (preserves_captureValidation counters) |]);
    repeat split; unfold tileStatus, set_tileStatus; simpl;
    now destruct (r_tileCount r).
Qed.

Lemma recordFailure_spec n e r (t : T) :
  exists t',
    recordFailure n e (r, t) =
      (Ok tt, (set_tileStatus "ERROR" (set_error (Some e) (set_status "FAILED" r)), t')) /\
    counters t' = (totalTests t + 1, passedTests t, failedTests t + 1).
Proof.
  eexists. split; [reflexivity |].
  apply (preserves_captureValidation counters).
Qed.

(** The observation either hands an observation of the tiles to the
    verdict or throws; the run-wide counters are not touched by it. *)
Lemma testSingleCombination_ok sel els n (t : T) tv r1 t1 :
  observe drv sel els n (initialResult n, t) = (Ok tv, (r1, t1)) ->
  exists r' t',
    testSingleCombination drv sel els n t = (Ok r', t') /\
    counters t' = (totalTests t + 1, passedTests t + 1, failedTests t) /\
    r_status r' = "PASSED" /\
    r_options r' = r_options r1 /\
    r_sortByValidation r' = r_sortByValidation r1 /\
    tileStatus r' = option_map (fun _ => tileVerdict tv) (r_tileCount r1).
Proof.
  intros Hobs.
  destruct (classify_spec n tv r1 t1) as (r' & t2 & Hc & Hcnt & Hst & Hopt & Hsort & Htile).
  pose proof (preserves_observe drv counters sel els n (initialResult n, t)) as Hfr.
  rewrite Hobs in Hfr. simpl in Hfr.
  unfold testSingleCombination.
  erewrite bind_ok.
  2:{ unfold with_local. erewrite try_catch_ok.
      2:{ erewrite bind_ok by exact Hobs. erewrite bind_ok by exact Hc.
          apply lift_capture. }
      reflexivity. }
  eexists _, _. split; [reflexivity |].
  split.
  - rewrite (preserves_captureValidation counters). rewrite Hcnt.
    unfold counters in Hfr. now inversion Hfr.
  - now repeat split.
Qed.

Lemma testSingleCombination_throw sel els n (t : T) e r1 t1 :
  observe drv sel els n (initialResult n, t) = (Throw e, (r1, t1)) ->
  exists t',
    testSingleCombination drv sel els n t =
      (Ok (set_tileStatus "ERROR" (set_error (Some e) (set_status "FAILED" r1))), t') /\
    counters t' = (totalTests t + 1, passedTests t, failedTests t + 1).
Proof.
  intros Hobs.
  destruct (recordFailure_spec n e r1 t1) as (t2 & Hr & Hcnt).
  pose proof (preserves_observe drv counters sel els n (initialResult n, t)) as Hfr.
  rewrite Hobs in Hfr. simpl in Hfr.
  unfold testSingleCombination.
  erewrite bind_ok.
  2:{ unfold with_local. erewrite try_catch_throw.
      2:{ erewrite bind_throw by exact Hobs. reflexivity. }
      rewrite Hr. reflexivity. }
  eexists. split; [reflexivity |].
  rewrite Hcnt. unfold counters in Hfr. now inversion Hfr.
Qed.

(** The classifier always returns a result. *)
Lemma testSingleCombination_total sel els n (t : T) :
  exists r t', testSingleCombination drv sel els n t = (Ok r, t').
Proof.
  destruct (observe drv sel els n (initialResult n, t)) as [[tv | e] [r1 t1]] eqn:Hobs.
  - destruct (testSingleCombination_ok _ _ _ _ _ _ _ Hobs) as (r' & t' & H & _). eauto.
  - destruct (testSingleCombination_throw _ _ _ _ _ _ _ Hobs) as (t' & H & _). eauto.
Qed.

(** When the observation succeeds, it has recorded a tile count. *)
Lemma observe_tileCount sel els n s tv r1 (t1 : T) :
  observe drv sel els n s = (Ok tv, (r1, t1)) ->
  exists tc, r_tileCount r1 = Some tc.
Proof.
  unfold observe. intros H.
  unfold bind at 1 in H.
  destruct (verifySelections drv sel els s) as [[[] | e] s1]; [| discriminate].
  unfold bind at 1 in H.
  destruct (lift (validateTileCount drv n) s1) as [[tv' | e] [r2 t2]]; [| discriminate].
  unfold bind at 1 in H. simpl in H.
  unfold bind at 1 in H. simpl in H.
  unfold bind at 1 in H.
  destruct (lift (validateSortByForVisibleTiles drv n sel tv') _) as [[sv | e] [r3 t3]] eqn:Hs;
    [| discriminate].
  unfold lift in Hs. simpl in Hs.
  destruct (validateSortByForVisibleTiles drv n sel tv' t2) as [[sv' | e] t4];
    inversion Hs; subst.
  simpl in H. inversion H; subst. simpl. eauto.
Qed.
End Classifier.

(** A loop over two lists in a row. *)
Lemma for_each_app {St A : Type} (body : nat -> A -> M St unit) l1 l2 :
  forall k s,
    for_each body k (l1 ++ l2) s =
    (for_each body k l1 >> for_each body (k + length l1) l2) s.
Proof.
  induction l1 as [| x l1 IH]; intros k s; simpl.
  - now rewrite Nat.add_0_r.
  - unfold bind. destruct (body k x s) as [[[] | e] s1]; [| reflexivity].
    rewrite IH. unfold bind. now rewrite Nat.add_succ_comm.
Qed.

(** A value read back different from the assigned one makes the
    re-verification throw, at the first dropdown where it happens. *)
Lemma verifySelections_mismatch {W : Type} (drv : Driver W) (els : list Elem)
    pre o post r (t : Tester W) r1 t1 :
  for_each (verifySelection drv els) 0 pre (r, t) = (Ok tt, (r1, t1)) ->
  driver t1 = true ->
  fst (drv_verify drv (els !! length pre) (opt_value o) (world t1)) = Ok false ->
  exists s',
    verifySelections drv (pre ++ o :: post) els (r, t) =
    (Throw ("Verification failed for dropdown " +:+ pretty (length pre + 1) +:+
            ". Expected: " +:+ opt_value o), s').
Proof.
  intros Hpre Hdrv Hv. unfold verifySelections.
  rewrite for_each_app. erewrite bind_ok by exact Hpre. simpl.
  unfold bind at 1, verifySelection, bind at 1, lift, drive. simpl.
  rewrite Hdrv.
  destruct (drv_verify drv (els !! length pre) (opt_value o) (world t1)) as [[b | e] w];
    simpl in *; [| discriminate].
  injection Hv as ->. simpl. eauto.
Qed.

(** C2: for every applied combination the classifier returns a result.
    It is FAILED exactly when the observation (re-verification of the
    dropdowns, tile observation, sort-by validation) throws, which a value
    read back different from the assigned one makes it do.  With no visible
    tile and a message that contains the canonical sentence the result is
    the no-results-expected passing verdict, and with no visible tile and no
    message it is the no-visible-tiles passing verdict. *)
Theorem classifier_verdicts {W : Type} (drv : Driver W) sel (els : list Elem) n
    (t : Tester W) :
  exists r t',
    testSingleCombination drv sel els n t = (Ok r, t') /\
    (verdict_of r = Some FAILED <->
       exists e s, observe drv sel els n (initialResult n, t) = (Throw e, s)) /\
    (forall pre o post r1 t1,
       sel = pre ++ o :: post ->
       for_each (verifySelection drv els) 0 pre (initialResult n, t) =
         (Ok tt, (r1, t1)) ->
       driver t1 = true ->
       fst (drv_verify drv (els !! length pre) (opt_value o) (world t1)) = Ok false ->
       verdict_of r = Some FAILED /\
       r_error r =
         Some ("Verification failed for dropdown " +:+ pretty (length pre + 1) +:+
               ". Expected: " +:+ opt_value o)) /\
    (forall tv s,
       observe drv sel els n (initialResult n, t) = (Ok tv, s) ->
       tv_visible tv = 0 ->
       (tv_hasNoResultsMessage tv = true ->
        includes (elementText (tv_noResultsElement tv)) canonicalNoResults = true ->
        verdict_of r = Some PASSED_NO_RESULTS_EXPECTED) /\
       (tv_hasNoResultsMessage tv = false ->
        verdict_of r = Some PASSED_NO_VISIBLE_TILES)).
Proof.
  destruct (observe drv sel els n (initialResult n, t)) as [[tv | e] [r1 t1]] eqn:Hobs.
  - destruct (testSingleCombination_ok drv _ _ _ _ _ _ _ Hobs)
      as (r & t' & Hrun & _ & Hst & _ & _ & Htile).
    destruct (observe_tileCount drv _ _ _ _ _ _ _ Hobs) as [tc Htc].
    rewrite Htc in Htile. simpl in Htile.
    exists r, t'. split; [exact Hrun |].
    assert (Hnf : verdict_of r <> Some FAILED).
    { unfold verdict_of. rewrite Hst, Htile. simpl.
      repeat match goal with |- context [if ?b then _ else _] => destruct b end;
        discriminate. }
    split; [| split].
    + split; [intros H; now apply Hnf in H |].
      intros (e & s & H). discriminate.
    + intros pre o post r2 t2 -> Hpre Hdrv Hv. exfalso.
      destruct (verifySelections_mismatch drv els pre o post _ _ _ _ Hpre Hdrv Hv)
        as (s' & Hthrow).
      unfold observe in Hobs.
      erewrite bind_throw in Hobs by exact Hthrow. discriminate.
    + intros tv' s' Heq Hvis. injection Heq as <- <-.
      unfold verdict_of. rewrite Hst, Htile. unfold tileVerdict. rewrite Hvis.
      split.
      * intros -> ->. reflexivity.
      * intros ->. reflexivity.
  - destruct (testSingleCombination_throw drv _ _ _ _ _ _ _ Hobs) as (t' & Hrun & _).
    eexists _, t'. split; [exact Hrun |].
    split; [| split].
    + split; [eauto | reflexivity].
    + intros pre o post r2 t2 -> Hpre Hdrv Hv. split; [reflexivity |].
      destruct (verifySelections_mismatch drv els pre o post _ _ _ _ Hpre Hdrv Hv)
        as (s' & Hthrow).
      unfold observe in Hobs.
      erewrite bind_throw in Hobs by exact Hthrow.
      injection Hobs as <- _. reflexivity.
    + intros tv s H. discriminate.
Qed.

(** C10: every call to [testSingleCombination] returns a result, adds one
    to [totalTests] and one to exactly one of [passedTests] (the result is
    PASSED) and [failedTests] (the result is FAILED); so
    totalTests = passedTests + failedTests is kept on both paths. *)
Theorem testSingleCombination_counts {W : Type} (drv : Driver W) sel els n
    (t : Tester W) :
  exists r t',
    testSingleCombination drv sel els n t = (Ok r, t') /\
    totalTests t' = totalTests t + 1 /\
    ((r_status r = "PASSED" /\
      passedTests t' = passedTests t + 1 /\ failedTests t' = failedTests t) \/
     (r_status r = "FAILED" /\
      passedTests t' = passedTests t /\ failedTests t' = failedTests t + 1)) /\
    (totalTests t = passedTests t + failedTests t ->
     totalTests t' = passedTests t' + failedTests t').
Proof.
  destruct (observe drv sel els n (initialResult n, t)) as [[tv | e] [r1 t1]] eqn:Hobs.
  - destruct (testSingleCombination_ok drv _ _ _ _ _ _ _ Hobs)
      as (r & t' & Hrun & Hcnt & Hst & _).
    exists r, t'. unfold counters in Hcnt. injection Hcnt as Ht Hp Hf.
    split; [exact Hrun |]. split; [exact Ht |]. split; [left; auto | lia].
  - destruct (testSingleCombination_throw drv _ _ _ _ _ _ _ Hobs)
      as (t' & Hrun & Hcnt).
    eexists _, t'. unfold counters in Hcnt. injection Hcnt as Ht Hp Hf.
    split; [exact Hrun |]. split; [exact Ht |]. split; [right; auto | lia].
Qed.

(** C8: with exactly one visible tile, the sort-by validation returns at
    once, on its first attempt, the status NOT_APPLICABLE with the
    insufficient-tiles reason; it makes no call on the driver (so the page
    script that compares the titles does not run), and its status is not
    one the report counts as a failure. *)
Theorem sort_validation_single_tile {W : Type} (drv : Driver W) n sel tv
    (t : Tester W) :
  tv_visible tv = 1 ->
  exists sv t',
    validateSortByForVisibleTiles drv n sel tv t = (Ok sv, t') /\
    sv_status sv = "NOT_APPLICABLE" /\
    sv_reason sv = Some insufficientTilesReason /\
    sv_tilesToSort sv = 1 /\
    sv_applicable sv = false /\
    sortFailure (sv_status sv) = false /\
    calls t' = calls t /\
    world t' = world t.
Proof.
  intros Hvis.
  unfold validateSortByForVisibleTiles, executeWithRetry. rewrite Hvis.
  destruct (tv_hasNoResultsMessage tv), (isProblematicCombo sel);
    eexists _, _; (split; [reflexivity |]); now repeat split.
Qed.

(** The verdicts on three pages: no tile with the canonical message, no
    tile and no message, and a first dropdown that reads back empty. *)
Lemma classifier_verdicts_witness :
  (exists r, fst (testSingleCombination Pages.messagePage [Pages.optA; Pages.optX]
                    [0; 1] 1 (Pages.fresh (Pages.values ["a"; "x"]))) = Ok r /\
             verdict_of r = Some PASSED_NO_RESULTS_EXPECTED) /\
  (exists r, fst (testSingleCombination Pages.emptyPage [Pages.optA; Pages.optX]
                    [0; 1] 1 (Pages.fresh (Pages.values ["a"; "x"]))) = Ok r /\
             verdict_of r = Some PASSED_NO_VISIBLE_TILES) /\
  (exists r, fst (testSingleCombination Pages.emptyPage [Pages.optA; Pages.optX]
                    [0; 1] 1 (Pages.fresh (Pages.values [EmptyString; "x"]))) = Ok r /\
             verdict_of r = Some FAILED).
Proof.
  split; [| split].
  - destruct (classifier_verdicts Pages.messagePage [Pages.optA; Pages.optX]
                [0; 1] 1 (Pages.fresh (Pages.values ["a"; "x"]))) as (r & t' & Hrun & _ & _ & Hobs).
    exists r. rewrite Hrun. split; [reflexivity |].
    eapply Hobs; [vm_compute; reflexivity | reflexivity | reflexivity |].
    vm_compute; reflexivity.
  - destruct (classifier_verdicts Pages.emptyPage [Pages.optA; Pages.optX]
                [0; 1] 1 (Pages.fresh (Pages.values ["a"; "x"]))) as (r & t' & Hrun & _ & _ & Hobs).
    exists r. rewrite Hrun. split; [reflexivity |].
    eapply Hobs; [vm_compute; reflexivity | reflexivity | reflexivity].
  - destruct (classifier_verdicts Pages.emptyPage [Pages.optA; Pages.optX]
                [0; 1] 1 (Pages.fresh (Pages.values [EmptyString; "x"]))) as (r & t' & Hrun & _ & Hmis & _).
    exists r. rewrite Hrun. split; [reflexivity |].
    apply (Hmis [] Pages.optA [Pages.optX] _ _ eq_refl eq_refl); reflexivity.
Defined.

(** The invariant of the counters, on a concrete run. *)
Lemma testSingleCombination_counts_witness :
  exists r t',
    testSingleCombination Pages.emptyPage [Pages.optA; Pages.optX] [0; 1] 1
      (Pages.fresh (Pages.values ["a"; "x"])) = (Ok r, t') /\
    totalTests t' = 1 /\ totalTests t' = passedTests t' + failedTests t'.
Proof.
  destruct (testSingleCombination_counts Pages.emptyPage [Pages.optA; Pages.optX]
              [0; 1] 1 (Pages.fresh (Pages.values ["a"; "x"]))) as (r & t' & Hrun & Ht & _ & Hinv).
  exists r, t'. split; [exact Hrun |]. split; [exact Ht |].
  apply Hinv. reflexivity.
Defined.

Lemma sort_validation_single_tile_witness :
  tv_visible Pages.oneTile = 1 /\
  exists sv t',
    validateSortByForVisibleTiles Pages.emptyPage 1 [Pages.optA; Pages.optX]
      Pages.oneTile (Pages.fresh (Pages.values ["a"; "x"])) = (Ok sv, t') /\
    sv_status sv = "NOT_APPLICABLE" /\
    sv_reason sv = Some insufficientTilesReason /\
    sv_tilesToSort sv = 1 /\
    sv_applicable sv = false /\
    sortFailure (sv_status sv) = false /\
    calls t' = calls (Pages.fresh (Pages.values ["a"; "x"])) /\
    world t' = world (Pages.fresh (Pages.values ["a"; "x"])).
Proof.
  split; [reflexivity |].
  apply (sort_validation_single_tile Pages.emptyPage 1 [Pages.optA; Pages.optX]
           Pages.oneTile (Pages.fresh (Pages.values ["a"; "x"]))).
  reflexivity.
Defined.

(** ** The stuck-state monitor *)

Section Monitor.
Context {W : Type} (drv : Driver W).

#[local] Abbreviation T := (Tester W).

(** An immediate capture flushes the buffer together with the new
    entry. *)
Lemma capture_immediate msg (t : T) :
  captureValidation msg true t =
  (Ok tt,
   set_validation []
     (validationLog t ++ validationBuffer t ++
      [mkEntry msg (currentOperation t)]) t).
Proof.
  unfold captureValidation, modify. f_equal. simpl.
  unfold flushValidationBuffer. simpl.
  destruct (validationBuffer t); reflexivity.
Qed.

Lemma hardRestart_spec (t : T) :
  exists t',
    hardRestart drv t = (Ok tt, t') /\
    validationBuffer t' = [] /\
    validationLog t' =
      validationLog t ++ validationBuffer t ++
      [mkEntry "INITIATING HARD RESTART" (currentOperation t);
       mkEntry "Restart complete" (currentOperation t)] /\
    calls t' = calls t ++ (if driver t then [CQuit] else []) /\
    retryCounts t' = retryCounts t /\
    isRecovering t' = isRecovering t /\
    driver t' = driver t.
Proof.
  unfold hardRestart.
  erewrite bind_ok by apply capture_immediate.
  unfold bind at 1, modify at 1, flushValidationBuffer. simpl.
  unfold bind at 1, bind at 1, gets. simpl.
  destruct (driver t) eqn:Hd; simpl.
  - unfold try_catch, drive. simpl. rewrite Hd.
    destruct (drv_quit drv (world t)) as [[[] | e] w]; simpl;
      rewrite capture_immediate; eexists; (split; [reflexivity |]); simpl;
      rewrite <- !app_assoc; now repeat split.
  - rewrite capture_immediate. eexists. split; [reflexivity |]. simpl.
    rewrite <- !app_assoc, app_nil_r. now repeat split.
Qed.

Lemma beginRecovery_spec (t : T) :
  beginRecovery t =
  (Ok tt,
   set_validation []
     (validationLog t ++ validationBuffer t ++
      [mkEntry "Attempting stuck recovery" (currentOperation t)])
     (set_retryCounts
        (<["stuckRecovery" := retryCount "stuckRecovery" t + 1]> (retryCounts t))
        (set_isRecovering true t))).
Proof.
  unfold beginRecovery, bind, modify, gets, setRetryCount, modify.
  cbv beta iota. now rewrite capture_immediate.
Qed.

(** The soft recovery touches the session and, when it succeeds, the
    validation log; nothing else. *)
Lemma softRecovery_spec (t : T) :
  validationBuffer t = [] ->
  exists r t2,
    softRecovery drv t = (r, t2) /\
    retryCounts t2 = retryCounts t /\
    isRecovering t2 = isRecovering t /\
    currentOperation t2 = currentOperation t /\
    driver t2 = driver t /\
    validationBuffer t2 = [] /\
    validationLog t2 =
      validationLog t ++
      (if isThrow r then []
       else [mkEntry "Recovery successful" (currentOperation t)]).
Proof.
  intros Hbuf. unfold softRecovery, bind, gets. cbv beta iota.
  destruct (operationIncludes "navigation" t);
    [| destruct (operationIncludes "dropdown" t)];
    unfold drive, ret; destruct (driver t) eqn:Hd;
    try destruct (drv_refresh drv (world t)) as [[[] | e] w];
    try destruct (drv_exec drv scrollToTop (world t)) as [[[] | e'] w'];
    cbv beta iota; unfold delay, modify; cbv beta iota;
    try rewrite capture_immediate;
    eexists _, _; (split; [reflexivity |]); simpl;
    rewrite ?Hbuf, ?Hd, ?app_nil_r; now repeat split.
Qed.

Lemma retryCount_insert_eq name n (rc : gmap string nat) (t : T) :
  retryCounts t = <[name := n]> rc -> retryCount name t = n.
Proof. intros H. unfold retryCount. now rewrite H, lookup_insert_eq. Qed.

End Monitor.


(** A recovery already running makes a second one a no-op. *)
Lemma recoverFromStuckState_reentrant {W : Type} (drv : Driver W) (t : Tester W) :
  isRecovering t = true -> recoverFromStuckState drv t = (Ok tt, t).
Proof.
  intros H. unfold recoverFromStuckState, bind, gets. now rewrite H.
Qed.


(** ** The retry executor *)

Section Retry.
Context {W : Type} (drv : Driver W).

#[local] Abbreviation T := (Tester W).

(** One failed attempt: the [catch] block decides how the loop goes on. *)
Lemma retryLoop_failed {A : Type} name (op : M T A) m r attempt (t : T) e s1 :
  op (set_executionLog (executionLog t ++ [attemptLine name m attempt]) t) =
    (Throw e, s1) ->
  retryLoop drv name op m (S r) attempt t =
  match onFailure (A := A) drv name m attempt e s1 with
  | (Ok (Some a), s2) => (Ok a, s2)
  | (Ok None, s2) => retryLoop drv name op m r (S attempt) s2
  | (Throw e', s2) => (Throw e', s2)
  end.
Proof.
  intros Hop. cbn [retryLoop]. unfold bind at 1, logExecution, modify.
  unfold bind at 1. erewrite try_catch_throw.
  2:{ erewrite bind_throw by exact Hop. reflexivity. }
  now destruct (onFailure drv name m attempt e s1) as [[[a |] | e'] s2].
Qed.

Lemma onSuccess_spec {A : Type} name attempt (v : A) (s1 : T) :
  exists s2,
    onSuccess name attempt v s1 = (Ok (Some v), s2) /\
    retryCounts s2 = <[name := 0]> (retryCounts s1) /\
    world s2 = world s1 /\ calls s2 = calls s1 /\ driver s2 = driver s1.
Proof.
  unfold onSuccess, when. destruct (1 <? attempt)%nat.
  - erewrite bind_ok by apply capture_immediate.
    eexists. split; [reflexivity |]. now repeat split.
  - eexists. split; [reflexivity |]. now repeat split.
Qed.

(** One successful attempt ends the loop. *)
Lemma retryLoop_succeeded {A : Type} name (op : M T A) m r attempt (t : T) v s1 :
  op (set_executionLog (executionLog t ++ [attemptLine name m attempt]) t) =
    (Ok v, s1) ->
  exists s2,
    retryLoop drv name op m (S r) attempt t = (Ok v, s2) /\
    retryCounts s2 = <[name := 0]> (retryCounts s1) /\
    world s2 = world s1 /\ calls s2 = calls s1 /\ driver s2 = driver s1.
Proof.
  intros Hop.
  destruct (onSuccess_spec name attempt v s1) as (s2 & Hon & Hprops).
  exists s2. split; [| exact Hprops].
  cbn [retryLoop]. unfold bind at 1, logExecution, modify.
  unfold bind at 1. erewrite try_catch_ok.
  2:{ erewrite bind_ok by exact Hop. exact Hon. }
  reflexivity.
Qed.

(** When the recovery only waits, the [catch] block cannot throw: it
    adds one to the count of the operation and lets the loop go on. *)
Lemma onFailure_quiet {A : Type} name m attempt e (s : T) :
  quietRecovery name ->
  exists s',
    onFailure (A := A) drv name m attempt e s = (Ok None, s') /\
    retryCounts s' = <[name := retryCount name s + 1]> (retryCounts s) /\
    driver s' = driver s /\ calls s' = calls s /\
    world s' =
      (if (attempt <? m)%nat
       then drv_elapse drv 2000 (drv_elapse drv (backoff attempt) (world s))
       else world s).
Proof.
  intros [Hnav Hdd]. unfold onFailure, performRecovery.
  destruct (decide (name = "navigation")); [contradiction |].
  destruct (decide (name = "dropdownFinding")); [contradiction |].
  destruct (attempt <? m)%nat; eexists; (split; [reflexivity |]);
    now repeat split.
Qed.

(** In general the [catch] block adds one to the count of the operation
    before anything in it can throw. *)
Lemma onFailure_counts {A : Type} name m attempt e (s : T) :
  retryCount name (snd (onFailure (A := A) drv name m attempt e s)) =
  retryCount name s + 1.
Proof.
  unfold onFailure.
  unfold bind at 1. unfold bind at 1, gets at 1, setRetryCount at 1, modify at 1.
  cbv beta iota.
  set (s1 := set_retryCounts _ s).
  assert (H1 : retryCount name s1 = retryCount name s + 1).
  { unfold retryCount, s1. cbn. now rewrite lookup_insert_eq. }
  rewrite <- H1.
  apply (preserves_bind (retryCount name)).
  - apply preserves_modify. reflexivity.
  - intros _. apply preserves_bind; [| intros; apply preserves_ret].
    apply preserves_when. apply preserves_bind.
    + apply preserves_modify. reflexivity.
    + intros _. unfold performRecovery, drive, delay, modify.
      repeat case_decide; intros s'; unfold bind;
        repeat match goal with
               | |- context [driver ?x] => destruct (driver x)
               | |- context [match ?f (world ?x) with _ => _ end] =>
                   destruct (f (world x)) as [[[] | ?] ?]
               end; reflexivity.
Qed.

(** An operation that always fails, under a name whose recovery only
    waits: after [remaining] attempts the loop gives up with the
    exhaustion error, and every attempt has added one to the count. *)
Lemma retryLoop_always_failing {A : Type} name (op : M T A) m :
  quietRecovery name ->
  (forall s, isThrow (fst (op s)) = true) ->
  Preserves (retryCount name) op ->
  forall remaining attempt (t : T),
    fst (retryLoop drv name op m remaining attempt t) =
      Throw (name +:+ " failed after " +:+ pretty m +:+ " attempts") /\
    retryCount name (snd (retryLoop drv name op m remaining attempt t)) =
      retryCount name t + remaining.
Proof.
  intros Hq Hfail Hpres. induction remaining as [| r IH]; intros attempt t.
  - cbn. split; [reflexivity | lia].
  - set (t0 := set_executionLog (executionLog t ++ [attemptLine name m attempt]) t).
    pose proof (Hfail t0) as Hf. pose proof (Hpres t0) as Hp.
    destruct (op t0) as [[a | e] s1] eqn:Hop; [discriminate |].
    rewrite (retryLoop_failed _ _ _ _ _ _ _ _ Hop).
    destruct (onFailure_quiet (A := A) name m attempt e s1 Hq)
      as (s2 & Hon & Hrc & _).
    rewrite Hon. destruct (IH (S attempt) s2) as [Hres Hcnt].
    split; [exact Hres |]. rewrite Hcnt.
    unfold retryCount at 1. rewrite Hrc, lookup_insert_eq. cbn in Hp.
    rewrite Hp. unfold t0, retryCount. cbn. lia.
Qed.

Lemma executeWithRetry_always_failing {A : Type} name (op : M T A) m (t : T) :
  quietRecovery name ->
  (forall s, isThrow (fst (op s)) = true) ->
  Preserves (retryCount name) op ->
  fst (executeWithRetry drv name op m t) =
    Throw (name +:+ " failed after " +:+ pretty m +:+ " attempts") /\
  retryCount name (snd (executeWithRetry drv name op m t)) =
    retryCount name t + m.
Proof.
  intros Hq Hfail Hpres.
  exact (retryLoop_always_failing name op m Hq Hfail Hpres m 1
           (set_currentOperation (Some name) t)).
Qed.

(** A value is only ever returned by the operation itself. *)
Lemma retryLoop_returns {A : Type} name (op : M T A) m :
  forall remaining attempt (t : T) v t',
    retryLoop drv name op m remaining attempt t = (Ok v, t') ->
    exists s s', op s = (Ok v, s').
Proof.
  induction remaining as [| r IH]; intros attempt t v t' H; [discriminate |].
  set (t0 := set_executionLog (executionLog t ++ [attemptLine name m attempt]) t).
  destruct (op t0) as [[a | e] s1] eqn:Hop.
  - destruct (retryLoop_succeeded name op m r attempt t a s1 Hop) as (s2 & Hrun & _).
    rewrite Hrun in H. injection H as -> _. eauto.
  - rewrite (retryLoop_failed _ _ _ _ _ _ _ _ Hop) in H.
    destruct (onFailure drv name m attempt e s1) as [[[a |] | e'] s2] eqn:Hon.
    + unfold onFailure in Hon. unfold bind in Hon.
      repeat match type of Hon with
             | context [match ?x with _ => _ end] => destruct x as [[? | ?] ?]
             end; discriminate.
    + eauto.
    + discriminate.
Qed.
End Retry.

(** *** Operations that count their invocations *)

Section CountingOperations.
Import Pages.

Lemma alwaysFails_invoked c name m :
  quietRecovery name ->
  forall remaining attempt (t : Tester nat),
    world (snd (retryLoop (counting c) name alwaysFails m remaining attempt t)) =
    world t + remaining.
Proof.
  intros Hq. induction remaining as [| r IH]; intros attempt t.
  - cbn. lia.
  - erewrite retryLoop_failed by reflexivity.
    destruct (onFailure_quiet (A := nat) (counting c) name m attempt "timeout"
                (set_world
                   (S (world (set_executionLog
                                (executionLog t ++ [attemptLine name m attempt]) t)))
                   (set_executionLog
                      (executionLog t ++ [attemptLine name m attempt]) t)) Hq)
      as (s2 & Hon & _ & _ & _ & Hw).
    rewrite Hon, IH, Hw. destruct (attempt <? m)%nat; simpl; lia.
Qed.

(** Under a name whose recovery only waits, an operation that always
    fails is invoked exactly [m] times, the executor then fails with an
    error that names the operation, and the count of the operation has
    grown by [m]. *)
Lemma exhaustion_quiet c name m (t : Tester nat) :
  quietRecovery name ->
  let out := executeWithRetry (counting c) name alwaysFails m t in
  fst out = Throw (name +:+ " failed after " +:+ pretty m +:+ " attempts") /\
  world (snd out) = world t + m /\
  retryCount name (snd out) = retryCount name t + m.
Proof.
  intros Hq out.
  destruct (executeWithRetry_always_failing (counting c) name alwaysFails m t Hq)
    as [Hres Hcnt]; [reflexivity | intros s; reflexivity |].
  split; [exact Hres |]. split; [| exact Hcnt].
  exact (alwaysFails_invoked c name m Hq m 1 (set_currentOperation (Some name) t)).
Qed.

Lemma flaky_loop c name k v m :
  quietRecovery name ->
  forall remaining attempt (t : Tester nat),
    world t <= k -> k < world t + remaining ->
    exists t',
      retryLoop (counting c) name (flaky k v) m remaining attempt t = (Ok v, t') /\
      retryCount name t' = 0 /\ world t' = k + 1.
Proof.
  intros Hq. induction remaining as [| r IH]; intros attempt t Hle Hlt; [lia |].
  set (t0 := set_executionLog (executionLog t ++ [attemptLine name m attempt]) t).
  destruct (world t <? k)%nat eqn:Hk.
  - apply Nat.ltb_lt in Hk.
    assert (Hop : flaky k v t0 = (Throw "timeout", set_world (S (world t)) t0)).
    { unfold flaky. change (world t0) with (world t).
      now rewrite (proj2 (Nat.ltb_lt _ _) Hk). }
    rewrite (retryLoop_failed _ _ _ _ _ _ _ _ _ Hop).
    destruct (onFailure_quiet (A := nat) (counting c) name m attempt "timeout"
                (set_world (S (world t)) t0) Hq) as (s2 & Hon & _ & _ & _ & Hw).
    rewrite Hon. apply IH.
    + rewrite Hw. destruct (attempt <? m)%nat; simpl; lia.
    + rewrite Hw. destruct (attempt <? m)%nat; simpl; lia.
  - apply Nat.ltb_ge in Hk. assert (world t = k) as Hwk by lia.
    assert (Hop : flaky k v t0 = (Ok v, set_world (S (world t)) t0)).
    { unfold flaky. change (world t0) with (world t).
      now rewrite Hwk, Nat.ltb_irrefl. }
    destruct (retryLoop_succeeded (counting c) name (flaky k v) m r attempt t v _ Hop)
      as (s2 & Hrun & Hrc & Hw & _).
    exists s2. split; [exact Hrun |]. split.
    + unfold retryCount. now rewrite Hrc, lookup_insert_eq.
    + rewrite Hw. cbn. lia.
Qed.

(** Under a name whose recovery only waits, an operation that fails
    [k < m] times and then returns [v] makes the executor return [v], with
    the count of the operation at 0. *)
Lemma recovery_quiet c name k v m (t : Tester nat) :
  quietRecovery name -> world t = 0 -> k < m ->
  exists t',
    executeWithRetry (counting c) name (flaky k v) m t = (Ok v, t') /\
    retryCount name t' = 0 /\ world t' = k + 1.
Proof.
  intros Hq Hw Hk.
  apply (flaky_loop c name k v m Hq m 1 (set_currentOperation (Some name) t));
    cbn; lia.
Qed.
End CountingOperations.

(** C5 fails on [CompactDropdownTester] for the name [navigation]: with a
    session that cannot delete its cookies, the recovery after the first
    failed attempt throws, the executor has invoked the operation once
    instead of three times, and the error it fails with is the session's,
    which does not name the operation. *)
Theorem navigation_retry_aborts_in_recovery :
  let out :=
    executeWithRetry (Pages.counting false) "navigation" Pages.alwaysFails 3
      (Pages.fresh 0) in
  fst out = Throw "invalid session id" /\
  world (snd out) = 1 /\
  executionLog (snd out) = ["Attempt 1/3: navigation"] /\
  calls (snd out) = [CDeleteCookies].
Proof. vm_compute. now repeat split. Qed.

(** C6 fails on [CompactDropdownTester] for the same reason: an operation
    that would succeed on its second invocation is not invoked again, the
    executor fails instead of returning its value, and the count of the
    operation is left at 1. *)
Theorem navigation_retry_loses_the_success :
  let out :=
    executeWithRetry (Pages.counting false) "navigation" (Pages.flaky 1 7) 3
      (Pages.fresh 0) in
  fst out = Throw "invalid session id" /\
  world (snd out) = 1 /\
  retryCount "navigation" (snd out) = 1.
Proof. vm_compute. now repeat split. Qed.

(** C7 fails on the executor of [dropdown-validator3.js]: the count is
    only incremented when it is already truthy, so from 0 it never moves;
    after two failed attempts it is still 0. *)
Theorem v3_retry_count_stays_zero :
  let out :=
    V3.executeWithRetry (Pages.counting true) "selection" Pages.alwaysFails 2
      (Pages.fresh 0) in
  fst out = Throw "Operation selection failed after 2 attempts: timeout" /\
  world (snd out) = 2 /\
  retryCount "selection" (Pages.fresh 0) = 0 /\
  retryCount "selection" (snd out) = 0.
Proof. vm_compute. now repeat split. Qed.

(** ** The enumerator *)

Section Enumerator.
Context {W : Type} (drv : Driver W).

#[local] Abbreviation T := (Tester W).

Lemma lift_run {L A : Type} (m : M T A) (l : L) (t : T) :
  lift m (l, t) = (fst (m t), (l, snd (m t))).
Proof. unfold lift. cbn. now destruct (m t). Qed.

(** [selectDropdownOption] returns [true] or throws: the branch of the
    enumerator for a falsy value is never taken. *)
Lemma selectDropdownOption_true el o idx (t : T) b t' :
  selectDropdownOption drv el o idx t = (Ok b, t') -> b = true.
Proof.
  unfold selectDropdownOption, executeWithRetry, bind at 1, modify at 1.
  intros H. apply retryLoop_returns in H. destruct H as (s & s' & H).
  unfold bind, drive in H.
  repeat match type of H with
         | context [if ?b then _ else _] => destruct b; cbn in H
         | context [match ?x with _ => _ end] => destruct x as [[? | ?] ?]; cbn in H
         end; try discriminate; now inversion H.
Qed.

(** A reset of one dropdown, and so of all of them, never throws. *)
Lemma resetDropdown_total i el (t : T) : fst (resetDropdown drv i el t) = Ok tt.
Proof.
  unfold resetDropdown, try_catch, bind.
  destruct (getDropdownOptions drv (Some el) i t) as [[opts | e] t1]; [| reflexivity].
  destruct (defaultOption opts) as [d |]; [| reflexivity].
  destruct (selectDropdownOption drv (Some el) d i t1) as [[b | e] t2]; reflexivity.
Qed.

Lemma resetNextDropdowns_total els k (t : T) :
  fst (resetNextDropdowns drv els k t) = Ok tt.
Proof.
  unfold resetNextDropdowns. generalize (drop k els). intros l.
  revert k t. induction l as [| el l IH]; intros k t; [reflexivity |].
  cbn [for_each]. unfold bind.
  pose proof (resetDropdown_total k el t) as H.
  destruct (resetDropdown drv k el t) as [[[] | e] t1]; [| discriminate].
  apply IH.
Qed.
End Enumerator.

(** *** What the classifier records of a selection *)

Section Recording.
Context {W : Type} (drv : Driver W).

#[local] Abbreviation T := (Tester W).

Lemma preserves_lift_fst {L A X : Type} (g : L -> X) (m : M T A) :
  Preserves (fun ls : L * T => g (fst ls)) (lift m).
Proof. intros [l t]. unfold lift. cbn. now destruct (m t). Qed.

Lemma preserves_local_fst {L X : Type} (g : L -> X) (h : L -> L) :
  (forall l, g (h l) = g l) ->
  Preserves (fun ls : L * T => g (fst ls)) (@local L T h).
Proof. intros H [l t]. apply H. Qed.

(** The re-verification appends to [result.options] the dropdowns it has
    verified, in order: all of them when it succeeds. *)
Lemma verifySelections_options (els : list Elem) :
  forall sel k r (t : T) out r' t',
    for_each (verifySelection drv els) k sel (r, t) = (out, (r', t')) ->
    exists p,
      r_options r' = r_options r ++ p /\
      p `prefix_of` recordedFrom k sel /\
      (isThrow out = false -> p = recordedFrom k sel).
Proof.
  induction sel as [| o sel IH]; intros k r t out r' t' H.
  - injection H as <- <- <-. exists []. rewrite app_nil_r. now repeat split.
  - cbn [for_each] in H. unfold bind at 1 in H.
    unfold verifySelection at 1 in H. unfold bind at 1 in H.
    rewrite lift_run in H.
    destruct (drive (CVerify (els !! k) (opt_value o))
                (drv_verify drv (els !! k) (opt_value o)) t) as [[b | e] t1].
    + cbn [fst snd] in H. destruct b; cbn [negb] in H.
      * unfold local at 1 in H. cbn [fst snd] in H.
        apply IH in H. destruct H as (p & Hopt & Hpre & Hall).
        cbn [r_options set_options] in Hopt. rewrite <- app_assoc in Hopt.
        eexists. split; [exact Hopt |]. cbn [recordedFrom app].
        split; [now apply prefix_cons | intros Hok; now rewrite (Hall Hok)].
      * injection H as <- <- <-. exists []. rewrite app_nil_r.
        split; [reflexivity |]. split; [apply prefix_nil | discriminate].
    + cbn [fst snd] in H. injection H as <- <- <-. exists []. rewrite app_nil_r.
      split; [reflexivity |]. split; [apply prefix_nil | discriminate].
Qed.

Lemma observe_options sel (els : list Elem) n r (t : T) out r' t' :
  observe drv sel els n (r, t) = (out, (r', t')) ->
  exists p,
    r_options r' = r_options r ++ p /\
    p `prefix_of` recorded sel /\
    (isThrow out = false -> p = recorded sel).
Proof.
  unfold observe. intros H. unfold bind at 1 in H.
  destruct (verifySelections drv sel els (r, t)) as [[[] | e] [r1 t1]] eqn:Hv.
  - apply verifySelections_options in Hv. destruct Hv as (p & Hopt & Hpre & Hall).
    exists p. split; [| split; [exact Hpre | intros _; now apply Hall]].
    rewrite <- Hopt.
    match type of H with ?m _ = _ =>
      assert (Hp : Preserves (fun ls : CombinationResult * T => r_options (fst ls)) m)
    end.
    { repeat (apply preserves_bind;
                [first [apply preserves_lift_fst
                       | apply preserves_local_fst; reflexivity] | intros ?]).
      apply preserves_ret. }
    specialize (Hp (r1, t1)). rewrite H in Hp. exact Hp.
  - injection H as <- <- <-.
    apply verifySelections_options in Hv. destruct Hv as (p & Hopt & Hpre & _).
    exists p. split; [exact Hopt |]. split; [exact Hpre | discriminate].
Qed.

(** The classifier returns, for every selection, a result that is
    classified for that selection. *)
Lemma testSingleCombination_classified sel (els : list Elem) n (t : T) :
  exists r t',
    testSingleCombination drv sel els n t = (Ok r, t') /\ Classified sel r.
Proof.
  destruct (observe drv sel els n (initialResult n, t)) as [[tv | e] [r1 t1]] eqn:Hobs.
  - destruct (testSingleCombination_ok drv _ _ _ _ _ _ _ Hobs)
      as (r & t' & Hrun & _ & Hst & Hopt & _).
    apply observe_options in Hobs. destruct Hobs as (p & Hp & _ & Hall).
    exists r, t'. split; [exact Hrun |]. left. split; [exact Hst |].
    rewrite Hopt, Hp. cbn. now apply Hall.
  - destruct (testSingleCombination_throw drv _ _ _ _ _ _ _ Hobs) as (t' & Hrun & _).
    apply observe_options in Hobs. destruct Hobs as (p & Hp & Hpre & _).
    eexists _, t'. split; [exact Hrun |]. right. split; [reflexivity |].
    cbn. rewrite Hp. exact Hpre.
Qed.
End Recording.

(** *** Observations the whole enumeration leaves alone *)

Section PreservesEnumeration.
Context {W X : Type} (drv : Driver W) (f : Tester W -> X) `{!Frame f}.
Hypothesis counters_frame_f : forall a b c t, f (set_counters a b c t) = f t.

#[local] Abbreviation T := (Tester W).

Lemma preserves_testSingleCombination sel (els : list Elem) n :
  Preserves f (testSingleCombination drv sel els n).
Proof.
  unfold testSingleCombination.
  apply preserves_bind; [| intros; apply preserves_ret].
  apply preserves_with_local.
  pose proof (preserves_observe drv f sel els n) as Hobs.
  pose proof (preserves_captureValidation f) as Hcap.
  assert (Hinc : forall p : bool,
             Preserves f (incTotal (W := W) >> if p then incPassed else incFailed)).
  { intros p s. destruct p; cbn; now rewrite !counters_frame_f. }
  apply preserves_try_catch.
  - apply preserves_bind; [exact Hobs |]. intros tv.
    apply preserves_bind; [| auto with preserves].
    unfold classify.
    repeat match goal with
           | |- context [if ?b then _ else _] => destruct b
           end;
      (apply preserves_bind; [auto with preserves | intros ?];
       apply preserves_bind;
         [apply preserves_lift; apply (Hinc true) | auto with preserves]).
  - intros e. unfold recordFailure.
    apply preserves_bind; [auto with preserves | intros ?].
    apply preserves_bind;
      [apply preserves_lift; apply (Hinc false) | auto with preserves].
Qed.

Lemma preserves_tryOption subtree (els : list Elem) optionsArray idx sel i opt :
  (forall s, Preserves (fun ls : list CombinationResult * T => f (snd ls)) (subtree s)) ->
  Preserves (fun ls : list CombinationResult * T => f (snd ls))
    (tryOption drv subtree els optionsArray idx sel i opt).
Proof.
  intros Hsub. unfold tryOption.
  pose proof (preserves_selectDropdownOption drv f) as Hsel.
  pose proof (preserves_resetNextDropdowns drv f) as Hreset.
  apply preserves_bind; [auto with preserves |].
  intros [|]; auto with preserves.
Qed.

Lemma preserves_testCombos (els : list Elem) optionsArray :
  forall fuel idx sel,
    Preserves (fun ls : list CombinationResult * T => f (snd ls))
      (testCombos drv fuel els optionsArray idx sel).
Proof.
  induction fuel as [| fuel IH]; intros idx sel; cbn [testCombos];
    destruct (length optionsArray <=? idx)%nat.
  - pose proof (preserves_testSingleCombination sel els).
    repeat preserves_step. auto with preserves.
  - apply preserves_ret.
  - pose proof (preserves_testSingleCombination sel els).
    repeat preserves_step. auto with preserves.
  - apply preserves_for_each. intros i opt.
    apply preserves_tryOption. intros s. apply IH.
Qed.
End PreservesEnumeration.

(** *** The results of an enumeration *)

Lemma Forall2_map_cons {A B : Type} (P : A -> list B -> Prop) (x : B) l tuples :
  Forall2 (fun a tuple => P a (x :: tuple)) l tuples ->
  Forall2 P l (map (cons x) tuples).
Proof. induction 1; cbn; now constructor. Qed.

Section EnumerationRuns.
Context {W : Type} (drv : Driver W) (els : list Elem)
  (optionsArray : list (list DOption)).

#[local] Abbreviation T := (Tester W).
#[local] Abbreviation Run := (list CombinationResult * Tester W)%type.

(** One option that is tried without an exception: the selection has
    succeeded, the subtree has run, and a reset does not touch the results. *)
Lemma tryOption_ok subtree idx sel i opt results (t : T) results' t' :
  tryOption drv subtree els optionsArray idx sel i opt (results, t) =
    (Ok tt, (results', t')) ->
  exists t1 t2,
    selectDropdownOption drv (els !! idx) opt idx t = (Ok true, t1) /\
    subtree (sel ++ [opt]) (results, t1) = (Ok tt, (results', t2)).
Proof.
  unfold tryOption. intros H. unfold bind at 1 in H. rewrite lift_run in H.
  destruct (selectDropdownOption drv (els !! idx) opt idx t) as [[b | e] t1] eqn:Hsel;
    cbn [fst snd] in H; [| discriminate].
  pose proof (selectDropdownOption_true drv _ _ _ _ _ _ Hsel) as ->.
  unfold bind at 1 in H.
  destruct (subtree (sel ++ [opt]) (results, t1)) as [[[] | e] [results2 t2]] eqn:Hsub;
    [| discriminate].
  exists t1, t2. split; [reflexivity |]. rewrite Hsub.
  destruct (_ && _); cbn [when] in H.
  - rewrite lift_run in H. injection H as _ <- _. reflexivity.
  - injection H as <- _. reflexivity.
Qed.

Lemma loop_results subtree idx sel rest :
  (forall sel' results (t : T) results' t',
     subtree sel' (results, t) = (Ok tt, (results', t')) ->
     exists new,
       results' = results ++ new /\
       Forall2 (fun r tuple => Classified (sel' ++ tuple) r) new (cartesian rest)) ->
  forall opts i results (t : T) results' t',
    for_each (tryOption drv subtree els optionsArray idx sel) i opts (results, t) =
      (Ok tt, (results', t')) ->
    exists new,
      results' = results ++ new /\
      Forall2 (fun r tuple => Classified (sel ++ tuple) r) new
        (flat_map (fun o => map (cons o) (cartesian rest)) opts).
Proof.
  intros Hsub. induction opts as [| o opts IH]; intros i results t results' t' H.
  - injection H as <- <-. exists []. rewrite app_nil_r. split; [reflexivity | constructor].
  - cbn [for_each] in H. unfold bind at 1 in H.
    destruct (tryOption drv subtree els optionsArray idx sel i o (results, t))
      as [[[] | e] [results1 t1]] eqn:Hopt; [| discriminate].
    apply tryOption_ok in Hopt. destruct Hopt as (ta & tb & _ & Hrun).
    apply Hsub in Hrun. destruct Hrun as (new1 & -> & Hnew1).
    apply IH in H. destruct H as (new2 & -> & Hnew2).
    exists (new1 ++ new2). rewrite app_assoc. split; [reflexivity |].
    cbn [flat_map]. apply Forall2_app; [| exact Hnew2].
    apply Forall2_map_cons.
    eapply Forall2_impl; [exact Hnew1 |]. intros r tuple Hc.
    cbv beta in Hc. now rewrite <- app_assoc in Hc.
Qed.

(** An enumeration that ends without an exception has appended one result
    for each combination of the remaining dropdowns, in depth-first order,
    each classified for the selection that was applied. *)
Lemma testCombos_results :
  forall fuel idx sel results (t : T) results' t',
    length optionsArray - idx <= fuel ->
    testCombos drv fuel els optionsArray idx sel (results, t) =
      (Ok tt, (results', t')) ->
    exists new,
      results' = results ++ new /\
      Forall2 (fun r tuple => Classified (sel ++ tuple) r) new
        (cartesian (drop idx optionsArray)).
Proof.
  induction fuel as [| fuel IH]; intros idx sel results t results' t' Hfuel H;
    cbn [testCombos] in H;
    destruct (length optionsArray <=? idx)%nat eqn:Hlen.
  1,3: apply Nat.leb_le in Hlen; rewrite drop_ge by exact Hlen;
       unfold bind at 1, get_local at 1 in H; cbn [fst snd] in H;
       unfold bind at 1 in H; rewrite lift_run in H;
       destruct (testSingleCombination_classified drv sel els (length results + 1) t)
         as (r & t1 & Hrun & Hc);
       rewrite Hrun in H; cbn in H; injection H as <- <-;
       exists [r]; (split; [reflexivity |]);
       constructor; [now rewrite app_nil_r | constructor].
  - apply Nat.leb_gt in Hlen. lia.
  - apply Nat.leb_gt in Hlen.
    destruct (lookup_lt_is_Some_2 optionsArray idx Hlen) as [opts Hopts].
    rewrite Hopts in H. cbn [default] in H.
    rewrite (drop_S _ _ _ Hopts). cbn [cartesian].
    eapply loop_results; [| exact H].
    intros sel' res ta res' tb Hrun.
    rewrite Nat.add_1_r in Hrun. apply IH in Hrun; [exact Hrun | lia].
Qed.

(** When every selection succeeds, the enumeration ends without an
    exception. *)
Lemma loop_total subtree idx sel :
  SelectionsSucceed drv els (length optionsArray) ->
  idx < length optionsArray ->
  (forall sel', Preserves (fun ls : Run => driver (snd ls)) (subtree sel')) ->
  (forall sel' results (t : T),
     driver t = true -> fst (subtree sel' (results, t)) = Ok tt) ->
  forall opts i results (t : T),
    driver t = true ->
    fst (for_each (tryOption drv subtree els optionsArray idx sel) i opts
           (results, t)) = Ok tt.
Proof.
  intros Hsel Hidx Hpres Hsub.
  induction opts as [| o opts IH]; intros i results t Hd; [reflexivity |].
  cbn [for_each]. unfold bind at 1.
  assert (Hp : Preserves (fun ls : Run => driver (snd ls))
                 (tryOption drv subtree els optionsArray idx sel i o)).
  { apply preserves_tryOption; [typeclasses eauto | auto]. }
  specialize (Hp (results, t)).
  assert (Hok : fst (tryOption drv subtree els optionsArray idx sel i o (results, t))
                = Ok tt).
  { unfold tryOption, bind at 1. rewrite lift_run.
    destruct (Hsel idx o t Hidx Hd) as (t1 & Hs). rewrite Hs. cbn [fst snd].
    pose proof (preserves_selectDropdownOption drv driver (els !! idx) o idx t) as Hd1.
    rewrite Hs in Hd1. cbn in Hd1.
    unfold bind at 1.
    pose proof (Hsub (sel ++ [o]) results t1) as Hs1.
    destruct (subtree (sel ++ [o]) (results, t1)) as [[[] | e] [res2 t2]];
      [| now (cbn in Hs1; rewrite Hd1, Hd in Hs1; specialize (Hs1 eq_refl))].
    destruct (_ && _); cbn [when]; [| reflexivity].
    rewrite lift_run. cbn [fst]. apply resetNextDropdowns_total. }
  destruct (tryOption drv subtree els optionsArray idx sel i o (results, t))
    as [[[] | e] [res1 t1]]; [| discriminate].
  apply IH. cbn in Hp. now rewrite Hp.
Qed.

Lemma testCombos_total :
  SelectionsSucceed drv els (length optionsArray) ->
  forall fuel idx sel results (t : T),
    length optionsArray - idx <= fuel ->
    driver t = true ->
    fst (testCombos drv fuel els optionsArray idx sel (results, t)) = Ok tt.
Proof.
  intros Hsel. induction fuel as [| fuel IH]; intros idx sel results t Hfuel Hd;
    cbn [testCombos]; destruct (length optionsArray <=? idx)%nat eqn:Hlen.
  1,3: unfold bind at 1, get_local at 1; cbn [fst snd]; unfold bind at 1;
       rewrite lift_run;
       destruct (testSingleCombination_total drv sel els (length results + 1) t)
         as (r & t1 & ->); reflexivity.
  - reflexivity.
  - apply Nat.leb_gt in Hlen.
    apply loop_total; [exact Hsel | exact Hlen | | | exact Hd].
    + intros sel'. apply preserves_testCombos; [typeclasses eauto | reflexivity].
    + intros sel' res ta Hda. apply IH; [lia | exact Hda].
Qed.
End EnumerationRuns.

(** *** The Cartesian product *)

Lemma length_cartesian_cons {A : Type} (c : list (list A)) (opts : list A) :
  length (flat_map (fun o => map (cons o) c) opts) = length opts * length c.
Proof.
  induction opts as [| o opts IH]; [reflexivity |].
  cbn [flat_map]. rewrite length_app, length_map, IH. reflexivity.
Qed.

Lemma totalCombos_from (ls : list (list DOption)) :
  forall a, fold_left (fun t opts => t * length opts) ls a = a * length (cartesian ls).
Proof.
  induction ls as [| opts ls IH]; intros a; cbn [fold_left cartesian].
  - cbn. lia.
  - rewrite IH, length_cartesian_cons. lia.
Qed.

(** The number the class announces before the enumeration is the size of
    the product. *)
Lemma length_cartesian (ls : list (list DOption)) :
  length (cartesian ls) = totalCombos ls.
Proof. unfold totalCombos. rewrite totalCombos_from. lia. Qed.

(** With values that are distinct within each dropdown, different
    combinations are recorded differently. *)
Lemma NoDup_recorded (ls : list (list DOption)) :
  Forall (fun opts => NoDup (map opt_value opts)) ls ->
  forall k, NoDup (map (recordedFrom k) (cartesian ls)).
Proof.
  induction 1 as [| opts ls Hopts _ IH]; intros k.
  - cbn. apply NoDup_singleton.
  - cbn [cartesian]. specialize (IH (S k)).
    induction opts as [| o opts IHo]; [constructor |].
    cbn [flat_map]. rewrite map_app. cbn [map] in Hopts.
    apply NoDup_cons in Hopts. destruct Hopts as [Hnot Hrest].
    apply NoDup_app. split; [| split].
    + rewrite map_map. cbn [recordedFrom].
      rewrite <- (map_map (recordedFrom (S k))
                    (cons (Verified ("Dropdown " +:+ pretty (k + 1))
                             (opt_value o) (opt_text o)))).
      apply (NoDup_fmap_2 (cons _)). exact IH.
    + intros x Hx Hx'. apply list_elem_of_In in Hx, Hx'.
      apply in_map_iff in Hx. destruct Hx as (tup & <- & Htup).
      apply in_map_iff in Htup. destruct Htup as (tl & <- & _).
      apply in_map_iff in Hx'. destruct Hx' as (tup' & Heq & Htup').
      apply in_flat_map in Htup'. destruct Htup' as (o' & Ho' & Htup').
      apply in_map_iff in Htup'. destruct Htup' as (tl' & <- & _).
      cbn [recordedFrom] in Heq. injection Heq as Hv _ _.
      apply Hnot. rewrite <- Hv. apply list_elem_of_In, in_map. exact Ho'.
    + apply IHo. exact Hrest.
Qed.

Lemma Forall2_passed_options (new : list CombinationResult) tuples :
  Forall2 (fun r tuple => Classified tuple r) new tuples ->
  Forall (fun r => r_status r = "PASSED") new ->
  map r_options new = map recorded tuples.
Proof.
  induction 1 as [| r tuple new tuples Hc _ IH]; intros Hall; [reflexivity |].
  apply Forall_cons in Hall. destruct Hall as [Hp Hall].
  cbn [map]. rewrite (IH Hall). f_equal.
  destruct Hc as [[_ Ho] | [Hf _]]; [exact Ho |].
  rewrite Hp in Hf. discriminate.
Qed.


(** *** Pages that answer *)

Section ResponsivePages.
Context {W : Type} (drv : Driver W) (optsOf : Elem -> list DOption).
Hypothesis responsive : Responsive drv optsOf.

#[local] Abbreviation T := (Tester W).

(** A selection succeeds on its first attempt, with one call to set the
    value and one to read it back. *)
Lemma responsive_select el o idx (t : T) :
  driver t = true ->
  exists t',
    selectDropdownOption drv (Some el) o idx t = (Ok true, t') /\
    calls t' =
      calls t ++ [CSelect (Some el) (opt_value o); CVerify (Some el) (opt_value o)] /\
    driver t' = true.
Proof.
  intros Hd. destruct responsive as [_ Hsel].
  destruct (Hsel el (opt_value o) (world t)) as (w1 & w2 & Hs & Hv).
  unfold selectDropdownOption, executeWithRetry, bind at 1, modify at 1.
  change maxRetries.selection with 2.
  match goal with |- context [retryLoop ?d ?name ?op 2 2 1 ?t0] =>
    assert (Hop : exists s1,
               op (set_executionLog (executionLog t0 ++ [attemptLine name 2 1]) t0) =
                 (Ok true, s1) /\
               calls s1 =
                 calls t ++ [CSelect (Some el) (opt_value o);
                             CVerify (Some el) (opt_value o)] /\
               driver s1 = true)
  end.
  { unfold bind at 1, drive. cbn. rewrite Hd, Hs. cbn.
    unfold bind at 1. cbn. rewrite Hd, Hv. cbn.
    erewrite bind_ok by apply capture_immediate.
    eexists. split; [reflexivity |]. cbn. rewrite <- app_assoc. now split. }
  destruct Hop as (s1 & Hop & Hcalls & Hd1).
  destruct (retryLoop_succeeded drv _ _ 2 1 1 _ _ _ Hop) as (s2 & Hrun & _ & _ & Hc2 & Hd2).
  exists s2. split; [exact Hrun |]. split; congruence.
Qed.

(** The options of a dropdown are extracted on the first attempt. *)
Lemma responsive_options el i (t : T) :
  driver t = true -> optsOf el <> [] ->
  exists t',
    getDropdownOptions drv (Some el) i t = (Ok (optsOf el), t') /\
    calls t' = calls t ++ [COptions (Some el)] /\
    driver t' = true.
Proof.
  intros Hd Hne. destruct responsive as [Hopts _].
  destruct (Hopts el (world t)) as (w1 & Ho).
  unfold getDropdownOptions, executeWithRetry, bind at 1, modify at 1.
  change maxRetries.dropdownOptions with 2.
  match goal with |- context [retryLoop ?d ?name ?op 2 2 1 ?t0] =>
    assert (Hop : exists s1,
               op (set_executionLog (executionLog t0 ++ [attemptLine name 2 1]) t0) =
                 (Ok (optsOf el), s1) /\
               calls s1 = calls t ++ [COptions (Some el)] /\
               driver s1 = true)
  end.
  { unfold bind at 1, drive. cbn. rewrite Hd, Ho. cbn.
    destruct (optsOf el) as [| o l]; [contradiction |].
    erewrite bind_ok by apply capture_immediate.
    eexists. split; [reflexivity |]. cbn. now split. }
  destruct Hop as (s1 & Hop & Hcalls & Hd1).
  destruct (retryLoop_succeeded drv _ _ 2 1 1 _ _ _ Hop) as (s2 & Hrun & _ & _ & Hc2 & Hd2).
  exists s2. split; [exact Hrun |]. split; congruence.
Qed.

Lemma responsive_selections (els : list Elem) n :
  n <= length els -> SelectionsSucceed drv els n.
Proof.
  intros Hn idx o t Hidx Hd.
  destruct (lookup_lt_is_Some_2 els idx) as [el Hel]; [lia |].
  rewrite Hel. destruct (responsive_select el o idx t Hd) as (t' & H & _). eauto.
Qed.

Lemma defaultOption_nonempty opts : opts <> [] -> exists d, defaultOption opts = Some d.
Proof.
  intros Hne. unfold defaultOption.
  destruct (find _ opts); [eauto |]. destruct opts; [contradiction | cbn; eauto].
Qed.

(** The reset of one dropdown: its options are extracted again and the
    default among them is selected and read back. *)
Lemma responsive_resetDropdown i el (t : T) :
  driver t = true -> optsOf el <> [] ->
  exists t',
    resetDropdown drv i el t = (Ok tt, t') /\
    calls t' = calls t ++ resetCalls optsOf el /\
    driver t' = true.
Proof.
  intros Hd Hne. unfold resetDropdown, resetCalls.
  destruct (responsive_options el i t Hd Hne) as (t1 & Ho & Hc1 & Hd1).
  destruct (defaultOption_nonempty _ Hne) as (d & Hdef).
  destruct (responsive_select el d i t1 Hd1) as (t2 & Hs & Hc2 & Hd2).
  exists t2. split.
  - erewrite try_catch_ok; [reflexivity |].
    erewrite bind_ok by exact Ho. rewrite Hdef.
    erewrite bind_ok by exact Hs. reflexivity.
  - rewrite Hdef, Hc2, Hc1, <- app_assoc. now split.
Qed.

Lemma responsive_reset (l : list Elem) :
  Forall (fun el => optsOf el <> []) l ->
  forall k (t : T),
    driver t = true ->
    exists t',
      for_each (resetDropdown drv) k l t = (Ok tt, t') /\
      calls t' = calls t ++ flat_map (resetCalls optsOf) l /\
      driver t' = true.
Proof.
  induction 1 as [| el l Hel _ IH]; intros k t Hd.
  - exists t. cbn. rewrite app_nil_r. now repeat split.
  - destruct (responsive_resetDropdown k el t Hd Hel) as (t1 & Hr & Hc1 & Hd1).
    destruct (IH (S k) t1 Hd1) as (t2 & Hrest & Hc2 & Hd2).
    exists t2. split; [| split; [| exact Hd2]].
    + cbn [for_each]. erewrite bind_ok by exact Hr. exact Hrest.
    + cbn [flat_map]. rewrite Hc2, Hc1, <- app_assoc. reflexivity.
Qed.
End ResponsivePages.

(** A page of the model answers when setting a value makes the dropdown
    hold it. *)
Lemma page_responsive optsOf onSelect tiles c :
  (forall el v w, exists w', onSelect el v w = Some w' /\ w' !! el = Some v) ->
  Responsive (Pages.page optsOf onSelect tiles c) optsOf.
Proof.
  intros Hon. split.
  - intros el w. now exists w.
  - intros el v w. destruct (Hon el v w) as (w' & Hs & Hl).
    exists w', w'. cbn. rewrite Hs. split; [reflexivity |].
    now rewrite Hl, bool_decide_eq_true_2.
Qed.

Lemma plain_page_responsive optsOf tiles c :
  Responsive (Pages.page optsOf Pages.plainSelect tiles c) optsOf.
Proof.
  apply page_responsive. intros el v w. eexists. split; [reflexivity |].
  apply lookup_insert_eq.
Qed.

Lemma reverting_page_responsive optsOf tiles c :
  Responsive (Pages.page optsOf Pages.revertingSelect tiles c) optsOf.
Proof.
  apply page_responsive. intros el v w. unfold Pages.revertingSelect.
  case_decide; eexists; (split; [reflexivity |]).
  - subst. rewrite lookup_insert_ne by discriminate. apply lookup_insert_eq.
  - apply lookup_insert_eq.
Qed.



(** *** A selection that fails *)

(** When the selection of an option throws, the loop over the options of
    that dropdown ends with the exception: nothing is appended for the
    option, and the options after it are not tried. *)
Lemma selection_failure_propagates {W : Type} (drv : Driver W) subtree
    (els : list Elem) optionsArray idx sel pre opt post results (t : Tester W)
    results1 t1 e t2 :
  for_each (tryOption drv subtree els optionsArray idx sel) 0 pre (results, t) =
    (Ok tt, (results1, t1)) ->
  selectDropdownOption drv (els !! idx) opt idx t1 = (Throw e, t2) ->
  for_each (tryOption drv subtree els optionsArray idx sel) 0
    (pre ++ opt :: post) (results, t) = (Throw e, (results1, t2)).
Proof.
  intros Hpre Hsel. rewrite for_each_app. erewrite bind_ok by exact Hpre.
  cbn [for_each]. unfold bind at 1, tryOption, bind at 1.
  rewrite lift_run, Hsel. reflexivity.
Qed.

(** C3 fails on the class: [selectDropdownOption] is wrapped in the retry
    executor and throws when its attempts are used up, so the branch that
    records a FAILED result is never reached.  On a page whose dropdown
    does not take the value [a], the enumeration of one dropdown [A, B]
    ends with the exception, no result is recorded for A, B is never
    selected, and [testAllCombinations], after repeating this three times,
    fails. *)
Theorem selection_failure_aborts_enumeration :
  let out :=
    testCombosRecursive Pages.refusingPage [0] [[Pages.optA; Pages.optB]] 0 []
      ([], Pages.fresh (Pages.values [EmptyString])) in
  fst out = Throw "selection failed after 2 attempts" /\
  fst (snd out) = [] /\
  calls (snd (snd out)) =
    [CSelect (Some 0) "a"; CVerify (Some 0) "a";
     CSelect (Some 0) "a"; CVerify (Some 0) "a"] /\
  fst (testAllCombinations Pages.refusingPage [0]
         (Pages.fresh (Pages.values [EmptyString]))) =
    Throw "testAllCombinations failed after 3 attempts".
Proof. vm_compute. now repeat split. Qed.

(** *** The reset between sibling options *)

(** The default option is the first one with the empty value, and the
    first option when none has the empty value. *)
Lemma defaultOption_spec opts d :
  defaultOption opts = Some d ->
  (opt_value d = EmptyString /\ In d opts) \/
  (Forall (fun o => opt_value o <> EmptyString) opts /\ head opts = Some d).
Proof.
  unfold defaultOption. destruct (find _ opts) as [o |] eqn:Hf.
  - intros [= <-]. left. apply find_some in Hf. destruct Hf as [Hin Hv].
    split; [now apply String.eqb_eq | exact Hin].
  - intros Hh. right. split; [| exact Hh].
    apply Forall_forall. intros o Ho Hv. apply list_elem_of_In in Ho.
    pose proof (find_none _ _ Hf o Ho) as Hn. cbn in Hn.
    rewrite Hv in Hn. discriminate.
Qed.

(** *** The calls a reset makes *)

Section AddsCalls.
Context {W : Type} (drv : Driver W) (P : Call -> Prop).

#[local] Abbreviation T := (Tester W).

Lemma adds_nothing {A : Type} (m : M T A) :
  Preserves calls m -> Adds P m.
Proof. intros H t. exists []. now rewrite app_nil_r, H. Qed.

Lemma adds_bind {A B : Type} (m : M T A) (k : A -> M T B) :
  Adds P m -> (forall a, Adds P (k a)) -> Adds P (bind m k).
Proof.
  intros Hm Hk t. unfold bind. destruct (Hm t) as (cs & Hc & Hp).
  destruct (m t) as [[a | e] t1]; cbn in *.
  - destruct (Hk a t1) as (cs' & Hc' & Hp').
    exists (cs ++ cs'). rewrite Hc', Hc, app_assoc. split; [reflexivity |].
    now apply Forall_app.
  - eauto.
Qed.

Lemma adds_try_catch {A : Type} (m : M T A) h :
  Adds P m -> (forall e, Adds P (h e)) -> Adds P (try_catch m h).
Proof.
  intros Hm Hh t. unfold try_catch. destruct (Hm t) as (cs & Hc & Hp).
  destruct (m t) as [[a | e] t1]; cbn in *.
  - eauto.
  - destruct (Hh e t1) as (cs' & Hc' & Hp').
    exists (cs ++ cs'). rewrite Hc', Hc, app_assoc. split; [reflexivity |].
    now apply Forall_app.
Qed.

Lemma adds_for_each {A : Type} (body : nat -> A -> M T unit) (Q : A -> Prop) l :
  (forall i x, Q x -> Adds P (body i x)) ->
  Forall Q l ->
  forall i, Adds P (for_each body i l).
Proof.
  intros Hb. induction 1 as [| x l Hx _ IH]; intros i; cbn [for_each].
  - apply adds_nothing. now intros t.
  - apply adds_bind; [now apply Hb | intros _; apply IH].
Qed.

Lemma adds_drive {A : Type} c (f : W -> outcome A * W) :
  P c -> Adds P (drive c f).
Proof.
  intros Hc t. unfold drive. destruct (driver t).
  - destruct (f (world t)) as [r w]. exists [c]. cbn. split; [reflexivity |].
    now constructor.
  - exists []. now rewrite app_nil_r.
Qed.

Lemma adds_modify (g : T -> T) :
  (forall t, calls (g t) = calls t) -> Adds P (modify g).
Proof. intros H. apply adds_nothing. intros t. apply H. Qed.

Lemma adds_captureValidation msg b : Adds P (@captureValidation W msg b).
Proof.
  apply adds_nothing. intros t. unfold captureValidation, modify. cbn.
  destruct (b || _); [| reflexivity].
  unfold flushValidationBuffer. cbn. now destruct (validationBuffer t ++ _).
Qed.

(** Under a name whose recovery only waits, the executor issues no call of
    its own. *)
Lemma adds_retryLoop {A : Type} name (op : M T A) m :
  quietRecovery name -> Adds P op ->
  forall remaining attempt, Adds P (retryLoop drv name op m remaining attempt).
Proof.
  intros [Hnav Hdd] Hop. induction remaining as [| r IH]; intros attempt;
    cbn [retryLoop].
  - apply adds_nothing. now intros t.
  - apply adds_bind; [now apply adds_modify |]. intros _.
    apply adds_bind; [| intros [a |]; [apply adds_nothing; now intros t | apply IH]].
    apply adds_try_catch.
    + apply adds_bind; [exact Hop |]. intros a. unfold onSuccess.
      apply adds_bind.
      * destruct (1 <? attempt)%nat; cbn [when];
          [apply adds_captureValidation | apply adds_nothing; now intros t].
      * intros _. apply adds_bind; [now apply adds_modify |].
        intros _. apply adds_nothing. now intros t.
    + intros e. unfold onFailure, performRecovery.
      destruct (decide (name = "navigation")); [contradiction |].
      destruct (decide (name = "dropdownFinding")); [contradiction |].
      apply adds_nothing. intros t. now destruct (attempt <? m)%nat.
Qed.

Lemma adds_executeWithRetry {A : Type} name (op : M T A) m :
  quietRecovery name -> Adds P op -> Adds P (executeWithRetry drv name op m).
Proof.
  intros Hq Hop. unfold executeWithRetry.
  apply adds_bind; [now apply adds_modify |]. intros _.
  now apply adds_retryLoop.
Qed.

Lemma adds_getDropdownOptions el i :
  P (COptions el) -> Adds P (getDropdownOptions drv el i).
Proof.
  intros Hp. unfold getDropdownOptions.
  apply adds_executeWithRetry; [split; discriminate |].
  apply adds_bind; [now apply adds_drive |].
  intros [| o l]; [apply adds_nothing; now intros t |].
  apply adds_bind; [apply adds_captureValidation |].
  intros _. apply adds_nothing. now intros t.
Qed.

Lemma adds_selectDropdownOption el o i :
  P (CSelect el (opt_value o)) -> P (CVerify el (opt_value o)) ->
  Adds P (selectDropdownOption drv el o i).
Proof.
  intros Hs Hv. unfold selectDropdownOption.
  apply adds_executeWithRetry; [split; discriminate |].
  apply adds_bind; [now apply adds_drive |].
  intros [|]; cbn [negb]; [| apply adds_nothing; now intros t].
  apply adds_bind; [now apply adds_modify |]. intros _.
  apply adds_bind; [now apply adds_drive |].
  intros [|]; cbn [negb]; [| apply adds_nothing; now intros t].
  apply adds_bind; [apply adds_captureValidation |].
  intros _. apply adds_nothing. now intros t.
Qed.
End AddsCalls.

(** A reset from [k] on only calls on dropdowns from [k] on. *)
Lemma adds_resetNextDropdowns {W : Type} (drv : Driver W) (els : list Elem) k :
  Adds (fun c => exists el, el ∈ drop k els /\ callOn c = Some el)
    (resetNextDropdowns drv els k).
Proof.
  unfold resetNextDropdowns.
  apply adds_for_each with (Q := fun el => el ∈ drop k els);
    [| apply Forall_forall; auto].
  intros i el Hel. unfold resetDropdown.
  apply adds_try_catch; [| intros e; apply adds_nothing; now intros t].
  apply adds_bind; [apply adds_getDropdownOptions; now exists el |].
  intros opts. destruct (defaultOption opts) as [d |];
    [| apply adds_nothing; now intros t].
  apply adds_bind; [apply adds_selectDropdownOption; now exists el |].
  intros _. apply adds_nothing. now intros t.
Qed.




(** *** The whole of [testAllCombinations] *)

Section WholeEnumeration.
Context {W : Type} (drv : Driver W) (optsOf : Elem -> list DOption).
Hypothesis responsive : Responsive drv optsOf.

#[local] Abbreviation T := (Tester W).

Lemma collectOptions_responsive (l : list Elem) :
  Forall (fun el => optsOf el <> []) l ->
  forall k acc (t : T),
    driver t = true ->
    exists t',
      for_each (collectDropdown drv) k l (acc, t) =
        (Ok tt, (acc ++ map optsOf l, t')) /\
      driver t' = true.
Proof.
  induction 1 as [| el l Hel _ IH]; intros k acc t Hd.
  - exists t. cbn. now rewrite app_nil_r.
  - destruct (responsive_options drv optsOf responsive el k t Hd Hel)
      as (t1 & Ho & _ & Hd1).
    destruct (IH (S k) (acc ++ [optsOf el]) t1 Hd1) as (t2 & Hrest & Hd2).
    exists t2. split; [| exact Hd2].
    cbn [for_each]. unfold bind at 1, collectDropdown at 1, bind at 1.
    rewrite lift_run, Ho. cbn [fst snd].
    destruct (optsOf el) as [| o opts] eqn:Hopts; [contradiction |].
    unfold local at 1. cbn [fst snd]. rewrite Hrest.
    cbn [map]. now rewrite Hopts, <- app_assoc.
Qed.

(** On a page that answers, [testAllCombinations] returns on its first
    attempt one result for each combination of the options of the
    dropdowns it was given. *)
Lemma testAllCombinations_complete (els : list Elem) (t : T) :
  els <> [] ->
  Forall (fun el => optsOf el <> []) els ->
  driver t = true ->
  exists new t',
    testAllCombinations drv els t = (Ok new, t') /\
    length new = totalCombos (map optsOf els) /\
    Forall2 (fun r tuple => Classified tuple r) new (cartesian (map optsOf els)) /\
    (Forall (fun r => r_status r = "PASSED") new ->
     map r_options new = map recorded (cartesian (map optsOf els)) /\
     (Forall (fun el => NoDup (map opt_value (optsOf el))) els ->
      NoDup (map r_options new))).
Proof.
  intros Hne Hopts Hd.
  unfold testAllCombinations, executeWithRetry, bind at 1, modify at 1.
  change maxRetries.overall with 3.
  set (oa := map optsOf els).
  match goal with |- context [retryLoop ?d ?name ?op 3 3 1 ?t0] =>
    assert (Hop : exists new s1,
               op (set_executionLog (executionLog t0 ++ [attemptLine name 3 1]) t0) =
                 (Ok new, s1) /\
               Forall2 (fun r tuple => Classified tuple r) new (cartesian oa))
  end.
  { destruct els as [| el0 els0]; [contradiction |].
    set (els' := el0 :: els0) in *.
    set (s0 := set_executionLog _ _).
    destruct (collectOptions_responsive els' Hopts 0 [] s0 Hd) as (ta & Hcol & Hda).
    unfold bind at 1, with_local at 1, collectOptions.
    rewrite Hcol. cbn [fst snd app]. fold oa.
    erewrite bind_ok by apply capture_immediate.
    set (tb := set_validation _ _ ta).
    assert (Hdb : driver tb = true) by exact Hda.
    pose proof (testCombos_total drv els' oa
                  (responsive_selections drv optsOf responsive els' (length oa)
                     ltac:(unfold oa; rewrite length_map; lia))
                  (length oa - 0) 0 [] [] tb (le_n _) Hdb) as Htot.
    unfold bind at 1, with_local at 1, testCombosRecursive.
    destruct (testCombos drv (length oa - 0) els' oa 0 [] ([], tb))
      as [[[] | e] [new tc]] eqn:Hrun; [| discriminate].
    destruct (testCombos_results drv els' oa _ _ _ _ _ _ _ (le_n _) Hrun)
      as (new' & Hnew & Hcl).
    rewrite drop_0 in Hcl. cbn [app] in Hnew, Hcl. subst new'.
    erewrite bind_ok by apply capture_immediate.
    eexists _, _. split; [reflexivity | exact Hcl]. }
  destruct Hop as (new & s1 & Hop & Hcl).
  destruct (retryLoop_succeeded drv _ _ 3 2 1 _ _ _ Hop) as (s2 & Hrun & _).
  exists new, s2. split; [exact Hrun |].
  split; [rewrite <- length_cartesian; now apply Forall2_length in Hcl |].
  split; [exact Hcl |].
  intros Hpassed. pose proof (Forall2_passed_options _ _ Hcl Hpassed) as Heq.
  split; [exact Heq |]. intros Hnd. rewrite Heq. apply NoDup_recorded.
  unfold oa. now apply Forall_map.
Qed.
End WholeEnumeration.

(** * Further properties *)

Section AlongMonad.
Context {St : Type} (R : relation St) `{!PreOrder R}.

Lemma along_ret {A} (a : A) : Along R (ret a).
Proof. intros s. reflexivity. Qed.

Lemma along_throw {A} e : Along R (@throw St A e).
Proof. intros s. reflexivity. Qed.

Lemma along_gets {A} (g : St -> A) : Along R (gets g).
Proof. intros s. reflexivity. Qed.

Lemma along_modify (g : St -> St) : (forall s, R s (g s)) -> Along R (modify g).
Proof. intros H s. apply H. Qed.

Lemma along_bind {A B} (m : M St A) (k : A -> M St B) :
  Along R m -> (forall a, Along R (k a)) -> Along R (bind m k).
Proof.
  intros Hm Hk s. unfold bind. specialize (Hm s).
  destruct (m s) as [[a | e] s1]; cbn in *; [| exact Hm].
  etransitivity; [exact Hm | apply Hk].
Qed.

Lemma along_try_catch {A} (m : M St A) h :
  Along R m -> (forall e, Along R (h e)) -> Along R (try_catch m h).
Proof.
  intros Hm Hh s. unfold try_catch. specialize (Hm s).
  destruct (m s) as [[a | e] s1]; cbn in *; [exact Hm |].
  etransitivity; [exact Hm | apply Hh].
Qed.

Lemma along_try_finally {A} (m : M St A) g :
  Along R m -> (forall s, R s (g s)) -> Along R (try_finally m g).
Proof.
  intros Hm Hg s. unfold try_finally. specialize (Hm s).
  destruct (m s) as [r s1]; cbn in *. etransitivity; [exact Hm | apply Hg].
Qed.

Lemma along_when b (m : M St unit) : Along R m -> Along R (when b m).
Proof. intros H. destruct b; [exact H | apply along_ret]. Qed.

Lemma along_for_each {A} (body : nat -> A -> M St unit) l :
  (forall i x, Along R (body i x)) -> forall i, Along R (for_each body i l).
Proof.
  intros Hb. induction l as [| x l IH]; intros i; cbn [for_each].
  - apply along_ret.
  - apply along_bind; [apply Hb | intros _; apply IH].
Qed.
End AlongMonad.

Section AlongLocal.
Context {L St : Type} (R : relation St) `{!PreOrder R}.

#[export] Instance onTester_preorder : PreOrder (@onTester L St R).
Proof.
  split.
  - intros ls. unfold onTester. reflexivity.
  - intros a b c Hab Hbc. unfold onTester in *. etransitivity; eassumption.
Qed.

Lemma along_lift {A} (m : M St A) : Along R m -> Along (@onTester L St R) (lift m).
Proof.
  intros H [l s]. unfold lift, onTester. cbn. specialize (H s).
  now destruct (m s).
Qed.

Lemma along_local (g : L -> L) : Along (@onTester L St R) (local g).
Proof. intros [l s]. unfold onTester. cbn. reflexivity. Qed.

Lemma along_get_local : Along (@onTester L St R) get_local.
Proof. intros [l s]. unfold onTester. cbn. reflexivity. Qed.

Lemma along_with_local {A} l0 (m : M (L * St) A) :
  Along (@onTester L St R) m -> Along R (with_local l0 m).
Proof.
  intros H s. unfold with_local. specialize (H (l0, s)). unfold onTester in H.
  now destruct (m (l0, s)) as [[a | e] [l s1]].
Qed.
End AlongLocal.

Create HintDb along.

#[global] Hint Resolve along_ret along_throw along_gets along_lift along_local
  along_get_local : along.

Ltac along_step :=
  match goal with
  | |- PreOrder _ => typeclasses eauto
  | |- _ => solve [auto 4 with along typeclass_instances]
  | |- Along _ (bind _ _) => apply along_bind; [| | intros ?]
  | |- Along _ (try_catch _ _) => apply along_try_catch; [| | intros ?]
  | |- Along _ (when _ _) => apply along_when
  | |- Along _ (for_each _ _ _) => apply along_for_each; [| intros ? ?]
  | |- Along _ (with_local _ _) => apply along_with_local
  | |- Along _ (lift _) => apply along_lift
  | |- Along _ (if ?b then _ else _) => destruct b
  | |- Along _ (match ?x with _ => _ end) => destruct x
  end.

Ltac along := repeat along_step.

Section AlongEngine.
Context {W : Type} (drv : Driver W) (R : relation (Tester W)) `{!EngineStep R}.

#[local] Abbreviation T := (Tester W).

Lemma along_captureValidation msg b : Along R (captureValidation msg b).
Proof.
  intros t. unfold captureValidation, modify. cbn.
  destruct (b || _).
  - etransitivity; [apply step_capture | apply step_flush].
  - apply step_capture.
Qed.

Lemma along_logExecution msg : Along R (logExecution msg).
Proof. intros t. apply step_executionLog. Qed.

Lemma along_logError msg e : Along R (logError msg e).
Proof. intros t. apply step_errorLog. Qed.

Lemma along_drive {A} c (g : W -> outcome A * W) : Along R (drive c g).
Proof.
  intros t. unfold drive. destruct (driver t); [| reflexivity].
  destruct (g (world t)) as [r w]. cbn.
  etransitivity; [apply step_call | apply step_world].
Qed.

Lemma along_delay ms : Along R (delay drv ms).
Proof. intros t. apply step_world. Qed.

Lemma along_setRetryCount name n : Along R (setRetryCount name n).
Proof. intros t. apply step_retryCounts. Qed.

Lemma along_setOperation o : Along R (modify (set_currentOperation o)).
Proof. intros t. apply step_currentOperation. Qed.

Lemma along_flush : Along R (modify flushValidationBuffer).
Proof. intros t. apply step_flush. Qed.

Hint Resolve along_captureValidation along_logExecution along_logError
  along_drive along_delay along_setRetryCount along_setOperation along_flush
  : along.

Lemma along_performRecovery name : Along R (performRecovery drv name).
Proof. unfold performRecovery. along. Qed.

Lemma along_retryLoop {A} name (op : M T A) m :
  Along R op -> forall remaining attempt,
  Along R (retryLoop drv name op m remaining attempt).
Proof.
  intros Hop. pose proof (along_performRecovery name) as Hrec.
  induction remaining as [| r IH]; intros attempt; cbn [retryLoop].
  - along.
  - apply along_bind; [along | along | intros _].
    apply along_bind; [along | | intros [a |]; [along | apply IH]].
    unfold onSuccess, onFailure. along.
Qed.

Lemma along_executeWithRetry {A} name (op : M T A) m :
  Along R op -> Along R (executeWithRetry drv name op m).
Proof.
  intros Hop. unfold executeWithRetry.
  apply along_bind; [along | along | intros _]. now apply along_retryLoop.
Qed.

Hint Resolve along_executeWithRetry : along.

Lemma along_getDropdownOptions el i : Along R (getDropdownOptions drv el i).
Proof. unfold getDropdownOptions. apply along_executeWithRetry. along. Qed.

Lemma along_selectDropdownOption el o i : Along R (selectDropdownOption drv el o i).
Proof. unfold selectDropdownOption. apply along_executeWithRetry. along. Qed.

Hint Resolve along_getDropdownOptions along_selectDropdownOption : along.

Lemma along_resetNextDropdowns els k : Along R (resetNextDropdowns drv els k).
Proof. unfold resetNextDropdowns, resetDropdown. along. Qed.

Lemma along_detectTiles : Along R (detectTilesOnNationwidePage drv).
Proof. unfold detectTilesOnNationwidePage. along. Qed.

Lemma along_validateNoResultsMessage : Along R (validateNoResultsMessage drv).
Proof. unfold validateNoResultsMessage. along. Qed.

Hint Resolve along_resetNextDropdowns along_detectTiles
  along_validateNoResultsMessage : along.

Lemma along_validateTileCount n : Along R (validateTileCount drv n).
Proof. unfold validateTileCount. apply along_executeWithRetry. along. Qed.

Lemma along_validateSortBy n sel tv :
  Along R (validateSortByForVisibleTiles drv n sel tv).
Proof.
  unfold validateSortByForVisibleTiles. apply along_executeWithRetry. along.
Qed.

Hint Resolve along_validateTileCount along_validateSortBy : along.

Lemma along_passed : Along R (incTotal (W := W) >> incPassed).
Proof. intros t. exact (step_passed t). Qed.

Lemma along_failed : Along R (incTotal (W := W) >> incFailed).
Proof. intros t. exact (step_failed t). Qed.

Hint Resolve along_passed along_failed : along.

Lemma along_testSingleCombination sel (els : list Elem) n :
  Along R (testSingleCombination drv sel els n).
Proof.
  unfold testSingleCombination, observe, verifySelections, verifySelection,
    classify, recordFailure.
  along.
Qed.

Hint Resolve along_testSingleCombination : along.

Lemma along_testCombos (els : list Elem) optionsArray :
  forall fuel idx sel,
    Along (onTester R) (testCombos drv fuel els optionsArray idx sel).
Proof.
  induction fuel as [| fuel IH]; intros idx sel; cbn [testCombos].
  - along.
  - destruct (length optionsArray <=? idx)%nat; [along |].
    apply along_for_each; [along |]. intros i opt. unfold tryOption.
    apply along_bind; [along | along |].
    intros [|]; [| along].
    apply along_bind; [along | apply IH | intros _; along].
Qed.

Lemma along_testAllCombinations (els : list Elem) :
  Along R (testAllCombinations drv els).
Proof.
  unfold testAllCombinations. apply along_executeWithRetry.
  destruct els as [| el els]; [along |].
  pose proof (along_testCombos (el :: els)) as Hcombos.
  unfold testCombosRecursive, collectOptions, collectDropdown. along.
Qed.

Lemma along_hardRestart : Along R (hardRestart drv).
Proof. unfold hardRestart. along. Qed.

Lemma along_recoverFromStuckState : Along R (recoverFromStuckState drv).
Proof.
  pose proof along_hardRestart.
  unfold recoverFromStuckState, beginRecovery, softRecovery.
  apply along_bind; [along | along |]. intros [|]; [along |].
  apply along_bind; [along | | intros _].
  - apply along_bind; [along | | intros _; along].
    apply along_modify. intros t. apply step_isRecovering.
  - apply along_try_finally; [along | | intros t; apply step_isRecovering].
    along.
Qed.
End AlongEngine.

#[global] Instance LogsGrow_step {W : Type} : EngineStep (@LogsGrow W).
Proof.
  split.
  - split.
    + intros t. now repeat split.
    + intros a b c (H1 & H2 & H3 & H4) (K1 & K2 & K3 & K4).
      repeat split; etransitivity; eassumption.
  - intros w t. now repeat split.
  - intros c t. repeat split; try reflexivity. now apply prefix_app_r.
  - intros r t. now repeat split.
  - intros o t. now repeat split.
  - intros b t. now repeat split.
  - intros e t. repeat split; try reflexivity.
    unfold captured. cbn. rewrite app_assoc. now apply prefix_app_r.
  - intros t. repeat split;
      unfold flushValidationBuffer, captured;
      destruct (validationBuffer t) eqn:Hb; cbn; rewrite ?Hb, ?app_nil_r;
      reflexivity.
  - intros x t. repeat split; try reflexivity. now apply prefix_app_r.
  - intros x t. repeat split; try reflexivity. now apply prefix_app_r.
  - intros t. now repeat split.
  - intros t. now repeat split.
Qed.

#[global] Instance CountersAdvance_step {W : Type} : EngineStep (@CountersAdvance W).
Proof.
  split.
  - split.
    + intros t. exists 0, 0. lia.
    + intros a b c (p & f & H1 & H2 & H3) (q & g & K1 & K2 & K3).
      exists (p + q), (f + g). lia.
  - intros w t. exists 0, 0. cbn. lia.
  - intros c t. exists 0, 0. cbn. lia.
  - intros r t. exists 0, 0. cbn. lia.
  - intros o t. exists 0, 0. cbn. lia.
  - intros b t. exists 0, 0. cbn. lia.
  - intros e t. exists 0, 0. cbn. lia.
  - intros t. exists 0, 0. unfold flushValidationBuffer.
    destruct (validationBuffer t); cbn; lia.
  - intros x t. exists 0, 0. cbn. lia.
  - intros x t. exists 0, 0. cbn. lia.
  - intros t. exists 1, 0. cbn. lia.
  - intros t. exists 0, 1. cbn. lia.
Qed.


Lemma countStatus_app st l1 l2 :
  countStatus st (l1 ++ l2) = countStatus st l1 + countStatus st l2.
Proof. unfold countStatus. now rewrite filter_app, length_app. Qed.

Lemma countStatus_singleton st r :
  countStatus st [r] = if decide (r_status r = st) then 1 else 0.
Proof.
  unfold countStatus. case_decide.
  - now rewrite filter_cons_True.
  - now rewrite filter_cons_False.
Qed.

#[global] Instance Recorded_preorder {W : Type} : PreOrder (@Recorded W).
Proof.
  split.
  - intros [rs t]. exists []. unfold countStatus. rewrite filter_nil. cbn.
    rewrite app_nil_r. repeat split; try constructor; lia.
  - intros [r1 t1] [r2 t2] [r3 t3]
      (n1 & E1 & N1 & M1 & S1 & P1 & F1 & T1) (n2 & E2 & N2 & M2 & S2 & P2 & F2 & T2).
    cbn [fst snd] in *. exists (n1 ++ n2). subst r2 r3.
    rewrite app_assoc, map_app, !countStatus_app, !length_app.
    rewrite length_app in N2.
    cbn [fst snd]. repeat split; try lia; try (now apply Forall_app).
    rewrite seq_app, N1, N2.
    now replace (length r1 + length n1 + 1) with (length r1 + 1 + length n1) by lia.
Qed.

Section Bookkeeping.
Context {W : Type} (drv : Driver W).

#[local] Abbreviation T := (Tester W).
#[local] Abbreviation Run := (list CombinationResult * Tester W)%type.

Lemma with_local_ok {L A : Type} (l0 : L) (m : M (L * T) A) (t : T) a l t' :
  with_local l0 m t = (Ok (a, l), t') -> m (l0, t) = (Ok a, (l, t')).
Proof.
  unfold with_local. destruct (m (l0, t)) as [[a' | e] [l' t1]]; [| discriminate].
  now intros [= -> -> ->].
Qed.

(** The classifier names and numbers its result after [comboNumber]. *)
Lemma testSingleCombination_number sel (els : list Elem) n (t : T) r t' :
  testSingleCombination drv sel els n t = (Ok r, t') ->
  r_number r = n /\ r_name r = "Combo " +:+ pretty n.
Proof.
  unfold testSingleCombination. intros H. unfold bind at 1 in H.
  match type of H with context [with_local ?l0 ?m t] =>
    assert (Hp : Preserves
                   (fun ls : CombinationResult * T =>
                      (r_number (fst ls), r_name (fst ls))) m);
    [| destruct (with_local l0 m t) as [[[u r0] | e] t1] eqn:Hw; [| discriminate];
       apply with_local_ok in Hw; specialize (Hp (l0, t)); rewrite Hw in Hp ]
  end.
  { unfold observe, verifySelections, verifySelection, classify, recordFailure.
    repeat first
      [ apply preserves_ret | apply preserves_throw
      | apply (preserves_lift_fst (fun r => (r_number r, r_name r)))
      | apply (preserves_local_fst (fun r => (r_number r, r_name r))); reflexivity
      | apply preserves_bind; [| intros ?]
      | apply preserves_try_catch; [| intros ?]
      | apply preserves_for_each; intros ? ?
      | match goal with
        | |- Preserves _ (if ?b then _ else _) => destruct b
        end ]. }
  injection H as <- <-. cbn in Hp. now injection Hp as -> ->.
Qed.

Lemma recorded_lift {A : Type} (m : M T A) :
  Preserves counters m -> Along Recorded (lift (L := list CombinationResult) m).
Proof.
  intros Hp [rs t]. rewrite lift_run. cbn [snd]. specialize (Hp t).
  unfold counters in Hp. injection Hp as Ht Hpa Hf.
  exists []. unfold countStatus. rewrite filter_nil. cbn. rewrite app_nil_r.
  repeat split; try constructor; lia.
Qed.

Lemma recorded_leaf sel (els : list Elem) :
  Along Recorded
    (let* results := get_local in
     let* result :=
       lift (testSingleCombination drv sel els (length results + 1)) in
     local (fun results : list CombinationResult => results ++ [result])).
Proof.
  intros [rs t]. unfold bind at 1, get_local. cbv beta iota. cbn [fst].
  unfold bind at 1. rewrite lift_run.
  assert (Hrun : exists r t',
             testSingleCombination drv sel els (length rs + 1) t = (Ok r, t') /\
             counters t' =
               (totalTests t + 1,
                passedTests t + countStatus "PASSED" [r],
                failedTests t + countStatus "FAILED" [r]) /\
             (r_status r = "PASSED" \/ r_status r = "FAILED")).
  { destruct (observe drv sel els (length rs + 1) (initialResult (length rs + 1), t))
      as [[tv | e] [r1 t1]] eqn:Hobs.
    - destruct (testSingleCombination_ok drv _ _ _ _ _ _ _ Hobs)
        as (r & t' & Hrun & Hc & Hst & _).
      exists r, t'. rewrite !countStatus_singleton, Hst.
      rewrite decide_True by reflexivity. rewrite decide_False by discriminate.
      rewrite Nat.add_0_r.
      split; [exact Hrun |]. split; [exact Hc | now left].
    - destruct (testSingleCombination_throw drv _ _ _ _ _ _ _ Hobs) as (t' & Hrun & Hc).
      exists (set_tileStatus "ERROR" (set_error (Some e) (set_status "FAILED" r1))), t'.
      rewrite !countStatus_singleton.
      rewrite decide_False by discriminate. rewrite decide_True by reflexivity.
      rewrite Nat.add_0_r.
      split; [exact Hrun |]. split; [exact Hc | now right]. }
  destruct Hrun as (r & t' & Hrun & Hc & Hst).
  destruct (testSingleCombination_number _ _ _ _ _ _ Hrun) as [Hn Hname].
  rewrite Hrun. cbn [fst snd local]. unfold counters in Hc.
  injection Hc as Ht Hp Hf.
  exists [r]. cbn [fst snd map length]. rewrite Hn.
  split; [reflexivity |]. split; [reflexivity |].
  split; [constructor; [now rewrite Hn | constructor] |].
  split; [constructor; [exact Hst | constructor] |].
  now repeat split.
Qed.

Lemma recorded_testCombos (els : list Elem) optionsArray :
  forall fuel idx sel, Along Recorded (testCombos drv fuel els optionsArray idx sel).
Proof.
  induction fuel as [| fuel IH]; intros idx sel; cbn [testCombos].
  - destruct (length optionsArray <=? idx)%nat;
      [apply recorded_leaf | apply along_ret; typeclasses eauto].
  - destruct (length optionsArray <=? idx)%nat; [apply recorded_leaf |].
    apply along_for_each; [typeclasses eauto |]. intros i opt [rs t].
    unfold tryOption, bind at 1.
    pose proof (recorded_lift (selectDropdownOption drv (els !! idx) opt idx)
                  (preserves_selectDropdownOption drv counters _ _ _) (rs, t)) as Hsel.
    rewrite lift_run in *. cbn [fst snd] in *.
    destruct (selectDropdownOption drv (els !! idx) opt idx t) as [[b | e] t1] eqn:Hrun;
      cbn [fst snd] in *; [| exact Hsel].
    apply selectDropdownOption_true in Hrun. subst b.
    etransitivity; [exact Hsel |].
    apply along_bind; [typeclasses eauto | apply IH | intros _].
    apply along_when; [typeclasses eauto |].
    apply recorded_lift. apply preserves_resetNextDropdowns. typeclasses eauto.
Qed.

(** The counters and the numbering of the results, for any outcome of
    the enumeration. *)
Lemma recorded_testCombosRecursive (els : list Elem) optionsArray idx sel s :
  Recorded s (snd (testCombosRecursive drv els optionsArray idx sel s)).
Proof. apply recorded_testCombos. Qed.
End Bookkeeping.

(** X2: Whatever the page does and however the call ends,
    testCombosRecursive only pushes at the end of results: the results
    already there are untouched, and the pushed ones are numbered
    consecutively from results.length + 1, each named 'Combo <number>'. *)
Theorem results_are_numbered {W : Type} (drv : Driver W) (els : list Elem)
    optionsArray idx sel results (t : Tester W) :
  let out := testCombosRecursive drv els optionsArray idx sel (results, t) in
  exists new,
    fst (snd out) = results ++ new /\
    map r_number new = seq (length results + 1) (length new) /\
    Forall (fun r => r_name r = "Combo " +:+ pretty (r_number r)) new.
Proof.
  destruct (recorded_testCombosRecursive drv els optionsArray idx sel (results, t))
    as (new & Hres & Hnum & Hname & _).
  exists new. auto.
Qed.

(** X3: For any outcome of testCombosRecursive (return or throw), every
    result it has pushed is PASSED or FAILED, passedTests has grown by the
    number of pushed PASSED results, failedTests by the number of pushed
    FAILED results, and totalTests by the number of pushed results. *)
Theorem counters_match_results {W : Type} (drv : Driver W) (els : list Elem)
    optionsArray idx sel results (t : Tester W) :
  let out := testCombosRecursive drv els optionsArray idx sel (results, t) in
  exists new,
    fst (snd out) = results ++ new /\
    Forall (fun r => r_status r = "PASSED" \/ r_status r = "FAILED") new /\
    passedTests (snd (snd out)) = passedTests t + countStatus "PASSED" new /\
    failedTests (snd (snd out)) = failedTests t + countStatus "FAILED" new /\
    totalTests (snd (snd out)) = totalTests t + length new.
Proof.
  destruct (recorded_testCombosRecursive drv els optionsArray idx sel (results, t))
    as (new & Hres & _ & _ & Hst & Hp & Hf & Ht).
  exists new. auto.
Qed.

(** X4: testAllCombinations, testSingleCombination and
    recoverFromStuckState only append: the captured validation entries
    (file, then buffer), the execution log, the error log and the sequence
    of driver calls after the call each have their state before the call
    as a prefix, whether the call returns or throws. *)
Theorem logs_are_append_only {W : Type} (drv : Driver W) (els : list Elem)
    sel n (t : Tester W) :
  LogsGrow t (snd (testAllCombinations drv els t)) /\
  LogsGrow t (snd (testSingleCombination drv sel els n t)) /\
  LogsGrow t (snd (recoverFromStuckState drv t)).
Proof.
  split; [| split].
  - apply along_testAllCombinations. typeclasses eauto.
  - apply along_testSingleCombination. typeclasses eauto.
  - apply along_recoverFromStuckState. typeclasses eauto.
Qed.

Section RetryInversion.
Context {W : Type} (drv : Driver W) (R : relation (Tester W)) `{!EngineStep R}.

#[local] Abbreviation T := (Tester W).

Lemma along_onFailure {A : Type} name m attempt e :
  Along R (onFailure (A := A) drv name m attempt e).
Proof.
  pose proof (along_performRecovery drv R name).
  pose proof (along_delay drv R).
  pose proof (along_logError (W := W) R).
  pose proof (along_setRetryCount (W := W) R).
  unfold onFailure. along.
Qed.

(** A value returned by the executor was returned by the operation, in a
    state reached from the initial one. *)
Lemma retryLoop_returns_along {A : Type} name (op : M T A) m :
  Along R op ->
  forall remaining attempt (t : T) v t',
    retryLoop drv name op m remaining attempt t = (Ok v, t') ->
    exists s s', op s = (Ok v, s') /\ R t s /\ R s' t'.
Proof.
  intros Hop.
  induction remaining as [| r IH]; intros attempt t v t' H; [discriminate |].
  set (t0 := set_executionLog (executionLog t ++ [attemptLine name m attempt]) t).
  assert (H0 : R t t0) by apply step_executionLog.
  destruct (op t0) as [[a | e] s1] eqn:Hrun.
  - pose proof (along_retryLoop drv R name op m Hop (S r) attempt t) as Hall.
    destruct (retryLoop_succeeded drv name op m r attempt t a s1 Hrun) as (s2 & Hloop & _).
    rewrite Hloop in H. injection H as -> ->.
    exists t0, s1. split; [exact Hrun |]. split; [exact H0 |].
    destruct (onSuccess_spec name attempt v s1) as (s2' & Hon & _).
    assert (Hs : Along R (onSuccess name attempt v)).
    { pose proof (along_captureValidation (W := W) R).
      pose proof (along_setRetryCount (W := W) R).
      unfold onSuccess. along. }
    specialize (Hs s1). rewrite Hon in Hs. cbn in Hs.
    cbn [retryLoop] in Hloop. unfold bind at 1, logExecution, modify in Hloop.
    unfold bind at 1 in Hloop. fold t0 in Hloop.
    erewrite try_catch_ok in Hloop by (erewrite bind_ok by exact Hrun; exact Hon).
    cbn in Hloop. now injection Hloop as <-.
  - rewrite (retryLoop_failed _ _ _ _ _ _ _ _ _ Hrun) in H.
    pose proof (along_onFailure (A := A) name m attempt e s1) as Hf.
    pose proof (Hop t0) as Hop0. rewrite Hrun in Hop0. cbn in Hop0.
    destruct (onFailure drv name m attempt e s1) as [[[a |] | e'] s2] eqn:Hon.
    + unfold onFailure in Hon. unfold bind in Hon.
      repeat match type of Hon with
             | context [match ?x with _ => _ end] => destruct x as [[? | ?] ?]
             end; discriminate.
    + cbn in Hf. apply IH in H. destruct H as (s & s' & Hs & Hrs & Hrs').
      exists s, s'. split; [exact Hs |]. split; [| exact Hrs'].
      etransitivity; [exact H0 |]. etransitivity; [exact Hop0 |].
      etransitivity; [exact Hf | exact Hrs].
    + discriminate.
Qed.

Lemma executeWithRetry_returns_along {A : Type} name (op : M T A) m (t : T) v t' :
  Along R op ->
  executeWithRetry drv name op m t = (Ok v, t') ->
  exists s s', op s = (Ok v, s') /\ R t s /\ R s' t'.
Proof.
  intros Hop H. unfold executeWithRetry, bind at 1, modify at 1 in H.
  apply (retryLoop_returns_along name op m Hop) in H.
  destruct H as (s & s' & Hs & Hrs & Hrs'). exists s, s'.
  split; [exact Hs |]. split; [| exact Hrs'].
  etransitivity; [apply step_currentOperation | exact Hrs].
Qed.
End RetryInversion.

Section Whole.
Context {W : Type} (drv : Driver W).
#[local] Abbreviation T := (Tester W).

Lemma getDropdownOptions_returns el i (t : T) opts t' :
  getDropdownOptions drv el i t = (Ok opts, t') ->
  opts <> [] /\ exists w w', drv_options drv el w = (Ok opts, w').
Proof.
  unfold getDropdownOptions, executeWithRetry, bind at 1, modify at 1.
  intros H. apply retryLoop_returns in H. destruct H as (s & s' & Hop).
  unfold bind at 1, drive in Hop. destruct (driver s); [| discriminate].
  destruct (drv_options drv el (world s)) as [[opts' | e] w'] eqn:Hd;
    [| discriminate].
  destruct opts' as [| o' opts']; [discriminate |].
  unfold bind, captureValidation, modify in Hop. cbn in Hop.
  injection Hop as <- _. split; [discriminate | eauto].
Qed.

(** What the loop that collects the option sets leaves in
    [dropdownOptions] when it returns. *)
Lemma collectOptions_returns (l : list Elem) :
  forall k acc (t : T) acc' t',
    for_each (collectDropdown drv) k l (acc, t) = (Ok tt, (acc', t')) ->
    exists rows,
      acc' = acc ++ rows /\
      Forall2 (fun el opts =>
                 opts <> [] /\
                 exists w w', drv_options drv (Some el) w = (Ok opts, w'))
        l rows.
Proof.
  induction l as [| el l IH]; intros k acc t acc' t' H.
  - injection H as <- <-. exists []. rewrite app_nil_r. split; [reflexivity | constructor].
  - cbn [for_each] in H. unfold bind at 1 in H.
    unfold collectDropdown at 1 in H. unfold bind at 1 in H. rewrite lift_run in H.
    destruct (getDropdownOptions drv (Some el) k t) as [[opts | e] t1] eqn:Hget;
      cbn [fst snd] in H; [| discriminate].
    apply getDropdownOptions_returns in Hget.
    destruct opts as [| o opts]; [discriminate |].
    unfold local at 1 in H. cbn [fst snd] in H.
    apply IH in H. destruct H as (rows & -> & Hrows).
    exists ((o :: opts) :: rows). rewrite <- app_assoc. split; [reflexivity |].
    constructor; [exact Hget | exact Hrows].
Qed.

Lemma rows_nonempty_product (rows : list (list DOption)) :
  Forall (fun opts => opts <> []) rows -> 0 < length (cartesian rows).
Proof.
  induction 1 as [| opts rows Hne _ IH]; cbn [cartesian]; [cbn; lia |].
  rewrite length_cartesian_cons. destruct opts; [congruence | cbn; lia].
Qed.

Lemma with_local_run {L A : Type} (l0 : L) (m : M (L * T) A) (t : T) :
  with_local l0 m t =
  match m (l0, t) with
  | (Ok a, (l, t')) => (Ok (a, l), t')
  | (Throw e, (_, t')) => (Throw e, t')
  end.
Proof. reflexivity. Qed.

(** A list of results returned by [testAllCombinations] was pushed by one
    run of the enumerator from an empty list, over option sets that the
    page gave for the dropdowns. *)
Lemma testAllCombinations_inv (R : relation T) `{!EngineStep R}
    (els : list Elem) (t : T) results t' :
  testAllCombinations drv els t = (Ok results, t') ->
  exists rows s1 s2,
    els <> [] /\
    Forall2 (fun el opts =>
               opts <> [] /\
               exists w w', drv_options drv (Some el) w = (Ok opts, w'))
      els rows /\
    testCombosRecursive drv els rows 0 [] ([], s1) = (Ok tt, (results, s2)) /\
    R t s1 /\ R s2 t'.
Proof.
  unfold testAllCombinations. intros H.
  apply (executeWithRetry_returns_along drv R) in H.
  2:{ destruct els as [| el els]; [along |].
      pose proof (along_testCombos drv R (el :: els)) as Hcombos.
      pose proof (along_getDropdownOptions drv R).
      pose proof (along_captureValidation (W := W) R).
      unfold testCombosRecursive, collectOptions, collectDropdown. along. }
  destruct H as (s & s' & Hop & Hts & Hst').
  destruct els as [| el els]; [discriminate |].
  set (els' := el :: els) in *.
  unfold bind at 1 in Hop. rewrite with_local_run in Hop.
  destruct (collectOptions drv els' ([], s)) as [[[] | e] [rows sa]] eqn:Hcol;
    [| discriminate].
  unfold bind at 1 in Hop. cbn [snd] in Hop.
  match type of Hop with
  | context [captureValidation ?m ?b sa] =>
      pose proof (along_captureValidation R m b sa) as Hcap1;
      destruct (captureValidation m b sa) as [[[] | ?] sb] eqn:Hc1
  end; [| discriminate].
  unfold bind at 1 in Hop. rewrite with_local_run in Hop.
  destruct (testCombosRecursive drv els' rows 0 [] ([], sb))
    as [[[] | e] [res sc]] eqn:Hrun; [| discriminate].
  unfold bind at 1 in Hop.
  pose proof (along_captureValidation R "Combinations tested" true sc) as Hcap2.
  destruct (captureValidation "Combinations tested" true sc) as [[[] | ?] sd] eqn:Hc2;
    [| discriminate].
  cbn in Hop. injection Hop as <- <-.
  cbn [snd] in *.
  unfold collectOptions in Hcol.
  assert (Hsa : R s sa).
  { assert (Ha : Along (onTester R) (for_each (collectDropdown drv) 0 els')).
    { pose proof (along_getDropdownOptions drv R).
      unfold collectDropdown. along. }
    specialize (Ha ([], s)). now rewrite Hcol in Ha. }
  apply collectOptions_returns in Hcol. destruct Hcol as (rows' & -> & Hrows).
  exists rows', sb, sc. split; [discriminate |]. split; [exact Hrows |].
  split; [exact Hrun |]. split.
  - etransitivity; [exact Hts |]. etransitivity; [exact Hsa | exact Hcap1].
  - etransitivity; [exact Hcap2 | exact Hst'].
Qed.
End Whole.

(** X5: A list returned by testAllCombinations is never empty: the dropdown
    list was not empty, every dropdown gave a non-empty option list that
    the page returned, there is exactly one PASSED-or-FAILED result per
    combination of options, in depth-first order, and the results are
    numbered 1, 2, ... in that order. *)
Theorem testAllCombinations_returns {W : Type} (drv : Driver W) (els : list Elem)
    (t : Tester W) results t' :
  testAllCombinations drv els t = (Ok results, t') ->
  exists dropdownOptions,
    els <> [] /\
    Forall2 (fun el opts =>
               opts <> [] /\
               exists w w', drv_options drv (Some el) w = (Ok opts, w'))
      els dropdownOptions /\
    Forall2 (fun r tuple => Classified tuple r) results (cartesian dropdownOptions) /\
    length results = totalCombos dropdownOptions /\
    0 < length results /\
    map r_number results = seq 1 (length results).
Proof.
  intros H. apply (testAllCombinations_inv drv LogsGrow) in H.
  destruct H as (rows & s1 & s2 & Hne & Hrows & Hrun & _).
  exists rows. split; [exact Hne |]. split; [exact Hrows |].
  pose proof (recorded_testCombosRecursive drv els rows 0 [] ([], s1)) as Hrec.
  rewrite Hrun in Hrec. destruct Hrec as (new & Hnew & Hnum & _).
  cbn [fst snd app length] in Hnew, Hnum. subst new.
  unfold testCombosRecursive in Hrun.
  apply testCombos_results in Hrun; [| lia].
  destruct Hrun as (new & Hnew & Hcls). cbn [app] in Hnew. subst new.
  rewrite drop_0 in Hcls. cbn [app] in Hcls.
  assert (Hlen : length results = length (cartesian rows))
    by (eapply Forall2_length; exact Hcls).
  split; [exact Hcls |]. split; [now rewrite Hlen, length_cartesian |].
  split; [| exact Hnum].
  rewrite Hlen. apply rows_nonempty_product.
  clear - Hrows. induction Hrows as [| el opts els rows [Hne _] _ IH]; constructor; auto.
Qed.

Lemma testAllCombinations_returns_witness :
  exists results t',
    testAllCombinations Pages.emptyPage [0; 1]
      (Pages.fresh (Pages.values [EmptyString; EmptyString])) = (Ok results, t') /\
    length results = 6 /\
    map r_number results = [1; 2; 3; 4; 5; 6].
Proof.
  destruct (testAllCombinations Pages.emptyPage [0; 1]
              (Pages.fresh (Pages.values [EmptyString; EmptyString])))
    as [[results | e] t'] eqn:Hrun; [| vm_compute in Hrun; discriminate].
  exists results, t'. split; [reflexivity |].
  destruct (testAllCombinations_returns _ _ _ _ _ Hrun)
    as (rows & _ & _ & _ & _ & _ & Hnum).
  assert (Hlen : length results = 6).
  { vm_compute in Hrun. injection Hrun as <- _. reflexivity. }
  split; [exact Hlen |]. rewrite Hnum, Hlen. reflexivity.
Defined.

(** X6: Across testAllCombinations, with its retries, the counters only
    grow and stay balanced: totalTests grows by exactly the growth of
    passedTests plus that of failedTests, so totalTests = passedTests +
    failedTests is kept. When a list is returned, the counters have grown
    by at least the numbers of its PASSED and FAILED results (by more when
    an earlier attempt was abandoned after testing combinations). *)
Theorem counters_never_undercount {W : Type} (drv : Driver W) (els : list Elem)
    (t : Tester W) :
  let out := testAllCombinations drv els t in
  CountersAdvance t (snd out) /\
  (totalTests t = passedTests t + failedTests t ->
   totalTests (snd out) = passedTests (snd out) + failedTests (snd out)) /\
  (forall results,
     fst out = Ok results ->
     passedTests t + countStatus "PASSED" results <= passedTests (snd out) /\
     failedTests t + countStatus "FAILED" results <= failedTests (snd out) /\
     totalTests t + length results <= totalTests (snd out)).
Proof.
  cbv zeta.
  pose proof (along_testAllCombinations drv CountersAdvance els t) as Hadv.
  split; [exact Hadv |]. split.
  - destruct Hadv as (p & f & Hp & Hf & Ht). lia.
  - intros results Hres.
    destruct (testAllCombinations drv els t) as [out t'] eqn:Hrun.
    cbn [fst snd] in *. subst out.
    apply (testAllCombinations_inv drv CountersAdvance) in Hrun.
    destruct Hrun as (rows & s1 & s2 & _ & _ & Hrun & H1 & H2).
    pose proof (recorded_testCombosRecursive drv els rows 0 [] ([], s1)) as Hrec.
    rewrite Hrun in Hrec. destruct Hrec as (new & Hnew & _ & _ & _ & Hp & Hf & Ht).
    cbn [fst snd app] in *. subst new.
    destruct H1 as (p1 & f1 & ? & ? & ?). destruct H2 as (p2 & f2 & ? & ? & ?).
    lia.
Qed.

Lemma retryLoop_throws_exhausted {W : Type} (drv : Driver W) {A : Type}
    name (op : M (Tester W) A) m :
  quietRecovery name ->
  forall remaining attempt (t : Tester W) e t',
    retryLoop drv name op m remaining attempt t = (Throw e, t') ->
    e = exhausted name m.
Proof.
  intros Hq. induction remaining as [| r IH]; intros attempt t e t' H.
  - cbn in H. now injection H as <- _.
  - set (t0 := set_executionLog (executionLog t ++ [attemptLine name m attempt]) t).
    destruct (op t0) as [[a | e0] s1] eqn:Hop.
    + destruct (retryLoop_succeeded drv name op m r attempt t a s1 Hop) as (s2 & Hrun & _).
      rewrite Hrun in H. discriminate.
    + rewrite (retryLoop_failed _ _ _ _ _ _ _ _ _ Hop) in H.
      destruct (onFailure_quiet drv (A := A) name m attempt e0 s1 Hq) as (s2 & Hon & _).
      rewrite Hon in H. eapply IH. exact H.
Qed.

Lemma executeWithRetry_throws_exhausted {W : Type} (drv : Driver W) {A : Type}
    name (op : M (Tester W) A) m (t : Tester W) e t' :
  quietRecovery name ->
  executeWithRetry drv name op m t = (Throw e, t') ->
  e = exhausted name m.
Proof.
  intros Hq H. unfold executeWithRetry, bind at 1, modify at 1 in H.
  eapply retryLoop_throws_exhausted; eassumption.
Qed.



(** X8: getDropdownOptions never returns an empty list: it returns a non-
    empty list the page gave (so a default option always exists in it) or
    throws 'dropdownOptions failed after 2 attempts'. selectDropdownOption
    returns true or throws 'selection failed after 2 attempts'; it never
    returns false. *)
Theorem dropdown_operations_outcomes {W : Type} (drv : Driver W) el i o
    (t : Tester W) :
  match fst (getDropdownOptions drv el i t) with
  | Ok opts =>
      opts <> [] /\
      (exists w w', drv_options drv el w = (Ok opts, w')) /\
      (exists d, defaultOption opts = Some d /\ In d opts)
  | Throw e => e = exhausted "dropdownOptions" maxRetries.dropdownOptions
  end /\
  match fst (selectDropdownOption drv el o i t) with
  | Ok selected => selected = true
  | Throw e => e = exhausted "selection" maxRetries.selection
  end.
Proof.
  split.
  - destruct (getDropdownOptions drv el i t) as [[opts | e] t'] eqn:Hrun; cbn [fst].
    + apply getDropdownOptions_returns in Hrun. destruct Hrun as [Hne Hpage].
      split; [exact Hne |]. split; [exact Hpage |].
      destruct (defaultOption_nonempty opts Hne) as [d Hd]. exists d.
      split; [exact Hd |].
      destruct (defaultOption_spec opts d Hd) as [[_ Hin] | [_ Hhead]]; [exact Hin |].
      destruct opts; [discriminate |]. injection Hhead as ->. now left.
    + unfold getDropdownOptions in Hrun.
      eapply (executeWithRetry_throws_exhausted drv); [split; discriminate | exact Hrun].
  - destruct (selectDropdownOption drv el o i t) as [[b | e] t'] eqn:Hrun; cbn [fst].
    + eapply selectDropdownOption_true. exact Hrun.
    + unfold selectDropdownOption in Hrun.
      eapply (executeWithRetry_throws_exhausted drv); [split; discriminate | exact Hrun].
Qed.

Lemma onFailure_errorLog {W : Type} (drv : Driver W) {A : Type} name m attempt e
    (s : Tester W) :
  quietRecovery name ->
  errorLog (snd (onFailure (A := A) drv name m attempt e s)) =
  errorLog s ++ [(name +:+ " failed attempt " +:+ pretty attempt, e)].
Proof.
  intros [Hnav Hdd]. unfold onFailure, performRecovery.
  destruct (decide (name = "navigation")); [contradiction |].
  destruct (decide (name = "dropdownFinding")); [contradiction |].
  now destruct (attempt <? m)%nat.
Qed.

(** An operation that throws at once, under a name whose recovery only
    waits: every attempt writes its error to the error log. *)
Lemma retryLoop_throwing_errorLog {W : Type} (drv : Driver W) {A : Type} name e m :
  quietRecovery name ->
  forall remaining attempt (t : Tester W),
    errorLog (snd (retryLoop drv name (throw (A := A) e) m remaining attempt t)) =
    errorLog t ++
    map (fun k => (name +:+ " failed attempt " +:+ pretty k, e))
      (seq attempt remaining).
Proof.
  intros Hq. induction remaining as [| r IH]; intros attempt t.
  - cbn. now rewrite app_nil_r.
  - erewrite retryLoop_failed by reflexivity.
    destruct (onFailure_quiet drv (A := A) name m attempt e
                (set_executionLog (executionLog t ++ [attemptLine name m attempt]) t) Hq)
      as (s2 & Hon & _).
    pose proof (onFailure_errorLog drv (A := A) name m attempt e
                  (set_executionLog (executionLog t ++ [attemptLine name m attempt]) t) Hq)
      as Hlog.
    rewrite Hon in *. cbn [snd] in Hlog. rewrite IH, Hlog. cbn [seq map].
    now rewrite <- app_assoc.
Qed.

Lemma adds_none_preserves_calls {W A : Type} (m : M (Tester W) A) :
  Adds (fun _ => False) m -> Preserves calls m.
Proof.
  intros H t. destruct (H t) as (cs & Hc & Hall).
  destruct cs as [| c cs]; [now rewrite Hc, app_nil_r |].
  inversion Hall as [| ? ? []].
Qed.

(** Under a name whose recovery only waits, the executor makes no driver
    call of its own. *)
Lemma quiet_executeWithRetry_calls {W : Type} (drv : Driver W) {A : Type} name
    (op : M (Tester W) A) m :
  quietRecovery name -> Preserves calls op ->
  Preserves calls (executeWithRetry drv name op m).
Proof.
  intros Hq Hop. apply adds_none_preserves_calls.
  apply adds_executeWithRetry; [exact Hq |]. now apply adds_nothing.
Qed.

(** X9: On an empty list of dropdowns testAllCombinations makes no driver
    call and tests nothing: the 'No dropdowns' error is retried three
    times, written three times to the error log, counted three times in
    retryCounts.testAllCombinations, and the call throws
    'testAllCombinations failed after 3 attempts'; the test counters are
    unchanged. *)
Theorem testAllCombinations_no_dropdowns {W : Type} (drv : Driver W) (t : Tester W) :
  let out := testAllCombinations drv [] t in
  fst out = Throw (exhausted "testAllCombinations" maxRetries.overall) /\
  calls (snd out) = calls t /\
  counters (snd out) = counters t /\
  retryCount "testAllCombinations" (snd out) =
    retryCount "testAllCombinations" t + 3 /\
  errorLog (snd out) =
    errorLog t ++
    [("testAllCombinations failed attempt 1", "No dropdowns");
     ("testAllCombinations failed attempt 2", "No dropdowns");
     ("testAllCombinations failed attempt 3", "No dropdowns")].
Proof.
  cbv zeta. unfold exhausted.
  assert (Hq : quietRecovery "testAllCombinations") by (split; discriminate).
  set (op := throw (S := Tester W) (A := list CombinationResult) "No dropdowns").
  change (testAllCombinations drv [] t)
    with (executeWithRetry drv "testAllCombinations" op maxRetries.overall t).
  assert (Hfail : forall s, isThrow (fst (op s)) = true) by (intros s; reflexivity).
  assert (Hrc : Preserves (retryCount "testAllCombinations") op)
    by (intros s; reflexivity).
  assert (Hcalls : Preserves calls op) by (intros s; reflexivity).
  assert (Hcnt : Preserves counters op) by (intros s; reflexivity).
  pose proof (executeWithRetry_always_failing drv "testAllCombinations" op
                maxRetries.overall t Hq Hfail Hrc) as [Hmsg Hcount].
  pose proof (quiet_executeWithRetry_calls drv "testAllCombinations" op
                maxRetries.overall Hq Hcalls t) as Hc.
  pose proof (preserves_executeWithRetry drv counters "testAllCombinations" op
                maxRetries.overall Hcnt t) as Hk.
  pose proof (retryLoop_throwing_errorLog drv (A := list CombinationResult)
                "testAllCombinations" "No dropdowns" maxRetries.overall Hq
                maxRetries.overall 1
                (set_currentOperation (Some "testAllCombinations") t)) as Hlog.
  split; [exact Hmsg |]. split; [exact Hc |]. split; [exact Hk |].
  split; [exact Hcount |].
  etransitivity; [exact Hlog |]. cbn [errorLog set_currentOperation]. f_equal.
Qed.

Section Observation.
Context {W : Type} (drv : Driver W).
#[local] Abbreviation T := (Tester W).

(** The check of the message never throws: a failure of its script is
    logged and reads as a message that was not found. *)
Lemma validateNoResultsMessage_total (t : T) :
  exists nr t',
    validateNoResultsMessage drv t = (Ok nr, t') /\
    calls t' = calls t ++ (if driver t then [CNoResults] else []) /\
    driver t' = driver t.
Proof.
  unfold validateNoResultsMessage, try_catch, drive.
  destruct (driver t) eqn:Hd.
  - destruct (drv_noResults drv (world t)) as [[nr | e] w]; eexists _, _;
      (split; [reflexivity |]); cbn; now rewrite Hd.
  - eexists _, _. split; [reflexivity |]. cbn. now rewrite app_nil_r, Hd.
Qed.

(** The body of [validateSortByForVisibleTiles] when no tile is
    visible. *)
Lemma sortBy_without_tiles n sel tv (t : T) :
  tv_visible tv = 0 ->
  exists sv t',
    validateSortByForVisibleTiles drv n sel tv t = (Ok sv, t') /\
    (sv_status sv = "VALIDATED_WITH_NO_RESULTS" \/
     sv_status sv = "VALIDATED_NO_TILES" \/
     sv_status sv = "NOT_APPLICABLE") /\
    sv_tilesToSort sv = 0 /\
    sv_applicable sv = false /\
    sv_canBeSorted sv = false /\
    (exists k, k <= 2 /\ calls t' = calls t ++ replicate k CNoResults) /\
    (tv_hasNoResultsMessage tv = false ->
     sv_status sv =
       (if isProblematicCombo sel then "VALIDATED_NO_TILES" else "NOT_APPLICABLE")) /\
    (tv_hasNoResultsMessage tv = false -> isProblematicCombo sel = false ->
     calls t' = calls t).
Proof.
  intros Hv. unfold validateSortByForVisibleTiles, executeWithRetry.
  unfold bind at 1, modify at 1.
  set (t00 := set_currentOperation (Some "sortByValidation") t).
  set (t0 := set_executionLog
               (executionLog t00 ++
                [attemptLine "sortByValidation" maxRetries.sortByValidation 1]) t00).
  match goal with
  | |- context [retryLoop drv ?name ?op ?m ?r ?a t00] =>
      assert (Hop : exists sv s1,
                 op t0 = (Ok sv, s1) /\
                 (sv_status sv = "VALIDATED_WITH_NO_RESULTS" \/
                  sv_status sv = "VALIDATED_NO_TILES" \/
                  sv_status sv = "NOT_APPLICABLE") /\
                 sv_tilesToSort sv = 0 /\
                 sv_applicable sv = false /\
                 sv_canBeSorted sv = false /\
                 (exists k, k <= 2 /\ calls s1 = calls t ++ replicate k CNoResults) /\
                 (tv_hasNoResultsMessage tv = false ->
                  sv_status sv =
                    (if isProblematicCombo sel then "VALIDATED_NO_TILES"
                     else "NOT_APPLICABLE")) /\
                 (tv_hasNoResultsMessage tv = false -> isProblematicCombo sel = false ->
                  calls s1 = calls t))
  end.
  { unfold bind at 1, modify at 1.
    set (t1 := set_currentOperation (Some "sortByValidation") t0).
    assert (Hc1 : calls t1 = calls t) by reflexivity.
    rewrite Hv. change (0 =? 0)%nat with true. change (0 <? 2)%nat with true.
    rewrite !andb_true_r.
    destruct (validateNoResultsMessage_total t1) as (nr & t2 & Hnr & Hc2 & Hd2).
    destruct (validateNoResultsMessage_total t2) as (nr' & t3 & Hnr' & Hc3 & Hd3).
    destruct (validateNoResultsMessage_total t1) as (nr'' & t3' & Hnr'' & Hc3' & Hd3').
    destruct (tv_hasNoResultsMessage tv) eqn:Hmsg.
    - unfold bind at 1. unfold bind at 1. rewrite Hnr.
      destruct (nr_found nr && nr_isVisible nr).
      + eexists _, _. split; [reflexivity |]. cbn.
        split; [auto |]. repeat split; try discriminate.
        exists (if driver t1 then 1 else 0). rewrite Hc2, Hc1.
        destruct (driver t1); cbn; rewrite ?app_nil_r; split; (lia || reflexivity).
      + cbn. destruct (isProblematicCombo sel).
        * unfold bind at 1. rewrite Hnr'.
          eexists _, _. split; [reflexivity |]. cbn.
          split; [auto |]. repeat split; try discriminate.
          exists ((if driver t1 then 1 else 0) + (if driver t2 then 1 else 0)).
          rewrite Hc3, Hc2, Hc1, <- app_assoc.
          destruct (driver t1), (driver t2); cbn; rewrite ?app_nil_r; split; (lia || reflexivity).
        * eexists _, _. split; [reflexivity |]. cbn.
          split; [auto |]. repeat split; try discriminate.
          exists (if driver t1 then 1 else 0). rewrite Hc2, Hc1.
          destruct (driver t1); cbn; rewrite ?app_nil_r; split; (lia || reflexivity).
    - unfold bind at 1. cbn [ret]. cbv beta iota.
      destruct (isProblematicCombo sel).
      + unfold bind at 1. rewrite Hnr.
        eexists _, _. split; [reflexivity |]. cbn.
        split; [auto |]. repeat split; try discriminate.
        exists (if driver t1 then 1 else 0). rewrite Hc2, Hc1.
        destruct (driver t1); cbn; rewrite ?app_nil_r; split; (lia || reflexivity).
      + eexists _, _. split; [reflexivity |]. cbn.
        split; [auto |]. repeat split; try discriminate.
        exists 0. cbn. split; [lia | now rewrite app_nil_r]. }
  destruct Hop as (sv & s1 & Hop & Hst & Hts & Happ & Hcan & Hcalls & Hno & Hquiet).
  destruct (retryLoop_succeeded drv "sortByValidation" _ maxRetries.sortByValidation
              1 1 t00 _ _ Hop) as (s2 & Hloop & _ & _ & Hc & _).
  exists sv, s2. split; [exact Hloop |]. rewrite Hc.
  repeat split; auto.
Qed.
End Observation.

Section TileObservation.
Context {W : Type} (drv : Driver W).
#[local] Abbreviation T := (Tester W).

Lemma validateTileCount_returns n (t : T) tv t' :
  validateTileCount drv n t = (Ok tv, t') ->
  tv_status tv = observedStatus (tv_visible tv) (tv_hasNoResultsMessage tv).
Proof.
  unfold validateTileCount, executeWithRetry, bind at 1, modify at 1.
  intros H. apply retryLoop_returns in H. destruct H as (s & s' & Hop).
  unfold bind in Hop.
  repeat match type of Hop with
         | context [match ?x with (_, _) => _ end] =>
             lazymatch x with
             | (_, _) => fail
             | _ => destruct x as [[? | ?] ?]
             end
         | context [if ?b then _ else _] => destruct b eqn:?
         end; try discriminate;
    cbn in Hop; injection Hop as <- _; unfold observedStatus;
    cbn [tv_status tv_visible tv_hasNoResultsMessage];
    repeat match goal with
           | H : ?b = _ |- context [?b] => rewrite H
           end; reflexivity.
Qed.

Lemma drive_run {A : Type} c (f : W -> outcome A * W) (t : T) r w :
  driver t = true -> f (world t) = (r, w) ->
  drive c f t = (r, set_world w (set_calls (calls t ++ [c]) t)).
Proof. intros Hd Hf. unfold drive. now rewrite Hd, Hf. Qed.

(** A capture touches the validation buffer and file only. *)
Lemma capture_fields msg b (t : T) :
  let t' := snd (captureValidation msg b t) in
  fst (captureValidation msg b t) = Ok tt /\
  world t' = world t /\ driver t' = driver t /\ calls t' = calls t /\
  retryCounts t' = retryCounts t /\ counters t' = counters t /\
  currentOperation t' = currentOperation t /\ isRecovering t' = isRecovering t /\
  executionLog t' = executionLog t /\ errorLog t' = errorLog t.
Proof.
  unfold captureValidation, modify. cbn [fst snd].
  destruct (b || _); [unfold flushValidationBuffer; cbn;
                      destruct (validationBuffer t ++ _) |]; now repeat split.
Qed.

(** A failure of the detection script does not fail the validation: it
    is logged, and the validation returns an observation of no tile. *)
Lemma validateTileCount_undetected n (t : T) w2 e w3 :
  driver t = true ->
  drv_exec drv scrollToTop (drv_elapse drv 2500 (world t)) = (Ok tt, w2) ->
  drv_detectTiles drv (drv_elapse drv 500 w2) = (Throw e, w3) ->
  exists t',
    validateTileCount drv n t = (Ok (undetected e), t') /\
    driver t' = true /\
    errorLog t' = errorLog t ++ [("Nationwide tile detection failed", e)] /\
    calls t' = calls t ++ [CExec scrollToTop; CDetectTiles].
Proof.
  intros Hd Hscroll Hdetect.
  unfold validateTileCount, executeWithRetry. unfold bind at 1, modify at 1.
  set (t00 := set_currentOperation (Some "tileValidation") t).
  set (t0 := set_executionLog
               (executionLog t00 ++
                [attemptLine "tileValidation" maxRetries.tileValidation 1]) t00).
  match goal with
  | |- context [retryLoop drv ?name ?op ?m ?r ?a t00] =>
      assert (Hop : exists s1,
                 op t0 = (Ok (undetected e), s1) /\
                 driver s1 = true /\
                 errorLog s1 = errorLog t ++ [("Nationwide tile detection failed", e)] /\
                 calls s1 = calls t ++ [CExec scrollToTop; CDetectTiles])
  end.
  { erewrite bind_ok by reflexivity.
    erewrite bind_ok by reflexivity.
    erewrite bind_ok by (apply drive_run; [exact Hd | exact Hscroll]).
    erewrite bind_ok by reflexivity.
    erewrite bind_ok.
    2:{ unfold detectTilesOnNationwidePage. erewrite try_catch_throw.
        2:{ apply drive_run; [exact Hd | exact Hdetect]. }
        reflexivity. }
    cbn [td_hasNoResultsMessage andb].
    erewrite bind_ok by reflexivity.
    match goal with
    | |- context [bind (captureValidation ?m ?b) _ ?x] =>
        destruct (capture_fields m b x) as (Hok & _ & Hdr & Hca & _ & _ & _ & _ & _ & Her);
        destruct (captureValidation m b x) as [out s1] eqn:Hcap
    end.
    cbn [fst snd] in *. subst out. erewrite bind_ok by exact Hcap.
    exists s1. split; [reflexivity |]. rewrite Hdr, Her, Hca. cbn.
    split; [exact Hd |]. split; [reflexivity |]. now rewrite <- app_assoc. }
  destruct Hop as (s1 & Hop & Hd1 & Hlog & Hcalls).
  destruct (retryLoop_succeeded drv "tileValidation" _ maxRetries.tileValidation
              1 1 t00 _ _ Hop) as (s2 & Hloop & Hrc & _ & Hc & Hdr).
  exists s2. split; [exact Hloop |]. split; [congruence |].
  split; [| congruence].
  rewrite <- Hlog.
  cbn [retryLoop] in Hloop. unfold bind at 1, logExecution, modify in Hloop.
  unfold bind at 1 in Hloop. fold t0 in Hloop.
  erewrite try_catch_ok in Hloop.
  2:{ erewrite bind_ok by exact Hop. reflexivity. }
  unfold onSuccess, when in Hloop. cbn [Nat.ltb Nat.leb] in Hloop.
  cbn in Hloop. now injection Hloop as <-.
Qed.
End TileObservation.

Section Masking.
Context {W : Type} (drv : Driver W).
#[local] Abbreviation T := (Tester W).

Lemma along_classify (R : relation T) `{!EngineStep R} n tv :
  Along (onTester R) (classify (W := W) n tv).
Proof.
  pose proof (along_passed (W := W) R).
  pose proof (along_captureValidation (W := W) R).
  unfold classify. along.
Qed.

Lemma lift_ok {L A : Type} (m : M T A) (l : L) (t : T) a t' :
  m t = (Ok a, t') -> lift m (l, t) = (Ok a, (l, t')).
Proof. intros H. rewrite lift_run, H. reflexivity. Qed.

Lemma detection_failure_run sel (els : list Elem) n (t : T) r1 t1 w2 e w3 :
  verifySelections drv sel els (initialResult n, t) = (Ok tt, (r1, t1)) ->
  driver t1 = true ->
  drv_exec drv scrollToTop (drv_elapse drv 2500 (world t1)) = (Ok tt, w2) ->
  drv_detectTiles drv (drv_elapse drv 500 w2) = (Throw e, w3) ->
  exists r t',
    testSingleCombination drv sel els n t = (Ok r, t') /\
    r_status r = "PASSED" /\
    tileStatus r = Some "NO_VISIBLE_TILES" /\
    r_error r = Some "Expected: No visible tiles found for this combination" /\
    ("Nationwide tile detection failed", e) ∈ errorLog t'.
Proof.
  intros Hver Hd Hscroll Hdetect.
  destruct (validateTileCount_undetected drv n t1 w2 e w3 Hd Hscroll Hdetect)
    as (t2 & Htile & Hd2 & Hlog2 & _).
  destruct (sortBy_without_tiles drv n sel (undetected e) t2 eq_refl)
    as (sv & t3 & Hsort & _).
  pose proof (along_validateSortBy drv LogsGrow n sel (undetected e) t2) as Hg3.
  rewrite Hsort in Hg3. cbn [snd] in Hg3.
  set (r2 := set_sortByValidation
               (Some (mkSortSummary (sv_status sv) 0 (sv_sortControlsFound sv)
                        (sv_currentSortStatus sv) (sv_canBeSorted sv) (Some sv)
                        (sv_applicable sv)
                        (default "Not evaluated" (sv_condition sv))))
               (set_tileDetails []
                  (set_tileCount
                     (Some (mkTileCount 0 0 "NO_VISIBLE_TILES" ("Error: " +:+ e)
                              false EmptyString None)) r1))).
  assert (Hobs : observe drv sel els n (initialResult n, t) =
                 (Ok (undetected e), (r2, t3))).
  { unfold observe. erewrite bind_ok by exact Hver.
    erewrite bind_ok by (apply lift_ok; exact Htile).
    erewrite bind_ok by reflexivity. erewrite bind_ok by reflexivity.
    erewrite bind_ok by (apply lift_ok; exact Hsort).
    reflexivity. }
  unfold testSingleCombination.
  set (body := classify (W := W) n (undetected e) >>
               lift (captureValidation
                       ("Combo " +:+ pretty n +:+ " validation result") false)).
  assert (Hbody : Along (onTester LogsGrow) body).
  { pose proof (along_classify LogsGrow n (undetected e)).
    pose proof (along_captureValidation (W := W) LogsGrow).
    unfold body. along. }
  specialize (Hbody (r2, t3)).
  assert (Hrun : body (r2, t3) =
                 (Ok tt,
                  (set_error (Some "Expected: No visible tiles found for this combination")
                     (set_tileStatus "NO_VISIBLE_TILES" (set_status "PASSED" r2)),
                   snd (snd (body (r2, t3)))))).
  { unfold body, classify. cbn [tv_visible undetected Nat.ltb Nat.leb
      tv_hasNoResultsMessage andb]. cbv zeta.
    cbn [tv_visible tv_hasNoResultsMessage tv_noResultsElement undetected Nat.ltb
      Nat.leb andb].
    unfold bind at 1. rewrite verdict_branch. rewrite lift_capture. reflexivity. }
  rewrite Hrun in Hbody. unfold onTester in Hbody. cbn [snd] in Hbody.
  eexists _, _. split.
  { erewrite bind_ok.
    2:{ unfold with_local. erewrite try_catch_ok.
        2:{ erewrite bind_ok by exact Hobs. exact Hrun. }
        reflexivity. }
    reflexivity. }
  cbn [snd]. split; [reflexivity |]. split; [reflexivity |]. split; [reflexivity |].
  destruct Hbody as (_ & _ & Hp & _). destruct Hg3 as (_ & _ & Hp3 & _).
  assert (Hpre : errorLog t2 `prefix_of` errorLog (snd (snd (body (r2, t3)))))
    by (etransitivity; eassumption).
  destruct Hpre as [k ->]. rewrite Hlog2.
  apply elem_of_app. left. apply elem_of_app. right. now left.
Qed.
End Masking.

Section V5Classifier.
Context {W : Type} (drv : Driver W).
#[local] Abbreviation T := (Tester W).

(** What the read-back loop of validator5 leaves in [result.options]. *)
Lemma v5_verify_options (els : list Elem) :
  forall sel k r (t : T) out r' t',
    for_each (V5.verifySelection drv els) k sel (r, t) = (out, (r', t')) ->
    counters t' = counters t /\
    V5.c_status r' = V5.c_status r /\ V5.c_error r' = V5.c_error r /\
    V5.c_tileCount r' = V5.c_tileCount r /\
    exists p,
      V5.c_options r' = V5.c_options r ++ p /\
      p `prefix_of` recordedFrom k sel /\
      (isThrow out = false -> p = recordedFrom k sel).
Proof.
  induction sel as [| o sel IH]; intros k r t out r' t' H.
  - injection H as <- <- <-. repeat split. exists []. rewrite app_nil_r.
    now repeat split.
  - cbn [for_each] in H. unfold bind at 1 in H.
    unfold V5.verifySelection at 1 in H. unfold bind at 1 in H.
    rewrite lift_run in H.
    pose proof (preserves_drive counters (CVerify (els !! k) (opt_value o))
                  (drv_verify drv (els !! k) (opt_value o)) t) as Hc.
    destruct (drive (CVerify (els !! k) (opt_value o))
                (drv_verify drv (els !! k) (opt_value o)) t) as [[b | e] t1].
    + cbn [fst snd] in H, Hc. destruct b; cbn [negb] in H.
      * unfold local at 1 in H. cbn [fst snd] in H.
        apply IH in H. destruct H as (Hcnt & Hst & Herr & Htc & p & Hopt & Hpre & Hall).
        cbn in Hst, Herr, Htc, Hopt. rewrite <- app_assoc in Hopt.
        split; [congruence |]. repeat split; auto.
        eexists. split; [exact Hopt |]. cbn [recordedFrom app].
        split; [now apply prefix_cons | intros Hok; now rewrite (Hall Hok)].
      * injection H as <- <- <-. repeat split; auto. exists []. rewrite app_nil_r.
        split; [reflexivity |]. split; [apply prefix_nil | discriminate].
    + cbn [fst snd] in H, Hc. injection H as <- <- <-. repeat split; auto.
      exists []. rewrite app_nil_r.
      split; [reflexivity |]. split; [apply prefix_nil | discriminate].
Qed.

Lemma v5_validateTileCount_returns n (t : T) v t' :
  V5.validateTileCount drv n t = (Ok v, t') ->
  V5.v_status v = "VALIDATED" /\ counters t' = counters t.
Proof.
  intros H. split.
  - unfold V5.validateTileCount, executeWithRetry, bind at 1, modify at 1 in H.
    apply retryLoop_returns in H. destruct H as (s & s' & Hop).
    unfold bind in Hop.
    repeat match type of Hop with
           | context [match ?x with (_, _) => _ end] =>
               lazymatch x with
               | (_, _) => fail
               | _ => destruct x as [[? | ?] ?]
               end
           end; try discriminate.
    cbn in Hop. now injection Hop as <- _.
  - assert (Hp : Preserves counters (V5.validateTileCount drv n)).
    { unfold V5.validateTileCount. apply preserves_executeWithRetry; [typeclasses eauto |].
      apply preserves_bind; [now apply preserves_setOperation | intros _].
      apply preserves_bind; [now apply preserves_delay | intros _].
      apply preserves_bind; [now apply preserves_drive | intros tc].
      apply preserves_bind; [now apply preserves_captureValidation | intros _].
      apply preserves_ret. }
    specialize (Hp t). now rewrite H in Hp.
Qed.

Lemma v5_passed_tail (g : V5.Combo -> V5.Combo) (h : V5.Combo -> V5.Combo) msg b
    r (t : T) :
  (local g >> local h >> lift (incTotal >> incPassed) >>
   lift (captureValidation msg b)) (r, t) =
  (Ok tt,
   (h (g r),
    snd (captureValidation msg b
           (set_counters (totalTests t + 1) (passedTests t + 1)
              (failedTests t) t)))).
Proof. reflexivity. Qed.

Lemma v5_failed_tail (g : V5.Combo -> V5.Combo) msg b r (t : T) :
  (local g >> lift (incTotal >> incFailed) >>
   lift (captureValidation msg b)) (r, t) =
  (Ok tt,
   (g r,
    snd (captureValidation msg b
           (set_counters (totalTests t + 1) (passedTests t)
              (failedTests t + 1) t)))).
Proof. reflexivity. Qed.

Lemma v5_verify_names (els : list Elem) :
  forall sel k r (t : T) out r' t',
    for_each (V5.verifySelection drv els) k sel (r, t) = (out, (r', t')) ->
    V5.c_number r' = V5.c_number r /\ V5.c_name r' = V5.c_name r.
Proof.
  induction sel as [| o sel IH]; intros k r t out r' t' H.
  - now injection H as <- <- <-.
  - cbn [for_each] in H. unfold bind at 1 in H.
    unfold V5.verifySelection at 1 in H. unfold bind at 1 in H.
    rewrite lift_run in H.
    destruct (drive _ _ t) as [[[|] | e] t1]; cbn [fst snd negb] in H.
    + unfold local at 1 in H. cbn [fst snd] in H. apply IH in H. exact H.
    + now injection H as <- <- <-.
    + now injection H as <- <- <-.
Qed.

Lemma preserves_v5_validateTileCount n :
  Preserves counters (V5.validateTileCount drv n).
Proof.
  unfold V5.validateTileCount.
  apply preserves_executeWithRetry; [typeclasses eauto |].
  apply preserves_bind; [now apply preserves_setOperation | intros _].
  apply preserves_bind; [now apply preserves_delay | intros _].
  apply preserves_bind; [now apply preserves_drive | intros tc].
  apply preserves_bind; [now apply preserves_captureValidation | intros _].
  apply preserves_ret.
Qed.

(** The [try] block of the classifier of validator5, by its outcome. *)
Lemma v5_attempt_spec sel (els : list Elem) n (t : T) out r' t' :
  V5.attempt drv sel els n (V5.initialResult n, t) = (out, (r', t')) ->
  V5.c_number r' = n /\ V5.c_name r' = "Combo " +:+ pretty n /\
  match out with
  | Ok _ =>
      V5.c_status r' = "PASSED" /\ V5.c_error r' = None /\
      V5.t_status (V5.c_tileCount r') = "VALIDATED" /\
      V5.c_options r' = recorded sel /\
      counters t' = (totalTests t + 1, passedTests t + 1, failedTests t)
  | Throw e =>
      V5.c_status r' = "FAILED" /\ V5.c_error r' = None /\
      V5.c_tileCount r' = V5.mkTiles 0 0 "NOT_VALIDATED" /\
      V5.c_options r' `prefix_of` recorded sel /\
      counters t' = counters t
  end.
Proof.
  unfold V5.attempt. intros H. unfold bind at 1 in H.
  destruct (for_each (V5.verifySelection drv els) 0 sel (V5.initialResult n, t))
    as [[[] | e] [r1 t1]] eqn:Hver.
  - destruct (v5_verify_names _ _ _ _ _ _ _ _ Hver) as [Hn1 Hname1].
    apply v5_verify_options in Hver.
    destruct Hver as (Hc1 & Hst1 & Her1 & Htc1 & p & Hopt & Hpre & Hall).
    specialize (Hall eq_refl). subst p. cbn in Hopt, Hn1, Hname1, Her1, Htc1, Hst1.
    unfold bind at 1 in H. rewrite lift_run in H.
    pose proof (preserves_v5_validateTileCount n t1) as Hc2.
    destruct (V5.validateTileCount drv n t1) as [[v | e] t2] eqn:Htile;
      cbn [fst snd] in H, Hc2.
    + apply v5_validateTileCount_returns in Htile. destruct Htile as [Hv _].
      rewrite v5_passed_tail in H.
      match type of H with
      | context [captureValidation ?m ?b ?x] =>
          destruct (capture_fields m b x) as (_ & _ & _ & _ & _ & Hc3 & _);
          remember (snd (captureValidation m b x)) as t3 eqn:Ht3; clear Ht3
      end.
      injection H as <- <- <-.
      cbn [V5.c_number V5.c_name V5.c_status V5.c_error V5.c_tileCount
           V5.c_options V5.set_tiles V5.set_status V5.t_status].
      rewrite Hc3. unfold counters in *. cbn [totalTests passedTests failedTests
        set_counters]. injection Hc1 as E1 E2 E3. injection Hc2 as F1 F2 F3.
      rewrite F1, F2, F3, E1, E2, E3. now repeat split.
    + injection H as <- <- <-. rewrite Hc2, Hc1, Hopt. now repeat split.
  - destruct (v5_verify_names _ _ _ _ _ _ _ _ Hver) as [Hn1 Hname1].
    apply v5_verify_options in Hver.
    destruct Hver as (Hc1 & Hst1 & Her1 & Htc1 & p & Hopt & Hpre & Hall).
    cbn in Hopt, Hn1, Hname1, Her1, Htc1, Hst1.
    injection H as <- <- <-. rewrite Hopt. now repeat split.
Qed.

Lemma v5_testSingleCombination_run sel (els : list Elem) n (t : T) :
  exists r t',
    V5.testSingleCombination drv sel els n t = (Ok r, t') /\
    V5.c_number r = n /\
    V5.c_name r = "Combo " +:+ pretty n /\
    totalTests t' = totalTests t + 1 /\
    match fst (V5.attempt drv sel els n (V5.initialResult n, t)) with
    | Ok _ =>
        V5.c_status r = "PASSED" /\ V5.c_error r = None /\
        V5.t_status (V5.c_tileCount r) = "VALIDATED" /\
        V5.c_options r = recorded sel /\
        passedTests t' = passedTests t + 1 /\ failedTests t' = failedTests t
    | Throw e =>
        V5.c_status r = "FAILED" /\ V5.c_error r = Some e /\
        V5.c_tileCount r = V5.mkTiles 0 0 "NOT_VALIDATED" /\
        V5.c_options r `prefix_of` recorded sel /\
        passedTests t' = passedTests t /\ failedTests t' = failedTests t + 1
    end.
Proof.
  unfold V5.testSingleCombination, bind at 1, with_local, try_catch.
  destruct (V5.attempt drv sel els n (V5.initialResult n, t))
    as [[[] | e] [r1 t1]] eqn:Hatt;
    apply v5_attempt_spec in Hatt; cbn [fst].
  - destruct Hatt as (Hn & Hname & Hst & Her & Htc & Hopt & Hc).
    unfold counters in Hc. injection Hc as ? ? ?.
    exists r1, t1. split; [reflexivity |]. now repeat split.
  - destruct Hatt as (Hn & Hname & Hst & Her & Htc & Hopt & Hc).
    unfold V5.recordFailure. rewrite v5_failed_tail.
    match goal with
    | |- context [captureValidation ?m ?b ?x] =>
        destruct (capture_fields m b x) as (_ & _ & _ & _ & _ & Hc3 & _);
        remember (snd (captureValidation m b x)) as t3 eqn:Ht3; clear Ht3
    end.
    unfold counters in *. cbn [totalTests passedTests failedTests set_counters] in Hc3.
    injection Hc as ? ? ?. injection Hc3 as ? ? ?.
    eexists _, t3. split; [reflexivity |].
    cbn [snd V5.c_number V5.c_name V5.c_status V5.c_error V5.c_tileCount V5.c_options
         V5.set_error V5.set_status].
    repeat split; auto; lia.
Qed.

Lemma v5_validateTileCount_run n (t : T) td w :
  driver t = true ->
  drv_detectTiles drv (drv_elapse drv 1500 (world t)) = (Ok td, w) ->
  exists t',
    V5.validateTileCount drv n t =
      (Ok (V5.mkValidation (td_total td) (td_visible td) (td_tileDetails td)
             "VALIDATED"), t') /\
    calls t' = calls t ++ [CDetectTiles].
Proof.
  intros Hd Hdetect.
  unfold V5.validateTileCount, executeWithRetry. unfold bind at 1, modify at 1.
  set (t00 := set_currentOperation (Some "tileValidation") t).
  set (t0 := set_executionLog
               (executionLog t00 ++
                [attemptLine "tileValidation" maxRetries.tileValidation 1]) t00).
  match goal with
  | |- context [retryLoop drv ?name ?op ?m ?r ?a t00] =>
      assert (Hop : exists s1,
                 op t0 =
                   (Ok (V5.mkValidation (td_total td) (td_visible td)
                          (td_tileDetails td) "VALIDATED"), s1) /\
                 calls s1 = calls t ++ [CDetectTiles])
  end.
  { erewrite bind_ok by reflexivity.
    erewrite bind_ok by reflexivity.
    erewrite bind_ok by (apply drive_run; [exact Hd | exact Hdetect]).
    match goal with
    | |- context [bind (captureValidation ?m ?b) _ ?x] =>
        destruct (capture_fields m b x) as (Hok & _ & _ & Hca & _);
        destruct (captureValidation m b x) as [out s1] eqn:Hcap
    end.
    cbn [fst snd] in *. subst out. erewrite bind_ok by exact Hcap.
    exists s1. split; [reflexivity |]. now rewrite Hca. }
  destruct Hop as (s1 & Hop & Hcalls).
  destruct (retryLoop_succeeded drv "tileValidation" _ maxRetries.tileValidation
              1 1 t00 _ _ Hop) as (s2 & Hloop & _ & _ & Hc & _).
  exists s2. split; [exact Hloop | congruence].
Qed.
End V5Classifier.

(** X10: testSingleCombination of dropdown-validator5.js always returns a
    result numbered and named after comboNumber and adds one to
    totalTests. If the read-back of every dropdown and the tile count
    succeed the result is PASSED with no error, tile status VALIDATED and
    all the dropdowns recorded, and passedTests grows by one; otherwise it
    is FAILED with the error's message, the tile count still {0, 0,
    NOT_VALIDATED}, the dropdowns read back before the failure recorded,
    and failedTests grows by one. *)
Theorem v5_classifier_outcomes {W : Type} (drv : Driver W) sel (els : list Elem) n
    (t : Tester W) :
  exists r t',
    V5.testSingleCombination drv sel els n t = (Ok r, t') /\
    V5.c_number r = n /\
    V5.c_name r = "Combo " +:+ pretty n /\
    totalTests t' = totalTests t + 1 /\
    match fst (V5.attempt drv sel els n (V5.initialResult n, t)) with
    | Ok _ =>
        V5.c_status r = "PASSED" /\ V5.c_error r = None /\
        V5.t_status (V5.c_tileCount r) = "VALIDATED" /\
        V5.c_options r = recorded sel /\
        passedTests t' = passedTests t + 1 /\ failedTests t' = failedTests t
    | Throw e =>
        V5.c_status r = "FAILED" /\ V5.c_error r = Some e /\
        V5.c_tileCount r = V5.mkTiles 0 0 "NOT_VALIDATED" /\
        V5.c_options r `prefix_of` recorded sel /\
        passedTests t' = passedTests t /\ failedTests t' = failedTests t + 1
    end.
Proof. apply v5_testSingleCombination_run. Qed.

(** X11: In dropdown-validator5.js a combination whose dropdowns read back
    passes whatever the tile script counts: the result is PASSED and its
    tileCount holds the script's total and visible counts with status
    VALIDATED, also when no tile is visible. *)
Theorem v5_any_tile_count_passes {W : Type} (drv : Driver W) sel (els : list Elem) n
    (t : Tester W) r1 t1 td w :
  for_each (V5.verifySelection drv els) 0 sel (V5.initialResult n, t) =
    (Ok tt, (r1, t1)) ->
  driver t1 = true ->
  drv_detectTiles drv (drv_elapse drv 1500 (world t1)) = (Ok td, w) ->
  exists r t',
    V5.testSingleCombination drv sel els n t = (Ok r, t') /\
    V5.c_status r = "PASSED" /\
    V5.c_tileCount r = V5.mkTiles (td_total td) (td_visible td) "VALIDATED" /\
    V5.c_tileDetails r = td_tileDetails td /\
    V5.c_options r = recorded sel /\
    passedTests t' = passedTests t + 1.
Proof.
  intros Hver Hd Hdetect.
  destruct (v5_validateTileCount_run drv n t1 td w Hd Hdetect) as (t2 & Htile & _).
  pose proof (v5_testSingleCombination_run drv sel els n t) as Hrun.
  assert (Hatt : exists t3,
             V5.attempt drv sel els n (V5.initialResult n, t) =
             (Ok tt,
              (V5.set_status "PASSED"
                 (V5.set_tiles
                    (V5.mkTiles (td_total td) (td_visible td) "VALIDATED")
                    (td_tileDetails td) r1), t3))).
  { unfold V5.attempt. erewrite bind_ok by exact Hver.
    erewrite bind_ok by (apply lift_ok; exact Htile).
    rewrite v5_passed_tail. eexists. reflexivity. }
  destruct Hatt as (t3 & Hatt).
  destruct Hrun as (r & t' & Hrun & _ & _ & _ & Hcase).
  rewrite Hatt in Hcase. cbn [fst] in Hcase.
  destruct Hcase as (Hst & _ & _ & Hopt & Hp & _).
  exists r, t'. split; [exact Hrun |]. split; [exact Hst |].
  unfold V5.testSingleCombination, bind at 1, with_local, try_catch in Hrun.
  rewrite Hatt in Hrun. cbn in Hrun. injection Hrun as <- _.
  now repeat split.
Qed.

Section V3Executor.
Context {W : Type} (drv : Driver W).
#[local] Abbreviation T := (Tester W).

(** The recovery of validator3 swallows the errors of its own calls; it
    leaves the retry counts and the error log alone, and under the other
    names than navigation and dropdownFinding it makes no call. *)
Lemma v3_performRecovery_spec name attempt (t : T) :
  exists t',
    V3.performRecovery drv name attempt t = (Ok tt, t') /\
    retryCounts t' = retryCounts t /\
    errorLog t' = errorLog t /\
    driver t' = driver t /\
    counters t' = counters t /\
    (name <> "navigation" -> name <> "dropdownFinding" -> calls t' = calls t).
Proof.
  unfold V3.performRecovery.
  repeat case_decide; unfold try_catch, bind, drive, delay, logExecution, modify;
    repeat match goal with
           | |- context [driver ?x] => destruct (driver x) eqn:?
           | |- context [match ?f (world ?x) with _ => _ end] =>
               destruct (f (world x)) as [[[] | ?] ?]
           end; eexists; (split; [reflexivity |]); cbn; repeat split; auto;
    try congruence.
Qed.

(** One failed attempt of the executor of validator3. *)
Lemma v3_retryLoop_failed {A : Type} name (op : M T A) m r attempt last (t : T)
    e s1 :
  op (set_executionLog
        (executionLog t ++
         ["Attempt " +:+ pretty attempt +:+ "/" +:+ pretty m +:+
          " for operation: " +:+ name]) t) = (Throw e, s1) ->
  exists s2,
    V3.retryLoop drv name op m (S r) attempt last t =
      V3.retryLoop drv name op m r (S attempt) (Some e) s2 /\
    (retryCount name s1 = 0 -> retryCounts s2 = retryCounts s1) /\
    errorLog s2 =
      errorLog s1 ++
      [("Operation " +:+ name +:+ " failed on attempt " +:+ pretty attempt, e)] /\
    driver s2 = driver s1 /\
    counters s2 = counters s1 /\
    (name <> "navigation" -> name <> "dropdownFinding" -> calls s2 = calls s1).
Proof.
  intros Hop. cbn [V3.retryLoop]. unfold bind at 1, logExecution at 1, modify at 1.
  unfold bind at 1. erewrite try_catch_throw.
  2:{ erewrite bind_throw by exact Hop. reflexivity. }
  unfold bind at 1, logError at 1, modify at 1.
  set (sa := set_errorLog _ s1).
  unfold bind at 1. unfold bind at 1, gets at 1.
  set (sb := snd (when (V3.tracked name sa)
                    (let* n := gets (retryCount name) in
                     setRetryCount name (n + 1)) sa)).
  assert (Hsb : when (V3.tracked name sa)
                  (let* n := gets (retryCount name) in
                   setRetryCount name (n + 1)) sa = (Ok tt, sb)).
  { unfold sb. destruct (V3.tracked name sa); reflexivity. }
  rewrite Hsb.
  assert (Hsbp : (retryCount name s1 = 0 -> retryCounts sb = retryCounts s1) /\
                 errorLog sb = errorLog sa /\ driver sb = driver s1 /\
                 counters sb = counters s1 /\ calls sb = calls s1).
  { unfold sb, V3.tracked. change (retryCount name sa) with (retryCount name s1).
    destruct (0 <? retryCount name s1)%nat eqn:Htr; cbn; repeat split; auto.
    intros H0. rewrite H0 in Htr. discriminate. }
  destruct Hsbp as (Hrc & Hel & Hdr & Hcn & Hca).
  destruct (attempt <? m)%nat; cbn [when].
  - unfold bind at 1. unfold bind at 1, delay at 1, modify at 1.
    unfold bind at 1, logExecution at 1, modify at 1.
    match goal with
    | |- context [V3.performRecovery drv name attempt ?x] =>
        destruct (v3_performRecovery_spec name attempt x)
          as (s2 & Hrec & Hrc2 & Hel2 & Hdr2 & Hcn2 & Hca2)
    end.
    rewrite Hrec. exists s2. split; [reflexivity |].
    split; [intros H0; rewrite Hrc2; cbn; auto |].
    split; [rewrite Hel2; cbn; rewrite Hel; reflexivity |].
    split; [rewrite Hdr2; cbn; exact Hdr |].
    split; [rewrite Hcn2; cbn; exact Hcn |].
    intros Hn1 Hn2. rewrite (Hca2 Hn1 Hn2). cbn. exact Hca.
  - exists sb. split; [reflexivity |]. repeat split; auto.
Qed.

Lemma v3_success_tail {A B : Type} name attempt (v : A) (s1 : T) :
  exists s2,
    (when (1 <? attempt)%nat
       (V3.logValidation
          ("Operation " +:+ name +:+ " succeeded on attempt " +:+ pretty attempt)) >>
     (let* tr := gets (V3.tracked name) in when tr (setRetryCount name 0)) >>
     ret (inl (B := B) v)) s1 = (Ok (inl v), s2) /\
    (retryCount name s1 = 0 -> retryCounts s2 = retryCounts s1) /\
    errorLog s2 = errorLog s1 /\ driver s2 = driver s1 /\
    counters s2 = counters s1 /\ calls s2 = calls s1.
Proof.
  unfold V3.tracked, V3.logValidation.
  destruct (1 <? attempt)%nat; cbn [when].
  - unfold bind at 1, modify at 1. unfold bind at 1. unfold bind at 1, gets at 1.
    change (retryCount name (set_validation ?b ?l s1)) with (retryCount name s1).
    destruct (0 <? retryCount name s1)%nat eqn:Htr; cbn [when];
      eexists; (split; [reflexivity |]); cbn; repeat split; auto;
      intros H0; rewrite H0 in Htr; discriminate.
  - unfold bind at 1, ret at 1. unfold bind at 1. unfold bind at 1, gets at 1.
    destruct (0 <? retryCount name s1)%nat eqn:Htr; cbn [when];
      eexists; (split; [reflexivity |]); cbn; repeat split; auto;
      intros H0; rewrite H0 in Htr; discriminate.
Qed.

(** One successful attempt of the executor of validator3. *)
Lemma v3_retryLoop_succeeded {A : Type} name (op : M T A) m r attempt last (t : T)
    v s1 :
  op (set_executionLog
        (executionLog t ++
         ["Attempt " +:+ pretty attempt +:+ "/" +:+ pretty m +:+
          " for operation: " +:+ name]) t) = (Ok v, s1) ->
  exists s2,
    V3.retryLoop drv name op m (S r) attempt last t = (Ok v, s2) /\
    (retryCount name s1 = 0 -> retryCounts s2 = retryCounts s1) /\
    errorLog s2 = errorLog s1 /\ driver s2 = driver s1 /\
    counters s2 = counters s1 /\ calls s2 = calls s1.
Proof.
  intros Hop.
  destruct (v3_success_tail (B := string) name attempt v s1) as (s2 & Htail & Hprops).
  exists s2. split; [| exact Hprops].
  cbn [V3.retryLoop]. unfold bind at 1, logExecution at 1, modify at 1.
  unfold bind at 1. erewrite try_catch_ok.
  2:{ erewrite bind_ok by exact Hop. exact Htail. }
  reflexivity.
Qed.
End V3Executor.

Section V3Properties.
Context {W : Type} (drv : Driver W).
#[local] Abbreviation T := (Tester W).

(** The message of the error validator3 throws when every attempt has
    failed for the reason [cause]. *)
Lemma v3_retryLoop_counts {A : Type} name (op : M T A) m :
  (forall s, retryCounts (snd (op s)) = retryCounts s) ->
  forall remaining attempt last (t : T),
    retryCount name t = 0 ->
    retryCounts (snd (V3.retryLoop drv name op m remaining attempt last t)) =
    retryCounts t.
Proof.
  intros Hop. induction remaining as [| r IH]; intros attempt last t H0;
    [reflexivity |].
  set (t0 := set_executionLog
               (executionLog t ++
                ["Attempt " +:+ pretty attempt +:+ "/" +:+ pretty m +:+
                 " for operation: " +:+ name]) t).
  pose proof (Hop t0) as Hrc.
  destruct (op t0) as [[v | e] s1] eqn:Hrun; cbn [snd] in Hrc.
  - destruct (v3_retryLoop_succeeded drv name op m r attempt last t v s1 Hrun)
      as (s2 & Hloop & Hkeep & _).
    rewrite Hloop. cbn [snd]. rewrite Hkeep, Hrc; [reflexivity |].
    unfold retryCount. now rewrite Hrc.
  - destruct (v3_retryLoop_failed drv name op m r attempt last t e s1 Hrun)
      as (s2 & Hloop & Hkeep & _).
    assert (H1 : retryCount name s1 = 0) by (unfold retryCount; now rewrite Hrc).
    rewrite Hloop, IH; [rewrite (Hkeep H1), Hrc; reflexivity |].
    unfold retryCount. now rewrite (Hkeep H1), Hrc.
Qed.

Lemma v3_retryLoop_throws {A : Type} name (op : M T A) m :
  forall remaining attempt last (t : T) e t',
    V3.retryLoop drv name op m remaining attempt last t = (Throw e, t') ->
    exists cause,
      e = "Operation " +:+ name +:+ " failed after " +:+ pretty m +:+
          " attempts: " +:+ cause.
Proof.
  induction remaining as [| r IH]; intros attempt last t e t' H.
  - cbn in H. injection H as <- _. eauto.
  - set (t0 := set_executionLog
                 (executionLog t ++
                  ["Attempt " +:+ pretty attempt +:+ "/" +:+ pretty m +:+
                   " for operation: " +:+ name]) t).
    destruct (op t0) as [[v | e0] s1] eqn:Hrun.
    + destruct (v3_retryLoop_succeeded drv name op m r attempt last t v s1 Hrun)
        as (s2 & Hloop & _).
      rewrite Hloop in H. discriminate.
    + destruct (v3_retryLoop_failed drv name op m r attempt last t e0 s1 Hrun)
        as (s2 & Hloop & _).
      rewrite Hloop in H. eapply IH. exact H.
Qed.

(** An operation that fails in the same way on every invocation, under
    a name whose recovery makes no call. *)
Lemma v3_retryLoop_exhausts {A : Type} name (op : M T A) m e cs :
  name <> "navigation" -> name <> "dropdownFinding" ->
  (forall s, driver s = true ->
     exists s', op s = (Throw e, s') /\ calls s' = calls s ++ cs /\ driver s' = true) ->
  forall remaining attempt last (t : T),
    driver t = true ->
    (remaining = 0 -> last = Some e) ->
    exists t',
      V3.retryLoop drv name op m remaining attempt last t =
        (Throw ("Operation " +:+ name +:+ " failed after " +:+ pretty m +:+
                " attempts: " +:+ e), t') /\
      calls t' = calls t ++ concat (replicate remaining cs) /\
      driver t' = true.
Proof.
  intros Hn1 Hn2 Hop. induction remaining as [| r IH]; intros attempt last t Hd Hlast.
  - rewrite (Hlast eq_refl). eexists. split; [reflexivity |]. cbn.
    now rewrite app_nil_r.
  - set (t0 := set_executionLog
                 (executionLog t ++
                  ["Attempt " +:+ pretty attempt +:+ "/" +:+ pretty m +:+
                   " for operation: " +:+ name]) t).
    destruct (Hop t0 Hd) as (s1 & Hrun & Hc1 & Hd1).
    destruct (v3_retryLoop_failed drv name op m r attempt last t e s1 Hrun)
      as (s2 & Hloop & _ & _ & Hd2 & _ & Hc2).
    destruct (IH (S attempt) (Some e) s2) as (t' & Hrest & Hc & Hd');
      [congruence | reflexivity |].
    exists t'. split; [now rewrite Hloop |]. split; [| exact Hd'].
    rewrite Hc, (Hc2 Hn1 Hn2), Hc1. cbn [replicate concat]. now rewrite app_assoc.
Qed.
End V3Properties.



(** X13: In dropdown-validator3.js, under every operation name, the only
    error executeWithRetry throws is 'Operation <name> failed after
    <maxRetries> attempts: <cause>': an error of a recovery action is
    swallowed and never ends the retry loop early. *)
Theorem v3_executor_raises_only_exhaustion {W : Type} (drv : Driver W) {A : Type}
    name (op : M (Tester W) A) m (t : Tester W) e t' :
  V3.executeWithRetry drv name op m t = (Throw e, t') ->
  exists cause,
    e = "Operation " +:+ name +:+ " failed after " +:+ pretty m +:+
        " attempts: " +:+ cause.
Proof. unfold V3.executeWithRetry. apply v3_retryLoop_throws. Qed.

Lemma v3_executor_raises_only_exhaustion_witness :
  fst (V3.executeWithRetry (Pages.counting false) "navigation" Pages.alwaysFails 3
         (Pages.fresh 0)) =
  Throw "Operation navigation failed after 3 attempts: timeout".
Proof.
  destruct (V3.executeWithRetry (Pages.counting false) "navigation"
              Pages.alwaysFails 3 (Pages.fresh 0)) as [[v | e] t'] eqn:Hrun.
  - vm_compute in Hrun. discriminate.
  - destruct (v3_executor_raises_only_exhaustion _ _ _ _ _ _ _ Hrun) as [cause Hc].
    vm_compute in Hrun. injection Hrun as <- _. reflexivity.
Defined.

(** X14: In dropdown-validator3.js the read-back of a selection is retried
    inside each attempt of the selection: on a live session whose
    selection script succeeds and whose read-back never shows the value,
    selectDropdownOption runs the selection script twice and the read-back
    four times, in the order select, verify, verify, select, verify,
    verify, and throws 'Operation selection failed after 2 attempts:
    Operation verification failed after 2 attempts: Selection verification
    failed'. *)
Theorem v3_selection_retries_nest {W : Type} (drv : Driver W) el o i (t : Tester W) :
  (forall w, exists w', drv_select drv el (opt_value o) w = (Ok true, w')) ->
  (forall w, exists w', drv_verify drv el (opt_value o) w = (Ok false, w')) ->
  driver t = true ->
  exists t',
    Validator3.selectDropdownOption drv el o i t =
      (Throw ("Operation selection failed after 2 attempts: " +:+
              "Operation verification failed after 2 attempts: " +:+
              "Selection verification failed"), t') /\
    calls t' =
      calls t ++
      [CSelect el (opt_value o); CVerify el (opt_value o); CVerify el (opt_value o);
       CSelect el (opt_value o); CVerify el (opt_value o); CVerify el (opt_value o)].
Proof.
  intros Hsel Hver Hd.
  assert (Hv : forall s : Tester W, driver s = true ->
             exists s',
               Validator3.verifySelection drv el o s =
                 (Throw ("Operation verification failed after 2 attempts: " +:+
                         "Selection verification failed"), s') /\
               calls s' = calls s ++ [CVerify el (opt_value o); CVerify el (opt_value o)] /\
               driver s' = true).
  { intros s Hds. unfold Validator3.verifySelection, V3.executeWithRetry.
    match goal with
    | |- context [V3.retryLoop drv ?name ?op ?m ?r ?a ?l s] =>
        destruct (v3_retryLoop_exhausts drv name op m
                    "Selection verification failed" [CVerify el (opt_value o)])
          with (remaining := r) (attempt := a) (last := l) (t := s)
          as (s' & Hrun & Hc & Hd')
    end; try discriminate; try exact Hds.
    - intros s0 Hd0. destruct (Hver (world s0)) as [w' Hw].
      erewrite bind_ok by (apply drive_run; [exact Hd0 | exact Hw]).
      eexists. split; [reflexivity |]. cbn. auto.
    - exists s'. split; [exact Hrun |]. split; [| exact Hd'].
      rewrite Hc. reflexivity. }
  unfold Validator3.selectDropdownOption, V3.executeWithRetry.
  match goal with
  | |- context [V3.retryLoop drv ?name ?op ?m ?r ?a ?l t] =>
      destruct (v3_retryLoop_exhausts drv name op m
                  ("Operation verification failed after 2 attempts: " +:+
                   "Selection verification failed")
                  [CSelect el (opt_value o); CVerify el (opt_value o);
                   CVerify el (opt_value o)])
        with (remaining := r) (attempt := a) (last := l) (t := t)
        as (t' & Hrun & Hc & Hd')
  end; try discriminate; try exact Hd.
  - intros s0 Hd0. destruct (Hsel (world s0)) as [w' Hw].
    erewrite bind_ok by (apply drive_run; [exact Hd0 | exact Hw]).
    cbn [negb]. erewrite bind_ok by reflexivity.
    match goal with
    | |- context [bind (Validator3.verifySelection drv el o) _ ?x] =>
        destruct (Hv x) as (s' & Hrun & Hc & Hd'); [exact Hd0 |]
    end.
    erewrite bind_throw by exact Hrun.
    exists s'. split; [reflexivity |]. split; [| exact Hd'].
    rewrite Hc. cbn. now rewrite <- app_assoc.
  - exists t'. split; [exact Hrun |]. rewrite Hc. reflexivity.
Qed.

Lemma v3_selection_retries_nest_witness :
  exists t',
    Validator3.selectDropdownOption Sessions.slipping (Some 0) Pages.optA 0
      (Pages.fresh 0) =
      (Throw ("Operation selection failed after 2 attempts: " +:+
              "Operation verification failed after 2 attempts: " +:+
              "Selection verification failed"), t') /\
    calls t' =
      [CSelect (Some 0) "a"; CVerify (Some 0) "a"; CVerify (Some 0) "a";
       CSelect (Some 0) "a"; CVerify (Some 0) "a"; CVerify (Some 0) "a"].
Proof.
  apply (v3_selection_retries_nest Sessions.slipping (Some 0) Pages.optA 0
           (Pages.fresh 0)).
  - intros w. eexists. reflexivity.
  - intros w. eexists. reflexivity.
  - reflexivity.
Defined.



(** X16: validateTileCount returns an observation whose status is VALIDATED
    when a tile is visible, NO_TILES_WITH_MESSAGE when none is visible and
    the no-results message is present, NO_VISIBLE_TILES otherwise; the
    only error it throws is 'tileValidation failed after 2 attempts'. *)
Theorem tile_observation_outcomes {W : Type} (drv : Driver W) n (t : Tester W) :
  match fst (validateTileCount drv n t) with
  | Ok tv =>
      tv_status tv = observedStatus (tv_visible tv) (tv_hasNoResultsMessage tv)
  | Throw e => e = exhausted "tileValidation" maxRetries.tileValidation
  end.
Proof.
  destruct (validateTileCount drv n t) as [[tv | e] t'] eqn:Hrun; cbn [fst].
  - eapply validateTileCount_returns. exact Hrun.
  - unfold validateTileCount in Hrun.
    eapply (executeWithRetry_throws_exhausted drv); [split; discriminate | exact Hrun].
Qed.

(** X17: A failure of the tile detection script does not fail a combination:
    if the dropdowns read back, the scroll succeeds and the detection
    script throws, the error is written to the error log and
    testSingleCombination returns a PASSED result with tile status
    NO_VISIBLE_TILES and the note 'Expected: No visible tiles found for
    this combination'. *)
Theorem detection_failure_still_passes {W : Type} (drv : Driver W) sel
    (els : list Elem) n (t : Tester W) r1 t1 w2 e w3 :
  verifySelections drv sel els (initialResult n, t) = (Ok tt, (r1, t1)) ->
  driver t1 = true ->
  drv_exec drv scrollToTop (drv_elapse drv 2500 (world t1)) = (Ok tt, w2) ->
  drv_detectTiles drv (drv_elapse drv 500 w2) = (Throw e, w3) ->
  exists r t',
    testSingleCombination drv sel els n t = (Ok r, t') /\
    r_status r = "PASSED" /\
    tileStatus r = Some "NO_VISIBLE_TILES" /\
    r_error r = Some "Expected: No visible tiles found for this combination" /\
    ("Nationwide tile detection failed", e) ∈ errorLog t'.
Proof. apply detection_failure_run. Qed.

Lemma detection_failure_still_passes_witness :
  exists r t',
    testSingleCombination Sessions.blind [Pages.optA; Pages.optX] [0; 1] 1
      (Pages.fresh (Pages.values ["a"; "x"])) = (Ok r, t') /\
    r_status r = "PASSED" /\
    tileStatus r = Some "NO_VISIBLE_TILES" /\
    ("Nationwide tile detection failed", "javascript error") ∈ errorLog t'.
Proof.
  set (t := Pages.fresh (Pages.values ["a"; "x"])).
  set (out := verifySelections Sessions.blind [Pages.optA; Pages.optX] [0; 1]
                (initialResult 1, t)).
  destruct (detection_failure_still_passes Sessions.blind [Pages.optA; Pages.optX]
              [0; 1] 1 t (fst (snd out)) (snd (snd out))
              (world (snd (snd out))) "javascript error"
              (world (snd (snd out))))
    as (r & t' & Hrun & Hst & Htile & _ & Hlog).
  - vm_compute. reflexivity.
  - vm_compute. reflexivity.
  - vm_compute. reflexivity.
  - vm_compute. reflexivity.
  - exists r, t'. auto.
Defined.

Lemma v5_any_tile_count_passes_witness :
  exists r t',
    V5.testSingleCombination Pages.emptyPage [Pages.optA; Pages.optX] [0; 1] 1
      (Pages.fresh (Pages.values ["a"; "x"])) = (Ok r, t') /\
    V5.c_status r = "PASSED" /\
    V5.c_tileCount r = V5.mkTiles 0 0 "VALIDATED".
Proof.
  set (t := Pages.fresh (Pages.values ["a"; "x"])).
  set (out := for_each (V5.verifySelection Pages.emptyPage [0; 1]) 0
                [Pages.optA; Pages.optX] (V5.initialResult 1, t)).
  destruct (v5_any_tile_count_passes Pages.emptyPage [Pages.optA; Pages.optX]
              [0; 1] 1 t (fst (snd out)) (snd (snd out)) Pages.noTiles
              (world (snd (snd out))))
    as (r & t' & Hrun & Hst & Htile & _).
  - vm_compute. reflexivity.
  - vm_compute. reflexivity.
  - vm_compute. reflexivity.
  - exists r, t'. auto.
Defined.

Section NavigationSteps.
Context {W : Type} (drv : Driver W) (nav : Navigator W).

#[local] Abbreviation T := (Tester W).

Lemma visit_run {A : Type} (f : W -> outcome A * W) (t : T) r w :
  driver t = true -> f (world t) = (r, w) -> visit f t = (r, set_world w t).
Proof. intros Hd Hf. unfold visit. now rewrite Hd, Hf. Qed.

Lemma onElement_run {A : Type} (f : W -> outcome A * W) (t : T) r w :
  f (world t) = (r, w) -> onElement f t = (r, set_world w t).
Proof. intros Hf. unfold onElement. now rewrite Hf. Qed.

Lemma visit_keeps {A : Type} (f : W -> outcome A * W) (t : T) :
  ledger (snd (visit f t)) = ledger t /\
  captured (snd (visit f t)) = captured t.
Proof.
  unfold visit. destruct (driver t); [| now split].
  now destruct (f (world t)).
Qed.

Lemma onElement_keeps {A : Type} (f : W -> outcome A * W) (t : T) :
  ledger (snd (onElement f t)) = ledger t /\
  captured (snd (onElement f t)) = captured t.
Proof. unfold onElement. now destruct (f (world t)). Qed.

(** An immediate capture: one more entry, and nothing else of the tester
    is touched. *)
Lemma capture_run msg (t : T) :
  exists t',
    captureValidation msg true t = (Ok tt, t') /\
    ledger t' = ledger t /\ world t' = world t /\
    captured t' = captured t ++ [mkEntry msg (currentOperation t)].
Proof.
  eexists. split; [reflexivity |].
  unfold captureValidation, modify. cbn [snd orb].
  unfold flushValidationBuffer, captured, ledger. cbn.
  destruct (validationBuffer t ++ _) eqn:Hb.
  - now destruct (validationBuffer t).
  - cbn. rewrite <- Hb, app_nil_r. repeat split. now rewrite app_assoc.
Qed.
End NavigationSteps.

Section Popups.
Context {W : Type} (drv : Driver W) (nav : Navigator W).

#[local] Abbreviation T := (Tester W).

Lemma delay_run ms (t : T) :
  delay drv ms t = (Ok tt, set_world (drv_elapse drv ms (world t)) t).
Proof. reflexivity. Qed.

Lemma ledger_world w (t : T) : ledger (set_world w t) = ledger t.
Proof. reflexivity. Qed.

Lemma captured_world w (t : T) : captured (set_world w t) = captured t.
Proof. reflexivity. Qed.

Lemma ledger_operation (t t' : T) :
  ledger t' = ledger t -> currentOperation t' = currentOperation t.
Proof. unfold ledger. now intros [= _ _ _ _ _ _ ? _ _ _]. Qed.

(** The inner loop clicks at most one element, and says so. *)
Lemma clickDisplayed_spec selector :
  forall elements (t : T) r t',
    clickDisplayed drv nav selector elements t = (r, t') ->
    ledger t' = ledger t /\
    captured t' =
      captured t ++
      match r with
      | Ok true => [mkEntry ("Clicked: " +:+ selector) (currentOperation t)]
      | _ => []
      end.
Proof.
  induction elements as [| el elements IH]; intros t r t' H; cbn [clickDisplayed] in H.
  - injection H as <- <-. now rewrite app_nil_r.
  - unfold bind at 1 in H.
    destruct (onElement_keeps (nav_isDisplayed nav el) t) as [Hl Hc].
    destruct (onElement (nav_isDisplayed nav el) t) as [[[] | e] t1];
      cbn [fst snd] in *.
    + unfold bind at 1 in H.
      destruct (onElement_keeps (nav_click nav el) t1) as [Hl1 Hc1].
      destruct (onElement (nav_click nav el) t1) as [[[] | e] t2];
        cbn [fst snd] in *.
      * destruct (capture_run ("Clicked: " +:+ selector) t2)
          as (t3 & Hrun & Hl3 & _ & Hc3).
        rewrite (bind_ok _ _ _ _ _ Hrun), (bind_ok _ _ _ _ _ (delay_run _ t3)) in H.
        injection H as <- <-.
        assert (Hop : currentOperation t2 = currentOperation t).
        { apply ledger_operation. congruence. }
        rewrite Hop in Hc3. rewrite ledger_world, captured_world.
        split; congruence.
      * injection H as <- <-. split; [congruence |]. rewrite app_nil_r. congruence.
    + apply IH in H. destruct H as [IHl IHc].
      pose proof (ledger_operation _ _ Hl) as Hop.
      rewrite Hop, Hc in IHc. split; [congruence | exact IHc].
    + injection H as <- <-. split; [exact Hl |]. now rewrite app_nil_r.
Qed.

Lemma dismissPopups_spec :
  forall selectors (t : T),
    exists clicked t' msg,
      dismissPopups drv nav selectors t = (Ok clicked, t') /\
      ledger t' = ledger t /\
      captured t' = captured t ++ [mkEntry msg (currentOperation t)] /\
      if (clicked : bool) then
        exists selector, selector ∈ selectors /\ msg = "Clicked: " +:+ selector
      else msg = "No popups found".
Proof.
  induction selectors as [| selector selectors IH]; intros t; cbn [dismissPopups].
  - destruct (capture_run "No popups found" t) as (t' & Hrun & Hl & _ & Hc).
    exists false, t', "No popups found".
    rewrite (bind_ok _ _ _ _ _ Hrun). now repeat split.
  - unfold bind at 1.
    assert (Htry :
      exists clicked t1,
        try_catch
          (let* elements := visit (nav_findElements nav selector) in
           clickDisplayed drv nav selector elements)
          (fun _ => ret false) t = (Ok clicked, t1) /\
        ledger t1 = ledger t /\
        captured t1 =
          captured t ++
          (if (clicked : bool)
           then [mkEntry ("Clicked: " +:+ selector) (currentOperation t)] else [])).
    { unfold try_catch, bind.
      destruct (visit_keeps (nav_findElements nav selector) t) as [Hl Hc].
      destruct (visit (nav_findElements nav selector) t) as [[elements | e] t0];
        cbn [fst snd] in *.
      - pose proof (clickDisplayed_spec selector elements t0) as Hclick.
        pose proof (ledger_operation _ _ Hl) as Hop.
        destruct (clickDisplayed drv nav selector elements t0) as [[[] | e] t1];
          destruct (Hclick _ _ eq_refl) as [Hl1 Hc1];
          rewrite ?Hop, Hc in Hc1;
          cbn [fst snd ret] in *; eexists _, _; (split; [reflexivity |]);
          split; congruence.
      - exists false, t0. cbn. rewrite app_nil_r. now repeat split. }
    destruct Htry as (clicked & t1 & -> & Hl & Hc). destruct clicked.
    + exists true, t1, ("Clicked: " +:+ selector). cbn [ret].
      split; [reflexivity |]. split; [exact Hl |]. split; [exact Hc |].
      exists selector. split; [left | reflexivity].
    + destruct (IH t1) as (clicked & t' & msg & Hrun & Hl' & Hc' & Hmsg).
      pose proof (ledger_operation _ _ Hl) as Hop.
      rewrite app_nil_r in Hc. rewrite Hop, Hc in Hc'.
      exists clicked, t', msg. split; [exact Hrun |].
      split; [congruence |]. split; [exact Hc' |].
      destruct clicked; [| exact Hmsg].
      destruct Hmsg as (sel & Hin & ->). exists sel.
      split; [now right | reflexivity].
Qed.

Lemma handleCookiesAndPopups_spec (t : T) :
  exists clicked t' msg,
    handleCookiesAndPopups drv nav t = (Ok clicked, t') /\
    ledger t' = ledger t /\
    captured t' =
      captured t ++
      [mkEntry "Handling cookies/popups..." (currentOperation t);
       mkEntry msg (currentOperation t)] /\
    if (clicked : bool) then
      exists selector,
        selector ∈ popupSelectors /\ msg = "Clicked: " +:+ selector
    else msg = "No popups found".
Proof.
  unfold handleCookiesAndPopups.
  destruct (capture_run "Handling cookies/popups..." t) as (t1 & Hrun & Hl & _ & Hc).
  rewrite (bind_ok _ _ _ _ _ Hrun), (bind_ok _ _ _ _ _ (delay_run _ t1)).
  set (t2 := set_world _ t1).
  destruct (dismissPopups_spec popupSelectors t2)
    as (clicked & t' & msg & Hrun' & Hl' & Hc' & Hmsg).
  exists clicked, t', msg. split; [exact Hrun' |].
  pose proof (ledger_operation _ _ Hl) as Hop.
  split; [now rewrite Hl' |]. split; [| exact Hmsg].
  rewrite Hc'. unfold t2. rewrite captured_world. cbn [currentOperation set_world].
  change (currentOperation (set_world _ t1)) with (currentOperation t1).
  rewrite Hop, Hc. now rewrite <- app_assoc.
Qed.
End Popups.

Section Locating.
Context {W : Type} (drv : Driver W) (nav : Navigator W).

#[local] Abbreviation T := (Tester W).

(** What the loop over the selectors returns was found under one of
    them, cut to three elements. *)
Lemma findDropdowns_returns :
  forall selectors (t : T) els t',
    findDropdowns nav selectors t = (Ok els, t') ->
    exists sel found w w',
      sel ∈ selectors /\
      nav_findElements nav sel w = (Ok found, w') /\
      1 <= length found /\ els = take 3 found.
Proof.
  induction selectors as [| sel selectors IH]; intros t els t' H;
    cbn [findDropdowns] in H; [discriminate |].
  unfold bind at 1, try_catch in H. unfold bind at 1, visit at 1 in H.
  destruct (driver t).
  - destruct (nav_findElements nav sel (world t)) as [[found | e] w'] eqn:Hfind.
    + destruct (1 <=? length found)%nat eqn:Hlen.
      * destruct (capture_run
                    ("Found " +:+ pretty (length found) +:+ " dropdowns")
                    (set_world w' t)) as (t1 & Hrun & _).
        rewrite (bind_ok _ _ _ _ _ Hrun) in H. cbn [ret] in H.
        injection H as <- <-. exists sel, found, (world t), w'.
        split; [left |]. split; [exact Hfind |].
        split; [now apply Nat.leb_le | reflexivity].
      * cbn [ret] in H. apply IH in H.
        destruct H as (s & f & w & w2 & Hin & Hf & Hl & ->).
        exists s, f, w, w2. split; [now right | auto].
    + cbn [ret] in H. apply IH in H.
      destruct H as (s & f & w & w2 & Hin & Hf & Hl & ->).
      exists s, f, w, w2. split; [now right | auto].
  - cbn [ret] in H. apply IH in H.
    destruct H as (s & f & w & w2 & Hin & Hf & Hl & ->).
    exists s, f, w, w2. split; [now right | auto].
Qed.

Lemma getDropdownElements_returns (t : T) els t' :
  getDropdownElements drv nav t = (Ok els, t') ->
  exists sel found w w',
    sel ∈ dropdownSelectors /\
    nav_findElements nav sel w = (Ok found, w') /\
    1 <= length found /\ els = take 3 found.
Proof.
  unfold getDropdownElements, executeWithRetry, bind at 1, modify at 1.
  intros H. apply retryLoop_returns in H. destruct H as (s & s' & Hop).
  unfold bind at 1 in Hop.
  destruct (visit (nav_waitLocated nav ".nw-container") s) as [[[] | e] s1];
    [| discriminate].
  eapply findDropdowns_returns. exact Hop.
Qed.

Lemma for_each_resetDropdown_total :
  forall (els : list Elem) i (t : T),
    fst (for_each (resetDropdown drv) i els t) = Ok tt.
Proof.
  induction els as [| el els IH]; intros i t; cbn [for_each]; [reflexivity |].
  unfold bind. pose proof (resetDropdown_total drv i el t) as Hr.
  destruct (resetDropdown drv i el t) as [[[] | e] t1]; [apply IH | discriminate].
Qed.

Lemma resetToDefault_run (els : list Elem) (t : T) :
  exists t', resetToDefault drv nav els t = (Ok tt, t').
Proof.
  unfold resetToDefault. unfold bind at 1.
  assert (H : exists t1,
             try_catch
               (let* button := visit (nav_findElement nav "#tileFilterResetButton") in
                onElement (nav_click nav button) >>
                captureValidation "Reset button clicked" true)
               (fun _ =>
                  for_each (resetDropdown drv) 0 els >>
                  captureValidation "Manual reset completed" true) t = (Ok tt, t1)).
  { unfold try_catch.
    match goal with
    | |- context [match ?m t with _ => _ end] =>
        destruct (m t) as [[[] | e] t1]
    end.
    - now exists t1.
    - unfold bind. pose proof (for_each_resetDropdown_total els 0 t1) as Hr.
      destruct (for_each (resetDropdown drv) 0 els t1) as [[[] | e'] t2];
        [| discriminate].
      destruct (capture_run "Manual reset completed" t2) as (t3 & -> & _).
      now exists t3. }
  destruct H as (t1 & ->). eexists. reflexivity.
Qed.

Lemma cleanup_run (t : T) :
  exists t',
    cleanup drv t = (Ok tt, t') /\
    if driver t then
      calls t' = calls t ++ [CQuit] /\
      driver t' = isThrow (fst (drv_quit drv (world t))) /\
      captured t' =
        captured t ++ [mkEntry "Driver cleaned up" (currentOperation t)]
    else t' = t.
Proof.
  unfold cleanup, bind at 1, gets. destruct (driver t) eqn:Hd; cbn [when].
  - unfold bind at 1, try_catch, bind at 1, drive. rewrite Hd.
    destruct (drv_quit drv (world t)) as [[[] | e] w] eqn:Hq; cbn [fst isThrow].
    + unfold modify. cbn [ret].
      match goal with
      | |- context [captureValidation ?m true ?s] =>
          destruct (capture_run m s) as (t' & -> & Hl & _ & Hc)
      end.
      exists t'. split; [reflexivity |]. unfold ledger in Hl.
      injection Hl as Hdr Hca _ _ _ _ _ _. now repeat split.
    + cbn [ret].
      match goal with
      | |- context [captureValidation ?m true ?s] =>
          destruct (capture_run m s) as (t' & -> & Hl & _ & Hc)
      end.
      exists t'. split; [reflexivity |]. unfold ledger in Hl.
      injection Hl as Hdr Hca _ _ _ _ _ _. rewrite Hdr, Hca. cbn.
      now repeat split.
  - now exists t.
Qed.
End Locating.

(** X18: handleCookiesAndPopups never throws, whatever the page does: it
    returns true after the first successful click on a displayed element
    and false when nothing was clicked. It makes no recorded driver call,
    leaves this.driver as it is, and appends exactly two validation
    entries: 'Handling cookies/popups...' and then either 'Clicked:
    <selector>' for one of its six selectors or 'No popups found'. *)
Theorem handleCookiesAndPopups_never_throws {W : Type} (drv : Driver W)
    (nav : Navigator W) (t : Tester W) :
  exists clicked t' msg,
    handleCookiesAndPopups drv nav t = (Ok clicked, t') /\
    calls t' = calls t /\
    driver t' = driver t /\
    captured t' =
      captured t ++
      [mkEntry "Handling cookies/popups..." (currentOperation t);
       mkEntry msg (currentOperation t)] /\
    if (clicked : bool) then
      exists selector,
        selector ∈ popupSelectors /\ msg = "Clicked: " +:+ selector
    else msg = "No popups found".
Proof.
  destruct (handleCookiesAndPopups_spec drv nav t)
    as (clicked & t' & msg & Hrun & Hl & Hc & Hmsg).
  exists clicked, t', msg. unfold ledger in Hl.
  injection Hl as Hd Hcalls _ _ _ _ _ _. now repeat split.
Qed.

(** X19: A list returned by getDropdownElements has between one and three
    elements: it is the first three elements of what findElements gave for
    one of the four selectors the function tries. *)
Theorem getDropdownElements_bounds {W : Type} (drv : Driver W)
    (nav : Navigator W) (t : Tester W) els t' :
  getDropdownElements drv nav t = (Ok els, t') ->
  1 <= length els <= 3 /\
  exists selector found w w',
    selector ∈ dropdownSelectors /\
    nav_findElements nav selector w = (Ok found, w') /\
    els = take 3 found.
Proof.
  intros H. apply getDropdownElements_returns in H.
  destruct H as (sel & found & w & w' & Hin & Hfind & Hlen & ->).
  split; [rewrite length_take; lia | eauto 10].
Qed.

Lemma getDropdownElements_bounds_witness :
  exists t',
    getDropdownElements Pages.emptyPage Sites.plain
      (Pages.fresh (Pages.values [])) = (Ok [0; 1; 2], t') /\
    1 <= length [0; 1; 2] <= 3.
Proof.
  eexists. split; [vm_compute; reflexivity |].
  refine (proj1 (getDropdownElements_bounds Pages.emptyPage Sites.plain
                   (Pages.fresh (Pages.values [])) [0; 1; 2] _ _)).
  vm_compute. reflexivity.
Defined.

(** X20: resetToDefault never throws. It leaves this.driver and the test
    counters alone, and the recorded driver calls it adds all act on the
    dropdowns it was given. When the reset button is found and clicked it
    makes no recorded call at all, leaves the retry counts alone, logs
    'Reset button clicked' and waits 1000 ms. *)
Theorem resetToDefault_never_throws {W : Type} (drv : Driver W)
    (nav : Navigator W) (els : list Elem) (t : Tester W) :
  exists t',
    resetToDefault drv nav els t = (Ok tt, t') /\
    driver t' = driver t /\
    counters t' = counters t /\
    (exists cs,
       calls t' = calls t ++ cs /\
       Forall (fun c => exists el, el ∈ els /\ callOn c = Some el) cs) /\
    (forall button w1 w2,
       driver t = true ->
       nav_findElement nav "#tileFilterResetButton" (world t) = (Ok button, w1) ->
       nav_click nav button w1 = (Ok tt, w2) ->
       calls t' = calls t /\
       retryCounts t' = retryCounts t /\
       world t' = drv_elapse drv 1000 w2 /\
       captured t' =
         captured t ++ [mkEntry "Reset button clicked" (currentOperation t)]).
Proof.
  destruct (resetToDefault_run drv nav els t) as (t' & Hrun).
  exists t'. split; [exact Hrun |].
  assert (Hframe : forall X (f : Tester W -> X), Frame f ->
            Preserves f (resetToDefault drv nav els)).
  { intros X f Hf. unfold resetToDefault.
    assert (Hv : forall A (g : W -> outcome A * W), Preserves f (visit g)).
    { intros A g s. unfold visit. destruct (driver s); [| reflexivity].
      destruct (g (world s)). apply frame_world. }
    assert (Ho : forall A (g : W -> outcome A * W), Preserves f (onElement g)).
    { intros A g s. unfold onElement. destruct (g (world s)). apply frame_world. }
    apply preserves_bind; [| intros _; apply preserves_delay; exact Hf].
    apply preserves_try_catch.
    - apply preserves_bind; [apply Hv | intros button].
      apply preserves_bind; [apply Ho | intros _].
      apply preserves_captureValidation; exact Hf.
    - intros _. apply preserves_bind.
      + apply (preserves_resetNextDropdowns drv f els 0).
      + intros _. apply preserves_captureValidation; exact Hf. }
  pose proof (Hframe _ driver _ t) as Hd.
  pose proof (Hframe _ counters _ t) as Hc.
  rewrite Hrun in Hd, Hc. split; [exact Hd |]. split; [exact Hc |]. split.
  - assert (Ha : Adds (fun c => exists el, el ∈ els /\ callOn c = Some el)
                   (resetToDefault drv nav els)).
    { unfold resetToDefault.
      assert (Hv : forall A (g : W -> outcome A * W), Preserves calls (visit g)).
      { intros A g s. unfold visit. destruct (driver s); [| reflexivity].
        now destruct (g (world s)). }
      assert (Ho : forall A (g : W -> outcome A * W), Preserves calls (onElement g)).
      { intros A g s. unfold onElement. now destruct (g (world s)). }
      apply adds_bind.
      - apply adds_try_catch.
        + apply adds_bind; [apply adds_nothing, Hv | intros button].
          apply adds_bind; [apply adds_nothing, Ho | intros _].
          apply adds_captureValidation.
        + intros _. apply adds_bind.
          * apply (adds_resetNextDropdowns drv els 0).
          * intros _. apply adds_captureValidation.
      - intros _. apply adds_nothing. now intros s. }
    specialize (Ha t). now rewrite Hrun in Ha.
  - intros button w1 w2 Hdr Hfind Hclick.
    unfold resetToDefault in Hrun.
    destruct (capture_run (W := W) "Reset button clicked"
                (set_world w2 (set_world w1 t))) as (t3 & Hcap & Hl & Hw & Hcd).
    erewrite bind_ok in Hrun.
    2:{ apply try_catch_ok.
        erewrite bind_ok by (apply visit_run; [exact Hdr | exact Hfind]).
        erewrite bind_ok by (apply onElement_run; exact Hclick).
        exact Hcap. }
    unfold delay, modify in Hrun. injection Hrun as <-.
    unfold ledger in Hl. injection Hl as _ Hcalls Hrc _ _ _ _ _.
    cbn [snd]. split; [exact Hcalls |]. split; [exact Hrc |].
    split; [cbn; now rewrite Hw | exact Hcd].
Qed.

(** X21: cleanup never throws. With no driver it does nothing; otherwise it
    calls quit once and logs 'Driver cleaned up' whether or not quit
    succeeded, and this.driver is null afterwards exactly when quit
    succeeded. After a cleanup that released the driver a second cleanup
    does nothing. *)
Theorem cleanup_releases_driver {W : Type} (drv : Driver W) (t : Tester W) :
  exists t',
    cleanup drv t = (Ok tt, t') /\
    (if driver t then
       calls t' = calls t ++ [CQuit] /\
       driver t' = isThrow (fst (drv_quit drv (world t))) /\
       captured t' =
         captured t ++ [mkEntry "Driver cleaned up" (currentOperation t)]
     else t' = t) /\
    (driver t' = false -> cleanup drv t' = (Ok tt, t')).
Proof.
  destruct (cleanup_run drv t) as (t' & Hrun & Hd).
  exists t'. split; [exact Hrun |]. split; [exact Hd |].
  intros Hoff. unfold cleanup, bind, gets. now rewrite Hoff.
Qed.

#[global] Instance Pushed_preorder {W : Type} P : PreOrder (@Pushed W P).
Proof.
  split.
  - intros s. exists []. now rewrite app_nil_r.
  - intros s1 s2 s3 (n1 & E1 & F1) (n2 & E2 & F2). exists (n1 ++ n2).
    rewrite E2, E1, app_assoc. split; [reflexivity | now apply Forall_app].
Qed.

#[global] Instance KeepsTileCount_preorder {W : Type} : PreOrder (@KeepsTileCount W).
Proof.
  split.
  - now intros s.
  - intros s1 s2 s3 H1 H2 H. auto.
Qed.

Section Counting.
Context {W : Type} (drv : Driver W).

#[local] Abbreviation T := (Tester W).

Lemma keeps_lift {A : Type} (m : M T A) :
  Along KeepsTileCount (lift (L := CombinationResult) m).
Proof. intros [r t]. rewrite lift_run. now intros H. Qed.

Lemma keeps_local (f : CombinationResult -> CombinationResult) :
  (forall r, is_Some (r_tileCount r) -> is_Some (r_tileCount (f r))) ->
  Along KeepsTileCount (@local CombinationResult T f).
Proof. intros H [r t]. exact (H r). Qed.

Lemma keeps_observe sel (els : list Elem) n :
  Along KeepsTileCount (observe drv sel els n).
Proof.
  unfold observe, verifySelections, verifySelection.
  repeat first
    [ apply keeps_lift
    | apply keeps_local; cbn; solve [eauto]
    | apply along_ret; typeclasses eauto
    | apply along_throw; typeclasses eauto
    | apply along_bind; [typeclasses eauto | | intros ?]
    | apply along_for_each; [typeclasses eauto | intros ? ?]
    | match goal with
      | |- Along _ (if ?b then _ else _) => destruct b
      end ].
Qed.

Lemma tileVerdict_known tv :
  tileVerdict tv ∈ ["VALIDATED"; "VALIDATED_WITH_NO_RESULTS";
                    "HAS_MESSAGE_BUT_NOT_EXPECTED"; "NO_VISIBLE_TILES"].
Proof.
  unfold tileVerdict.
  repeat match goal with
         | |- context [if ?b then _ else _] => destruct b
         end; set_solver.
Qed.

(** Every result of the classifier is one the statistics count. *)
Lemma testSingleCombination_counted sel (els : list Elem) n (t : T) r t' :
  testSingleCombination drv sel els n t = (Ok r, t') -> Counted r.
Proof.
  intros H.
  destruct (observe drv sel els n (initialResult n, t)) as [[tv | e] [r1 t1]] eqn:Hobs.
  - destruct (testSingleCombination_ok drv _ _ _ _ _ _ _ Hobs)
      as (r' & t2 & Hrun & _ & Hst & _ & _ & Htile).
    rewrite Hrun in H. injection H as <- <-.
    destruct (observe_tileCount drv _ _ _ _ _ _ _ Hobs) as (tc & Htc).
    rewrite Htc in Htile. left. split; [exact Hst |].
    exists (tileVerdict tv). split; [exact Htile | apply tileVerdict_known].
  - destruct (testSingleCombination_throw drv _ _ _ _ _ _ _ Hobs) as (t2 & Hrun & _).
    rewrite Hrun in H. injection H as <- <-.
    pose proof (keeps_observe sel els n (initialResult n, t)) as Hk.
    rewrite Hobs in Hk. destruct Hk as (tc & Htc); [now eexists |].
    cbn [fst snd] in Htc. right. split; [reflexivity |].
    unfold tileStatus, set_tileStatus. cbn. now rewrite Htc.
Qed.

Lemma pushed_lift {A : Type} P (m : M T A) :
  Along (Pushed P) (lift (L := list CombinationResult) m).
Proof. intros [rs t]. rewrite lift_run. exists []. now rewrite app_nil_r. Qed.

Lemma pushed_leaf sel (els : list Elem) :
  Along (Pushed Counted)
    (let* results := get_local in
     let* result :=
       lift (testSingleCombination drv sel els (length results + 1)) in
     local (fun results : list CombinationResult => results ++ [result])).
Proof.
  intros [rs t]. unfold bind at 1, get_local. cbv beta iota. cbn [fst].
  unfold bind at 1. rewrite lift_run.
  destruct (testSingleCombination_total drv sel els (length rs + 1) t)
    as (r & t' & Hrun).
  rewrite Hrun. cbn [fst snd local]. exists [r].
  split; [reflexivity |]. constructor; [| constructor].
  eapply testSingleCombination_counted. exact Hrun.
Qed.

Lemma pushed_testCombos (els : list Elem) optionsArray :
  forall fuel idx sel,
    Along (Pushed Counted) (testCombos drv fuel els optionsArray idx sel).
Proof.
  induction fuel as [| fuel IH]; intros idx sel; cbn [testCombos].
  - destruct (length optionsArray <=? idx)%nat;
      [apply pushed_leaf | apply along_ret; typeclasses eauto].
  - destruct (length optionsArray <=? idx)%nat; [apply pushed_leaf |].
    apply along_for_each; [typeclasses eauto |]. intros i opt [rs t].
    unfold tryOption, bind at 1.
    pose proof (pushed_lift Counted
                  (selectDropdownOption drv (els !! idx) opt idx) (rs, t)) as Hsel.
    rewrite lift_run in *. cbn [fst snd] in *.
    destruct (selectDropdownOption drv (els !! idx) opt idx t) as [[b | e] t1] eqn:Hrun;
      cbn [fst snd] in *; [| exact Hsel].
    apply selectDropdownOption_true in Hrun. subst b.
    etransitivity; [exact Hsel |].
    apply along_bind; [typeclasses eauto | apply IH | intros _].
    apply along_when; [typeclasses eauto |]. apply pushed_lift.
Qed.

(** The results [testAllCombinations] returns: at least one, and each
    one counted. *)
Lemma testAllCombinations_counted (els : list Elem) (t : T) results t' :
  testAllCombinations drv els t = (Ok results, t') ->
  results <> [] /\ Forall Counted results.
Proof.
  intros H. apply (testAllCombinations_inv drv LogsGrow) in H.
  destruct H as (rows & s1 & s2 & Hne & Hrows & Hrun & _).
  pose proof (pushed_testCombos els rows (length rows - 0) 0 [] ([], s1)) as Hp.
  unfold testCombosRecursive in Hrun. rewrite Hrun in Hp.
  destruct Hp as (new & Hnew & Hall). cbn [fst snd app] in Hnew. subst new.
  split; [| exact Hall].
  apply testCombos_results in Hrun; [| lia].
  destruct Hrun as (new & Hnew & Hcls). cbn [app] in Hnew. subst new.
  rewrite drop_0 in Hcls. apply Forall2_length in Hcls.
  assert (0 < length (cartesian rows)).
  { apply rows_nonempty_product.
    clear - Hrows.
    induction Hrows as [| el opts els rows [Hne _] _ IH]; constructor; auto. }
  destruct results; [cbn in Hcls; lia | discriminate].
Qed.
End Counting.

Lemma countWhere_cons {A : Type} (p : A -> bool) x l :
  countWhere p (x :: l) = Nat.b2n (p x) + countWhere p l.
Proof. unfold countWhere. cbn. now destruct (p x). Qed.

Lemma countWhere_app {A : Type} (p : A -> bool) l1 l2 :
  countWhere p (l1 ++ l2) = countWhere p l1 + countWhere p l2.
Proof. unfold countWhere. now rewrite List.filter_app, length_app. Qed.

(** How one counted result enters the statistics. *)
Lemma counted_once r :
  Counted r ->
  hasTileStatus "VALIDATED_NO_TILES" r = false /\
  Nat.b2n (hasTileStatus "VALIDATED" r) +
  Nat.b2n (hasTileStatus "VALIDATED_WITH_NO_RESULTS" r) +
  Nat.b2n (hasTileStatus "NO_VISIBLE_TILES" r) +
  Nat.b2n (hasTileStatus "HAS_MESSAGE_BUT_NOT_EXPECTED" r) +
  Nat.b2n (String.eqb (r_status r) "FAILED") = 1 /\
  Nat.b2n (String.eqb (r_status r) "PASSED" || String.eqb (r_status r) "PARTIAL") +
  Nat.b2n (String.eqb (r_status r) "FAILED") = 1.
Proof.
  unfold Counted, tileStatus, hasTileStatus.
  intros [[Hst (st & Htile & Hin)] | [Hst Htile]];
    destruct (r_tileCount r) as [tc |]; try discriminate;
    injection Htile as Htile; rewrite Hst.
  - rewrite Htile.
    rewrite !elem_of_cons, elem_of_nil in Hin.
    destruct Hin as [-> | [-> | [-> | [-> | []]]]]; now vm_compute.
  - rewrite Htile. now vm_compute.
Qed.

Lemma counted_statistics combos :
  Forall Counted combos ->
  countWhere (hasTileStatus "VALIDATED_NO_TILES") combos = 0 /\
  countWhere (hasTileStatus "VALIDATED") combos +
  countWhere (hasTileStatus "VALIDATED_WITH_NO_RESULTS") combos +
  countWhere (hasTileStatus "NO_VISIBLE_TILES") combos +
  countWhere (hasTileStatus "HAS_MESSAGE_BUT_NOT_EXPECTED") combos +
  sum_failed (summary combos) = length combos /\
  sum_passed (summary combos) + sum_failed (summary combos) = length combos.
Proof.
  unfold summary. cbn [sum_failed sum_passed].
  induction 1 as [| r combos Hr _ IH]; [now cbn |].
  rewrite !countWhere_cons. cbn [length].
  destruct (counted_once r Hr) as (-> & H1 & H2).
  destruct IH as (-> & IH1 & IH2). cbn [Nat.b2n]. lia.
Qed.

Lemma counted_status combos :
  combos <> [] -> Forall Counted combos ->
  urlStatus combos =
    if (0 <? sum_failed (summary combos))%nat then "FAILED" else "PASSED".
Proof.
  intros Hne Hall. unfold urlStatus.
  destruct (counted_statistics combos Hall) as (_ & _ & Hsum).
  destruct (0 <? sum_failed (summary combos))%nat eqn:Hf; [reflexivity |].
  apply Nat.ltb_ge in Hf.
  destruct (0 <? sum_passed (summary combos))%nat eqn:Hp; [reflexivity |].
  apply Nat.ltb_ge in Hp. destruct combos; [congruence | cbn [length] in Hsum; lia].
Qed.

Lemma bind_preserves_inv {St X A B : Type} (f : St -> X) (m : M St A)
    (k : A -> M St B) s r s' :
  Preserves f m ->
  bind m k s = (r, s') ->
  (exists e, r = Throw e /\ f s' = f s) \/
  (exists a s1, m s = (Ok a, s1) /\ f s1 = f s /\ k a s1 = (r, s')).
Proof.
  intros Hp H. unfold bind in H. specialize (Hp s).
  destruct (m s) as [[a | e] s1]; cbn [snd] in Hp.
  - right. now exists a, s1.
  - left. injection H as <- <-. now exists e.
Qed.

Section PageRun.
Context {W : Type} (drv : Driver W) (nav : Navigator W).
Context (initializeDriver : Config -> M (Tester W) bool).

#[local] Abbreviation T := (Tester W).

Lemma this_run {A : Type} (m : M T A) (u : UrlResult) (suite : Suite) (t : T) :
  this m (u, (suite, t)) = (fst (m t), (u, (suite, snd (m t)))).
Proof. unfold this, lift. cbn. now destruct (m t). Qed.

Lemma preserves_this {A : Type} (m : M T A) : Preserves pageView (this m).
Proof. intros [u [suite t]]. now rewrite this_run. Qed.

Lemma preserves_describeDropdown i el :
  Preserves pageView (describeDropdown drv i el).
Proof.
  unfold describeDropdown.
  apply preserves_bind; [apply preserves_this | intros opts].
  now intros [u [suite t]].
Qed.

(** The [try] block leaves [this.config] and [this.results] alone; when
    it returns, [urlResult] holds the combinations that
    [testAllCombinations] returned and their statistics, and when it
    throws, none of the kept fields has been written. *)
Lemma testCaseAttempt_spec testCase u suite (t : T) r u' suite' t' :
  testCaseAttempt drv nav initializeDriver testCase (u, (suite, t)) =
    (r, (u', (suite', t'))) ->
  suite' = suite /\
  match r with
  | Ok _ =>
      exists els t0 t1 combos ud,
        testAllCombinations drv els t0 = (Ok combos, t1) /\
        kept ud = kept u /\ u' = tested combos ud
  | Throw _ => kept u' = kept u
  end.
Proof.
  unfold testCaseAttempt. intros H.
  assert (Hthrow : forall e (s : UrlResult * (Suite * T)),
            pageView (u', (suite', t')) = pageView s ->
            pageView s = pageView (u, (suite, t)) ->
            suite' = suite /\
            match Throw (A := unit) e with
            | Ok _ =>
                exists els t0 t1 combos ud,
                  testAllCombinations drv els t0 = (Ok combos, t1) /\
                  kept ud = kept u /\ u' = tested combos ud
            | Throw _ => kept u' = kept u
            end).
  { intros e s H1 H2. rewrite H2 in H1.
    split; [exact (f_equal fst H1) | exact (f_equal snd H1)]. }
  unfold bind at 1 in H. cbn [lift get_local fst snd] in H.
  apply (bind_preserves_inv pageView) in H; [| apply preserves_this].
  destruct H as [(e & -> & Hv) | (? & s1 & _ & Hv1 & H)];
    [now apply (Hthrow e (u, (suite, t))) |].
  apply (bind_preserves_inv pageView) in H; [| apply preserves_this].
  destruct H as [(e & -> & Hv) | (? & s2 & _ & Hv2 & H)];
    [now apply (Hthrow e s1) |].
  rewrite Hv1 in Hv2. clear Hv1 s1.
  apply (bind_preserves_inv pageView) in H; [| apply preserves_this].
  destruct H as [(e & -> & Hv) | (els & s3 & _ & Hv3 & H)];
    [now apply (Hthrow e s2) |].
  rewrite Hv2 in Hv3. clear Hv2 s2.
  apply (bind_preserves_inv pageView) in H; [| now intros [? [? ?]]].
  destruct H as [(e & -> & Hv) | (? & s4 & _ & Hv4 & H)];
    [now apply (Hthrow e s3) |].
  rewrite Hv3 in Hv4. clear Hv3 s3.
  apply (bind_preserves_inv pageView) in H;
    [| apply preserves_for_each; intros; apply preserves_describeDropdown].
  destruct H as [(e & -> & Hv) | (? & s5 & _ & Hv5 & H)];
    [now apply (Hthrow e s4) |].
  rewrite Hv4 in Hv5. clear Hv4 s4.
  apply (bind_preserves_inv pageView) in H; [| apply preserves_this].
  destruct H as [(e & -> & Hv) | (? & s6 & _ & Hv6 & H)];
    [now apply (Hthrow e s5) |].
  rewrite Hv5 in Hv6. clear Hv5 s5.
  apply (bind_preserves_inv pageView) in H; [| apply preserves_this].
  destruct H as [(e & -> & Hv) | (combos & s7 & Hrun & Hv7 & H)];
    [now apply (Hthrow e s6) |].
  rewrite Hv6 in Hv7. clear Hv6.
  destruct s6 as [u6 [suite6 t6]], s7 as [u7 [suite7 t7]].
  rewrite this_run in Hrun. injection Hrun as Hres _ _ Ht7.
  pose proof (f_equal fst Hv7) as Hs7. pose proof (f_equal snd Hv7) as Hk7.
  cbn [pageView fst snd] in Hs7, Hk7.
  unfold bind, local in H. cbn [fst snd] in H. rewrite this_run in H.
  cbn [fst snd captureValidation modify] in H. injection H as <- <- <- _.
  split; [exact Hs7 |].
  exists els, t6, t7, combos, u7. split; [| split; [| reflexivity]].
  - rewrite <- Ht7, <- Hres. now destruct (testAllCombinations drv els t6).
  - exact Hk7.
Qed.
End PageRun.

Section Loop.
Context {W : Type} (drv : Driver W) (nav : Navigator W).
Context (initializeDriver : Config -> M (Tester W) bool).

#[local] Abbreviation T := (Tester W).

Lemma testCaseError_run error u suite (t : T) :
  exists t',
    testCaseError error (u, (suite, t)) =
      (Ok tt, (set_urlError (Some error) (set_urlStatus "ERROR" u), (suite, t'))).
Proof.
  unfold testCaseError, bind, local. cbn [fst snd]. rewrite this_run.
  eexists. reflexivity.
Qed.

Lemma testCaseEnd_run total idx u suite (t : T) :
  exists t',
    testCaseEnd drv total idx (u, (suite, t)) =
      (Ok tt,
       (u, (mkSuite (suite_config suite) (suite_results suite ++ [u]), t'))).
Proof.
  unfold testCaseEnd. unfold bind at 1. rewrite this_run.
  destruct (cleanup_run drv t) as (t1 & -> & _). cbn [fst snd].
  unfold bind at 1, bind at 1, get_local, lift, local. cbn [fst snd].
  destruct (idx <? total - 1)%nat; cbn [when].
  - rewrite this_run. eexists. reflexivity.
  - eexists. reflexivity.
Qed.

(** The body of the loop never throws, and pushes one result. *)
Lemma runTestCase_spec total idx testCase suite (t : T) :
  let config := mergeConfig (suite_config suite) testCase in
  exists u t',
    runTestCase drv nav initializeDriver total idx testCase (suite, t) =
      (Ok tt, (mkSuite config (suite_results suite ++ [u]), t')) /\
    ((exists els t0 t1 combos ud,
        testAllCombinations drv els t0 = (Ok combos, t1) /\
        kept ud = kept (initialUrlResult config testCase) /\
        u = tested combos ud) \/
     (exists e ud,
        kept ud = kept (initialUrlResult config testCase) /\
        u = set_urlError (Some e) (set_urlStatus "ERROR" ud))).
Proof.
  intros config. unfold runTestCase.
  unfold bind at 1, local. cbn [fst snd suite_config suite_results].
  unfold bind at 1, get_local. cbn [fst snd suite_config].
  fold config. set (suite1 := mkSuite config (suite_results suite)).
  set (u0 := initialUrlResult config testCase).
  unfold bind at 1, with_local, finally, try_catch.
  destruct (testCaseAttempt drv nav initializeDriver testCase (u0, (suite1, t)))
    as [[[] | e] [u1 [s1 t1]]] eqn:Hattempt;
    apply testCaseAttempt_spec in Hattempt; destruct Hattempt as [-> Hu].
  - destruct (testCaseEnd_run total idx u1 suite1 t1) as (t2 & ->).
    cbn [ret]. exists u1, t2. split; [reflexivity |]. now left.
  - destruct (testCaseError_run e u1 suite1 t1) as (t2 & ->).
    destruct (testCaseEnd_run total idx
                (set_urlError (Some e) (set_urlStatus "ERROR" u1)) suite1 t2)
      as (t3 & ->).
    cbn [ret]. eexists _, t3. split; [reflexivity |]. right. now exists e, u1.
Qed.

(** What a recorded page looks like. *)
Lemma recorded_page config testCase u :
  ((exists els (t0 t1 : T) combos ud,
      testAllCombinations drv els t0 = (Ok combos, t1) /\
      kept ud = kept (initialUrlResult (mergeConfig config testCase) testCase) /\
      u = tested combos ud) \/
   (exists e ud,
      kept ud = kept (initialUrlResult (mergeConfig config testCase) testCase) /\
      u = set_urlError (Some e) (set_urlStatus "ERROR" ud))) ->
  PageRecord testCase u.
Proof.
  unfold PageRecord.
  intros [(els & t0 & t1 & combos & ud & Hrun & Hk & ->) | (e & ud & Hk & ->)];
    unfold kept in Hk; cbn in Hk;
    injection Hk as Hurl Hde Hb Hd _ _ Hc Hs He Hts Hss Hsum.
  - cbn. destruct (testAllCombinations_counted drv _ _ _ _ Hrun) as [Hne Hall].
    repeat split; auto. now apply counted_status.
  - cbn. rewrite Hsum. repeat split; eauto.
Qed.

Lemma runTestCases_spec :
  forall csvData total idx suite (t : T),
    exists us t',
      for_each (runTestCase drv nav initializeDriver total) idx csvData (suite, t) =
        (Ok tt,
         (mkSuite (fold_left mergeConfig csvData (suite_config suite))
            (suite_results suite ++ us), t')) /\
      Forall2 PageRecord csvData us.
Proof.
  induction csvData as [| testCase csvData IH]; intros total idx suite t;
    cbn [for_each fold_left].
  - exists [], t. rewrite app_nil_r. destruct suite. split; [reflexivity | constructor].
  - destruct (runTestCase_spec total idx testCase suite t) as (u & t1 & Hrun & Hu).
    rewrite (bind_ok _ _ _ _ _ Hrun).
    destruct (IH total (S idx) (mkSuite (mergeConfig (suite_config suite) testCase)
                                  (suite_results suite ++ [u])) t1)
      as (us & t' & Hloop & Hus).
    rewrite Hloop. cbn [suite_config suite_results].
    exists (u :: us), t'. rewrite <- app_assoc. split; [reflexivity |].
    constructor; [| exact Hus]. eapply recorded_page. exact Hu.
Qed.

Lemma pageRecord_status testCase u :
  PageRecord testCase u -> u_status u ∈ ["PASSED"; "FAILED"; "ERROR"].
Proof.
  intros (_ & _ & _ & _ & H). destruct (u_summary u) as [s |].
  - destruct H as (_ & _ & _ & _ & _ & _ & ->).
    destruct (0 <? sum_failed s)%nat; set_solver.
  - destruct H as (-> & _). set_solver.
Qed.
End Loop.

(** After a page whose least count is 0 the reduction starts again. *)
Lemma leastTiles_restart before r after :
  ts_minTiles (u_tileSummary r) = 0 ->
  leastTiles (before ++ r :: after) = leastTiles after.
Proof.
  intros Hz. unfold leastTiles. rewrite fold_left_app. cbn [fold_left].
  rewrite Hz, Nat.min_0_r. now destruct (_ =? 0)%nat.
Qed.

Lemma leastTiles_positive results :
  Forall (fun r => 0 < ts_minTiles (u_tileSummary r)) results ->
  leastTiles results =
    minOf (map (fun r => ts_minTiles (u_tileSummary r)) results).
Proof.
  unfold leastTiles, minOf. intros H.
  destruct H as [| r results Hr Hall]; [reflexivity |].
  cbn [fold_left map Nat.eqb].
  generalize dependent (ts_minTiles (u_tileSummary r)).
  induction Hall as [| r' results Hr' _ IH]; intros least Hleast; [reflexivity |].
  cbn [fold_left map]. destruct (Nat.eqb_spec least 0); [lia |].
  apply IH. lia.
Qed.

Lemma overallStatus_cases results :
  Forall (fun u => u_status u ∈ ["PASSED"; "FAILED"; "ERROR"]) results ->
  (overallStatus results = "SKIPPED" <-> results = []) /\
  (overallStatus results = "ERROR" <->
   Exists (fun u => u_status u = "ERROR") results) /\
  (overallStatus results = "FAILED" <->
   ~ Exists (fun u => u_status u = "ERROR") results /\
   Exists (fun u => u_status u = "FAILED") results) /\
  (overallStatus results = "PASSED" <->
   results <> [] /\ Forall (fun u => u_status u = "PASSED") results).
Proof.
  intros Hall. unfold overallStatus.
  assert (He : forall st,
            existsb (fun r => String.eqb (u_status r) st) results = true <->
            Exists (fun u => u_status u = st) results).
  { intros st. rewrite existsb_exists, Exists_exists. split.
    - intros (u & Hin & Heq). exists u. apply String.eqb_eq in Heq.
      split; [now apply list_elem_of_In | exact Heq].
    - intros (u & Hin & Heq). exists u. split; [now apply list_elem_of_In |].
      now apply String.eqb_eq. }
  destruct (existsb _ results) eqn:Herr.
  { apply He in Herr. repeat split; try discriminate; try tauto.
    - intros ->. inversion Herr.
    - intros [_ Hp]. exfalso. apply Exists_exists in Herr.
      destruct Herr as (u & Hin & Hu). rewrite Forall_forall in Hp.
      specialize (Hp u Hin). congruence. }
  assert (Hnoerr : ~ Exists (fun u => u_status u = "ERROR") results).
  { intros H. apply He in H. congruence. }
  destruct (existsb (fun r => String.eqb (u_status r) "FAILED") results) eqn:Hfail.
  { apply He in Hfail. repeat split; try discriminate; try tauto.
    - intros ->. inversion Hfail.
    - intros [_ Hp]. exfalso. apply Exists_exists in Hfail.
      destruct Hfail as (u & Hin & Hu). rewrite Forall_forall in Hp.
      specialize (Hp u Hin). congruence. }
  assert (Hnofail : ~ Exists (fun u => u_status u = "FAILED") results).
  { intros H. apply He in H. congruence. }
  assert (Hpassed : Forall (fun u => u_status u = "PASSED") results).
  { rewrite Forall_forall in *. intros u Hin. specialize (Hall u Hin).
    rewrite !elem_of_cons, elem_of_nil in Hall.
    destruct Hall as [Hu | [Hu | [Hu | []]]]; [exact Hu | |].
    - exfalso. apply Hnofail, Exists_exists. eauto.
    - exfalso. apply Hnoerr, Exists_exists. eauto. }
  destruct results as [| u results].
  - cbn. repeat split; try discriminate; try tauto.
  - cbn [forallb]. inversion Hpassed as [| ? ? Hu _]; subst.
    rewrite Hu. cbn [String.eqb Ascii.eqb Bool.eqb andb].
    repeat split; try discriminate; try tauto; try congruence.
Qed.

(** X22: The loop of runTests over the CSV rows never throws, whatever
    initializeDriver and the page do: it pushes exactly one result per
    row, in order, carrying the row's url, description, browser and
    device. A result whose combinations were tested has no error, at least
    one combination, the statistics of its combinations, and the status
    FAILED if one of them failed and PASSED otherwise; a result whose try
    block threw has status ERROR, the error message, no combination and
    all-zero summaries. No result is left PENDING or is SKIPPED. *)
Theorem runTestCases_records_every_row {W : Type} (drv : Driver W)
    (nav : Navigator W) (initializeDriver : Config -> M (Tester W) bool)
    (csvData : list TestCase) (suite : Suite) (t : Tester W) :
  exists pages t',
    runTestCases drv nav initializeDriver csvData (suite, t) =
      (Ok tt,
       (mkSuite (fold_left mergeConfig csvData (suite_config suite))
          (suite_results suite ++ pages), t')) /\
    Forall2 PageRecord csvData pages /\
    Forall (fun u => u_status u ∈ ["PASSED"; "FAILED"; "ERROR"]) pages.
Proof.
  destruct (runTestCases_spec drv nav initializeDriver csvData (length csvData) 0
              suite t) as (pages & t' & Hrun & Hpages).
  exists pages, t'. split; [exact Hrun |]. split; [exact Hpages |].
  clear Hrun. induction Hpages as [| c u cs us Hu _ IH]; constructor; [| exact IH].
  eapply pageRecord_status. exact Hu.
Qed.

(** X23: For the combinations testAllCombinations returns, the page
    statistic combosWithValidatedNoTiles is always 0: the classifier never
    writes the tile status VALIDATED_NO_TILES. Every combination has
    exactly one of the tile statuses VALIDATED, VALIDATED_WITH_NO_RESULTS,
    NO_VISIBLE_TILES, HAS_MESSAGE_BUT_NOT_EXPECTED and ERROR; the failed
    combinations are those with ERROR; passed + failed = total > 0; and
    the page status is FAILED if one failed and PASSED otherwise, never
    SKIPPED. *)
Theorem tile_statistics_of_a_page {W : Type} (drv : Driver W) (els : list Elem)
    (t : Tester W) combos t' :
  testAllCombinations drv els t = (Ok combos, t') ->
  let tiles := tileSummary combos in
  let s := summary combos in
  ts_combosWithValidatedNoTiles tiles = 0 /\
  ts_combosWithValidatedTiles tiles + ts_combosWithValidatedNoResults tiles +
  ts_combosWithNoVisibleTiles tiles +
  countWhere (hasTileStatus "HAS_MESSAGE_BUT_NOT_EXPECTED") combos +
  sum_failed s = sum_total s /\
  sum_failed s = countWhere (hasTileStatus "ERROR") combos /\
  sum_passed s + sum_failed s = sum_total s /\
  0 < sum_total s /\
  urlStatus combos = (if (0 <? sum_failed s)%nat then "FAILED" else "PASSED").
Proof.
  intros H. apply testAllCombinations_counted in H. destruct H as [Hne Hall].
  destruct (counted_statistics combos Hall) as (Hz & Hpart & Hsum).
  cbv zeta. cbn [tileSummary ts_combosWithValidatedNoTiles
                 ts_combosWithValidatedTiles ts_combosWithValidatedNoResults
                 ts_combosWithNoVisibleTiles summary sum_total].
  split; [exact Hz |]. split; [exact Hpart |]. split.
  { clear - Hall. unfold summary. cbn [sum_failed].
    induction Hall as [| r combos Hr _ IH]; [reflexivity |].
    rewrite !countWhere_cons, IH. f_equal. f_equal.
    unfold Counted, tileStatus, hasTileStatus in *.
    destruct Hr as [[Hst (st & Htile & Hin)] | [Hst Htile]];
      destruct (r_tileCount r) as [tc |]; try discriminate;
      injection Htile as Htile; rewrite Hst, Htile; [| reflexivity].
    rewrite !elem_of_cons, elem_of_nil in Hin.
    destruct Hin as [-> | [-> | [-> | [-> | []]]]]; reflexivity. }
  split; [exact Hsum |]. split.
  { destruct combos; [congruence | cbn; lia]. }
  now apply counted_status.
Qed.

Lemma tile_statistics_of_a_page_witness :
  exists combos t',
    testAllCombinations Pages.emptyPage [0; 1]
      (Pages.fresh (Pages.values [EmptyString; EmptyString])) = (Ok combos, t') /\
    ts_combosWithValidatedNoTiles (tileSummary combos) = 0 /\
    urlStatus combos =
      (if (0 <? sum_failed (summary combos))%nat then "FAILED" else "PASSED").
Proof.
  destruct (testAllCombinations Pages.emptyPage [0; 1]
              (Pages.fresh (Pages.values [EmptyString; EmptyString])))
    as [[combos | e] t'] eqn:Hrun; [| vm_compute in Hrun; discriminate].
  exists combos, t'. split; [reflexivity |].
  destruct (tile_statistics_of_a_page _ _ _ _ _ Hrun) as (Hz & _ & _ & _ & _ & Hst).
  split; [exact Hz | exact Hst].
Defined.

(** X24: The least tile count that finalizeExecution reports is not the
    minimum over the pages: its reduction starts again after every page
    whose minTiles is 0. If the pages after such a page all have a
    positive minTiles, the reported value is the minimum over those pages
    only, whatever came before; on a run whose pages all have a positive
    minTiles it is the true minimum. *)
Theorem leastTiles_restarts (before : list UrlResult) (r : UrlResult)
    (after : list UrlResult) :
  ts_minTiles (u_tileSummary r) = 0 ->
  Forall (fun r => 0 < ts_minTiles (u_tileSummary r)) after ->
  st_minTiles (tileSortStats (before ++ r :: after)) =
    minOf (map (fun r => ts_minTiles (u_tileSummary r)) after) /\
  st_minTiles (tileSortStats after) =
    minOf (map (fun r => ts_minTiles (u_tileSummary r)) after).
Proof.
  intros Hz Hpos. cbn [tileSortStats st_minTiles].
  rewrite (leastTiles_restart _ _ _ Hz). split; now apply leastTiles_positive.
Qed.

Lemma leastTiles_restarts_witness :
  st_minTiles
    (tileSortStats
       ([pageWithLeast 2] ++ pageWithLeast 0 :: [pageWithLeast 5; pageWithLeast 7])) = 5.
Proof.
  refine (eq_trans
            (proj1 (leastTiles_restarts [pageWithLeast 2] (pageWithLeast 0)
                      [pageWithLeast 5; pageWithLeast 7] eq_refl _)) eq_refl).
  repeat constructor.
Defined.

Section V3Classifier.
Context {W : Type} (drv : Driver W).

#[local] Abbreviation T := (Tester W).

(** The executor of validator3 leaves the counters to its operation, and
    returns what the operation returned. *)
Lemma v3_retryLoop_run {A : Type} name (op : M T A) m :
  (forall s, counters (snd (op s)) = counters s) ->
  forall remaining attempt last (t : T),
    counters (snd (V3.retryLoop drv name op m remaining attempt last t)) =
      counters t /\
    forall v,
      fst (V3.retryLoop drv name op m remaining attempt last t) = Ok v ->
      exists s, fst (op s) = Ok v.
Proof.
  intros Hop. induction remaining as [| r IH]; intros attempt last t.
  - cbn. split; [reflexivity | discriminate].
  - set (t0 := set_executionLog
                 (executionLog t ++
                  ["Attempt " +:+ pretty attempt +:+ "/" +:+ pretty m +:+
                   " for operation: " +:+ name]) t).
    pose proof (Hop t0) as Hc0.
    destruct (op t0) as [[v | e] s1] eqn:Hrun; cbn [snd] in Hc0.
    + destruct (v3_retryLoop_succeeded drv name op m r attempt last t v s1 Hrun)
        as (s2 & -> & _ & _ & _ & Hc & _).
      cbn [fst snd]. split; [now rewrite Hc, Hc0 |].
      intros v' [= <-]. exists t0. now rewrite Hrun.
    + destruct (v3_retryLoop_failed drv name op m r attempt last t e s1 Hrun)
        as (s2 & -> & _ & _ & _ & Hc & _).
      destruct (IH (S attempt) (Some e) s2) as [IHc IHv].
      split; [now rewrite IHc, Hc, Hc0 | exact IHv].
Qed.

Lemma v3_verifySelection_spec el o (t : T) :
  counters (snd (Validator3.verifySelection drv el o t)) = counters t /\
  match fst (Validator3.verifySelection drv el o t) with
  | Ok verified => verified = true
  | Throw e =>
      exists cause,
        e = "Operation verification failed after 2 attempts: " +:+ cause
  end.
Proof.
  unfold Validator3.verifySelection, V3.executeWithRetry.
  match goal with
  | |- context [V3.retryLoop drv ?n ?op ?m ?r ?a ?l t] =>
      assert (Hop : forall s, counters (snd (op s)) = counters s);
      [| destruct (v3_retryLoop_run n op m Hop r a l t) as [Hc Hv];
         split; [exact Hc |];
         destruct (V3.retryLoop drv n op m r a l t) as [[v | e] t'] eqn:Hrun;
         cbn [fst] in * ]
  end.
  - intros s. unfold bind at 1, drive. destruct (driver s); [| reflexivity].
    destruct (drv_verify drv el (opt_value o) (world s)) as [[b | e] w];
      [| reflexivity].
    unfold bind, V3.logValidation, modify. cbn. now destruct b.
  - destruct (Hv v eq_refl) as (s & Hs).
    unfold bind at 1, drive in Hs. destruct (driver s); [| discriminate].
    destruct (drv_verify drv el (opt_value o) (world s)) as [[b | e] w];
      [| discriminate].
    unfold bind, V3.logValidation, modify in Hs. cbn in Hs.
    destruct b; [now injection Hs | discriminate].
  - apply v3_retryLoop_throws in Hrun. exact Hrun.
Qed.

(** The loop of the classifier: the dropdowns it has verified are
    recorded in order, and its only error is the executor's. *)
Lemma v3_verifyDropdowns_spec (els : list Elem) :
  forall sel k r (t : T) out r' t',
    for_each (Validator3.verifyDropdown drv els) k sel (r, t) = (out, (r', t')) ->
    counters t' = counters t /\
    (r_number r', r_name r', r_status r', r_error r') =
      (r_number r, r_name r, r_status r, r_error r) /\
    match out with
    | Ok _ => r_options r' = r_options r ++ imap (fun i => v3Entry (k + i)) sel
    | Throw e =>
        (exists cause,
           e = "Operation verification failed after 2 attempts: " +:+ cause) /\
        exists n,
          n < length sel /\
          r_options r' = r_options r ++ imap (fun i => v3Entry (k + i)) (take n sel)
    end.
Proof.
  induction sel as [| o sel IH]; intros k r t out r' t' H; cbn [for_each] in H.
  - injection H as <- <- <-. cbn. now rewrite app_nil_r.
  - unfold bind at 1, Validator3.verifyDropdown at 1 in H.
    unfold bind at 1 in H. rewrite lift_run in H.
    destruct (v3_verifySelection_spec (els !! k) o t) as [Hc Hv].
    destruct (Validator3.verifySelection drv (els !! k) o t) as [[b | e] t1];
      cbn [fst snd] in *.
    + subst b. cbn [negb local fst snd] in H. apply IH in H.
      destruct H as (Hc' & Hf & Hout). cbn in Hf.
      split; [congruence |]. split; [exact Hf |].
      destruct out as [[] | e].
      * rewrite Hout. cbn [r_options set_options imap]. rewrite <- app_assoc.
        cbn [app]. rewrite Nat.add_0_r. do 2 f_equal.
        apply imap_ext. intros i x _. cbn. f_equal. lia.
      * destruct Hout as (Hcause & n & Hn & Hopt). split; [exact Hcause |].
        exists (S n). split; [cbn; lia |].
        rewrite Hopt. cbn [r_options set_options imap take]. rewrite <- app_assoc.
        cbn [app]. rewrite Nat.add_0_r. do 2 f_equal.
        apply imap_ext. intros i x _. cbn. f_equal. lia.
    + injection H as <- <- <-. split; [exact Hc |]. split; [reflexivity |].
      split; [exact Hv |]. exists 0. cbn. split; [lia | now rewrite app_nil_r].
Qed.
Lemma v3_getDropdownOptions_spec el i (t : T) :
  counters (snd (Validator3.getDropdownOptions drv el i t)) = counters t /\
  match fst (Validator3.getDropdownOptions drv el i t) with
  | Ok opts =>
      opts <> [] /\ exists w w', drv_options drv el w = (Ok opts, w')
  | Throw e =>
      exists cause,
        e = "Operation dropdownOptions failed after 2 attempts: " +:+ cause
  end.
Proof.
  unfold Validator3.getDropdownOptions, V3.executeWithRetry.
  match goal with
  | |- context [V3.retryLoop drv ?n ?op ?m ?r ?a ?l t] =>
      assert (Hop : forall s, counters (snd (op s)) = counters s);
      [| destruct (v3_retryLoop_run n op m Hop r a l t) as [Hc Hv];
         split; [exact Hc |];
         destruct (V3.retryLoop drv n op m r a l t) as [[v | e] t'] eqn:Hrun;
         cbn [fst] in * ]
  end.
  - intros s. unfold bind at 1, drive. destruct (driver s); [| reflexivity].
    destruct (drv_options drv el (world s)) as [[[| o opts] | e] w]; reflexivity.
  - destruct (Hv v eq_refl) as (s & Hs).
    unfold bind at 1, drive in Hs. destruct (driver s); [| discriminate].
    destruct (drv_options drv el (world s)) as [[[| o opts] | e] w] eqn:Hd;
      try discriminate.
    unfold bind, V3.logValidation, modify in Hs. cbn in Hs. injection Hs as <-.
    split; [discriminate | eauto].
  - apply v3_retryLoop_throws in Hrun. exact Hrun.
Qed.

Lemma v3_selectDropdownOption_counters el o i (t : T) :
  counters (snd (Validator3.selectDropdownOption drv el o i t)) = counters t.
Proof.
  unfold Validator3.selectDropdownOption, V3.executeWithRetry.
  apply v3_retryLoop_run. intros s.
  unfold bind at 1, drive. destruct (driver s); [| reflexivity].
  destruct (drv_select drv el (opt_value o) (world s)) as [[[] | e] w];
    try reflexivity.
  cbn [negb snd]. unfold bind at 1, delay at 1, modify at 1. unfold bind at 1.
  match goal with
  | |- context [Validator3.verifySelection drv el o ?x] =>
      destruct (v3_verifySelection_spec el o x) as [Hc _];
      destruct (Validator3.verifySelection drv el o x) as [[[] | e] s1];
      cbn [snd] in Hc |- *; exact Hc
  end.
Qed.

Lemma v3_resetDropdown_spec i el (t : T) :
  exists t',
    Validator3.resetDropdown drv i el t = (Ok tt, t') /\ counters t' = counters t.
Proof.
  unfold Validator3.resetDropdown, try_catch. unfold bind at 1.
  destruct (v3_getDropdownOptions_spec (Some el) i t) as [Hc _].
  destruct (Validator3.getDropdownOptions drv (Some el) i t) as [[opts | e] t1];
    cbn [snd] in Hc.
  - destruct (defaultOption opts) as [d |]; [| now exists t1].
    unfold bind.
    pose proof (v3_selectDropdownOption_counters (Some el) d i t1) as Hs.
    destruct (Validator3.selectDropdownOption drv (Some el) d i t1) as [[b | e] t2];
      cbn [snd ret] in *; eexists; (split; [reflexivity |]);
      unfold counters in *; cbn; congruence.
  - eexists. split; [reflexivity |]. exact Hc.
Qed.

Lemma v3_resetNextDropdowns_spec :
  forall (els : list Elem) i (t : T),
    exists t',
      for_each (Validator3.resetDropdown drv) i els t = (Ok tt, t') /\
      counters t' = counters t.
Proof.
  induction els as [| el els IH]; intros i t; cbn [for_each]; [now exists t |].
  destruct (v3_resetDropdown_spec i el t) as (t1 & Hrun & Hc).
  rewrite (bind_ok _ _ _ _ _ Hrun).
  destruct (IH (S i) t1) as (t' & Hloop & Hc').
  exists t'. split; [exact Hloop | congruence].
Qed.
End V3Classifier.

(** X25: testSingleCombination of dropdown-validator3.js always returns a
    result numbered and named after comboNumber and adds one to
    totalTests. Either every dropdown read back, and the result is PASSED
    with no error and one entry per dropdown (the text falling back to
    'Option <value>'); or it is FAILED, with the entries of the dropdowns
    verified before the failure and an error of the form 'Operation
    verification failed after 2 attempts: <cause>'. The message
    'Verification failed for dropdown N' is never recorded, because
    verifySelection throws instead of returning false. *)
Theorem v3_classifier_outcomes {W : Type} (drv : Driver W) sel (els : list Elem) n
    (t : Tester W) :
  exists r t',
    Validator3.testSingleCombination drv sel els n t = (Ok r, t') /\
    r_number r = n /\
    r_name r = "Combo " +:+ pretty n /\
    totalTests t' = totalTests t + 1 /\
    ((r_status r = "PASSED" /\ r_error r = None /\
      r_options r = imap v3Entry sel /\
      passedTests t' = passedTests t + 1 /\ failedTests t' = failedTests t) \/
     (r_status r = "FAILED" /\
      (exists cause,
         r_error r =
           Some ("Operation verification failed after 2 attempts: " +:+ cause)) /\
      (exists k, k < length sel /\ r_options r = imap v3Entry (take k sel)) /\
      passedTests t' = passedTests t /\ failedTests t' = failedTests t + 1)).
Proof.
  unfold Validator3.testSingleCombination. unfold bind at 1, with_local, try_catch.
  unfold bind at 1.
  destruct (for_each (Validator3.verifyDropdown drv els) 0 sel
              (Validator3.initialResult n, t)) as [[[] | e] [r1 t1]] eqn:Hloop;
    apply v3_verifyDropdowns_spec in Hloop;
    destruct Hloop as (Hc & Hf & Hout); cbn in Hf;
    injection Hf as Hnum Hname Hst Herr;
    unfold counters in Hc; injection Hc as Htot Hpass Hfail.
  - unfold bind, local, lift, incTotal, incPassed, V3.logValidation, modify.
    cbn. eexists _, _. split; [reflexivity |]. cbn.
    repeat split; try assumption; try lia. left.
    repeat split; try assumption; lia.
  - unfold bind, local, lift, incTotal, incFailed, logError, modify.
    cbn. eexists _, _. split; [reflexivity |]. cbn.
    repeat split; try assumption; try lia. right.
    destruct Hout as ((cause & ->) & k & Hk & Hopt).
    repeat split; try lia; eauto.
Qed.

(** X26: In dropdown-validator3.js, getDropdownOptions never returns an
    empty list: it returns a non-empty list the page gave or throws
    'Operation dropdownOptions failed after 2 attempts: <cause>'.
    resetNextDropdowns never throws, whatever the page does, and leaves
    the test counters alone. *)
Theorem v3_dropdown_operations_outcomes {W : Type} (drv : Driver W) el i
    (els : list Elem) k (t : Tester W) :
  match fst (Validator3.getDropdownOptions drv el i t) with
  | Ok opts =>
      opts <> [] /\ exists w w', drv_options drv el w = (Ok opts, w')
  | Throw e =>
      exists cause,
        e = "Operation dropdownOptions failed after 2 attempts: " +:+ cause
  end /\
  exists t',
    Validator3.resetNextDropdowns drv els k t = (Ok tt, t') /\
    counters t' = counters t.
Proof.
  split; [apply v3_getDropdownOptions_spec |].
  apply v3_resetNextDropdowns_spec.
Qed.

Section RowsProps.
Context {W : Type} (trim : string -> string) (parseInt : string -> option Z).

#[local] Abbreviation T := (Tester W).

Lemma onData_url data testCase :
  onData trim parseInt data = Some testCase -> case_url testCase <> EmptyString.
Proof.
  unfold onData. destruct (data !! "url") as [url |]; [| discriminate].
  destruct (String.eqb_spec (trim url) EmptyString) as [| Hne]; [discriminate |].
  now intros [= <-].
Qed.

Lemma onEnd_run (results : list TestCase) (t : T) :
  exists t',
    onEnd results t = (Ok (orDefault results), t') /\
    ledger t' = ledger t /\ world t' = world t.
Proof.
  unfold onEnd. cbv zeta.
  match goal with
  | |- context [captureValidation ?m true] =>
      destruct (capture_run (W := W) m t) as (t' & Hrun & Hl & Hw & _)
  end.
  rewrite (bind_ok _ _ _ _ _ Hrun). now exists t'.
Qed.

(** What [readCSV] resolves with, and what it rejects with. *)
Lemma readCSV_spec fileExists written stream (t : T) :
  let out := readCSV trim parseInt fileExists written stream t in
  ledger (snd out) = ledger t /\ world (snd out) = world t /\
  match fst out with
  | Ok csvData =>
      exists rows,
        stream = Ok rows /\
        (fileExists = false -> written = Ok tt) /\
        csvData = orDefault (omap (onData trim parseInt) rows)
  | Throw e =>
      (fileExists = false /\ written = Throw e) \/ stream = Throw e
  end.
Proof.
  cbv zeta. unfold readCSV.
  assert (H1 : exists t1,
             ledger t1 = ledger t /\ world t1 = world t /\
             ((if fileExists then ret tt
               else match written with
                    | Ok _ => captureValidation "Created default CSV" true
                    | Throw e => throw e
                    end) t = (Ok tt, t1) /\ (fileExists = false -> written = Ok tt)
              \/ exists e,
                   (if fileExists then ret tt
                    else match written with
                         | Ok _ => captureValidation "Created default CSV" true
                         | Throw e => throw e
                         end) t = (Throw e, t1) /\
                   fileExists = false /\ written = Throw e)).
  { destruct fileExists.
    - exists t. repeat split. left. split; [reflexivity | discriminate].
    - destruct written as [[] | e].
      + destruct (capture_run (W := W) "Created default CSV" t)
          as (t1 & Hrun & Hl & Hw & _).
        exists t1. repeat split; auto.
      + exists t. repeat split. right. now exists e. }
  destruct H1 as (t1 & Hl & Hw & [[Hrun Hwr] | (e & Hrun & Hf & Hwr)]).
  - rewrite (bind_ok _ _ _ _ _ Hrun). destruct stream as [rows | e].
    + destruct (onEnd_run (omap (onData trim parseInt) rows) t1)
        as (t2 & -> & Hl2 & Hw2).
      cbn [fst snd]. split; [congruence |]. split; [congruence |].
      exists rows. split; [reflexivity |]. split; [exact Hwr | reflexivity].
    + cbn. split; [exact Hl |]. split; [exact Hw | now right].
  - rewrite (bind_throw _ _ _ _ _ Hrun). cbn. split; [exact Hl |].
    split; [exact Hw | now left].
Qed.
End RowsProps.

(** X27: readCSV never resolves with an empty list: it resolves with the
    rows of the stream that have a non-blank url, in order, or, when there
    is none, with the single default row; every row it returns has a non-
    empty url. It rejects only with the error of the stream or the error
    of writing the default file. *)
Theorem readCSV_never_empty {W : Type} (trim : string -> string)
    (parseInt : string -> option Z) fileExists written stream (t : Tester W) :
  match fst (readCSV trim parseInt fileExists written stream t) with
  | Ok csvData =>
      csvData <> [] /\
      Forall (fun testCase => case_url testCase <> EmptyString) csvData /\
      exists rows,
        stream = Ok rows /\
        (csvData = omap (onData trim parseInt) rows \/
         (omap (onData trim parseInt) rows = [] /\ csvData = [defaultRow]))
  | Throw e => (fileExists = false /\ written = Throw e) \/ stream = Throw e
  end.
Proof.
  destruct (readCSV_spec trim parseInt fileExists written stream t) as (_ & _ & H).
  destruct (fst (readCSV trim parseInt fileExists written stream t))
    as [csvData | e]; [| exact H].
  destruct H as (rows & -> & _ & ->). unfold orDefault.
  destruct (omap (onData trim parseInt) rows) as [| c kept] eqn:Hk.
  - split; [discriminate |]. split; [| exists rows; auto].
    constructor; [discriminate | constructor].
  - split; [discriminate |]. split; [| exists rows; auto].
    rewrite <- Hk. apply Forall_forall. intros c' Hin.
    apply list_elem_of_omap in Hin. destruct Hin as (data & _ & Hd).
    eapply onData_url. exact Hd.
Qed.

Section RunProps.
Context {W : Type} (trim : string -> string) (parseInt : string -> option Z).
Context (drv : Driver W) (nav : Navigator W).
Context (initializeDriver : Config -> M (Tester W) bool).

(** The [try] and [catch] blocks of [runTests] never throw: either the
    file was read and every row that [readCSV] kept is recorded, or it
    was not and nothing is. *)
Lemma runTestsGuarded_spec fileExists written stream (suite : Suite)
    (t : Tester W) :
  exists pages suite' t',
    runTestsGuarded trim parseInt drv nav initializeDriver fileExists written
      stream (suite, t) = (Ok tt, (suite', t')) /\
    suite_results suite' = suite_results suite ++ pages /\
    match stream with
    | Ok rows =>
        if fileExists || negb (isThrow written) then
          pages <> [] /\
          Forall2 PageRecord (orDefault (omap (onData trim parseInt) rows)) pages
        else pages = [] /\ suite' = suite
    | Throw _ => pages = [] /\ suite' = suite
    end.
Proof.
  unfold runTestsGuarded, try_catch, runTestsAttempt. unfold bind at 1.
  rewrite lift_run.
  destruct (readCSV_spec trim parseInt fileExists written stream t) as (_ & _ & H).
  destruct (readCSV trim parseInt fileExists written stream t) as [[csvData | e] t1];
    cbn [fst snd] in *.
  - destruct H as (rows & -> & Hwr & ->).
    assert (Hw : fileExists || negb (isThrow written) = true).
    { destruct fileExists; [reflexivity |]. now rewrite Hwr. }
    rewrite Hw.
    set (csvData := orDefault (omap (onData trim parseInt) rows)).
    assert (Hne : csvData <> []).
    { unfold csvData, orDefault. now destruct (omap _ rows). }
    destruct (runTestCases_spec drv nav initializeDriver csvData (length csvData) 0
                suite t1) as (pages & t' & Hrun & Hpages).
    fold (runTestCases drv nav initializeDriver csvData) in Hrun.
    destruct csvData as [| c cs] eqn:Hcsv; [congruence |].
    rewrite Hrun. eexists pages, _, t'. split; [reflexivity |].
    split; [reflexivity |]. split; [| exact Hpages].
    inversion Hpages. discriminate.
  - rewrite lift_run. cbn [fst snd captureValidation modify].
    exists [], suite. eexists. split; [reflexivity |].
    split; [now rewrite app_nil_r |].
    destruct stream as [rows | e']; [| now split].
    destruct H as [[-> ->] | H]; [now split | discriminate].
Qed.
End RunProps.


